(** * Field dependency scraper: a shallow embedding of [main.py]

    Definitions, in this order:
    - Python values and helpers (exceptions, truthiness, indexing, strings);
    - the filter/dedup stage of [parse_field_dependencies_page];
    - the three regular expressions of the script, run by a small
      backtracking matcher, and the identifier extractor;
    - the page as the script sees it, and the reference link resolver;
    - the worksheet (openpyxl's dictionary of cells) and the merge writer;
    - effects (state and exceptions), the navigation functions and the
      dependency table parser, driven by a scripted browser;
    - [main]: pre-scan, per-field loop with recovery, final save.
    The proofs follow, component by component.

    Strings are [string]s.  [str.strip], [str.lower] and
    [urllib.parse.unquote] are parameters (class [PyStr]); the examples use
    their ASCII versions.  The browser and the workbook are external
    providers: the browser is a script of answers (any answer may be an
    exception), the worksheet is a finite map from (row, column) to cells. *)

From Stdlib Require Import ZArith String Ascii List Bool Lia Sorted.
From stdpp Require Import base option list gmap strings.
Import ListNotations.

Open Scope Z_scope.

(** ** Python helpers *)

(** Exceptions: the script tells Playwright's timeout apart from the rest. *)
Inductive exn : Type :=
| PWTimeout
| Error.

(** A call that may raise. *)
Inductive result (A : Type) : Type :=
| Ok (a : A)
| Exc (e : exn).
Arguments Ok {A} a.
Arguments Exc {A} e.

(** Cell values as openpyxl hands them out: nothing, text, a number or a
    boolean.  (A float cell behaves like [VNum] here: it is falsy exactly at
    zero and has no string methods.) *)
Inductive pyval : Type :=
| VNone
| VStr (s : string)
| VNum (z : Z)
| VBool (b : bool).

(** [bool(s)] for a string *)
Definition str_truthy (s : string) : bool := negb (String.eqb s "").

(** [bool(v)] *)
Definition truthy (v : pyval) : bool :=
  match v with
  | VNone => false
  | VStr s => str_truthy s
  | VNum z => negb (z =? 0)
  | VBool b => b
  end.

(** [s.startswith(p)] *)
Fixpoint startswith (p s : string) : bool :=
  match p, s with
  | EmptyString, _ => true
  | String a p', String b s' => Ascii.eqb a b && startswith p' s'
  | String _ _, EmptyString => false
  end.

(** [s[len(p):]] when [s.startswith(p)] *)
Fixpoint strip_prefix (p s : string) : option string :=
  match p, s with
  | EmptyString, _ => Some s
  | String a p', String b s' =>
      if Ascii.eqb a b then strip_prefix p' s' else None
  | String _ _, EmptyString => None
  end.

(** [l[i]], with Python's negative indices; [IndexError] out of range. *)
Definition py_index {A : Type} (l : list A) (i : Z) : result A :=
  let n := Z.of_nat (length l) in
  let k := if i <? 0 then n + i else i in
  if (k <? 0) || (n <=? k) then Exc Error
  else match nth_error l (Z.to_nat k) with
       | Some x => Ok x
       | None => Exc Error
       end.

(** [range(lo, hi)] *)
Definition py_range (lo hi : Z) : list Z :=
  map (fun i => lo + Z.of_nat i) (seq 0 (Z.to_nat (hi - lo))).

(** [sub in s] *)
Fixpoint contains (sub s : string) : bool :=
  startswith sub s ||
  match s with
  | String _ s' => contains sub s'
  | EmptyString => false
  end.

(** [s.split(sep)[0]]: the text before the first [sep], all of [s] without. *)
Fixpoint before_first (sep s : string) : string :=
  if startswith sep s then EmptyString
  else match s with
       | String c s' => String c (before_first sep s')
       | EmptyString => EmptyString
       end.

(** The text after the first [sep], when there is one. *)
Fixpoint after_first (sep s : string) : option string :=
  match strip_prefix sep s with
  | Some rest => Some rest
  | None =>
      match s with
      | String _ s' => after_first sep s'
      | EmptyString => None
      end
  end.

(** String methods and library functions used as given. *)
Class PyStr : Type := {
  py_strip : string -> string;     (* [str.strip()] *)
  py_lower : string -> string;     (* [str.lower()] *)
  unquote : string -> string       (* [urllib.parse.unquote] *)
}.

(** The parsed command line. *)
Record Args : Type := {
  file : string;
  sheet : string;
  object_api_name : string;
  object_id : option string;
  start_at_label : option string;
  instance : string;
  limit : option Z;
  context : string
}.

(** ** The filter/dedup stage of [parse_field_dependencies_page] *)

(** A reference is the tuple [(ref_type, ref_name, link)]. *)
Definition Ref : Type := string * string * string.

Definition ref_type (r : Ref) : string := fst (fst r).
Definition ref_name (r : Ref) : string := snd (fst r).
Definition ref_link (r : Ref) : string := snd r.

(** [last_flow] is a Python dict: it keeps its keys in insertion order, and
    assigning to a key that is present replaces the value in place. *)
Definition dict : Type := list (string * Ref).

Fixpoint dict_set (k : string) (v : Ref) (d : dict) : dict :=
  match d with
  | [] => [(k, v)]
  | (k', v') :: d' =>
      if String.eqb k' k then (k', v) :: d' else (k', v') :: dict_set k v d'
  end.

Definition dict_values (d : dict) : list Ref := map snd d.

(** The [for ref_type, ref_name, link in all_refs] loop, with the two
    accumulators [filtered_refs] and [last_flow]. *)
Fixpoint filter_loop (all_refs filtered_refs : list Ref) (last_flow : dict)
  : list Ref * dict :=
  match all_refs with
  | [] => (filtered_refs, last_flow)
  | (ref_type, ref_name, link) :: rest =>
      if String.eqb ref_type "ReportType" then
        filter_loop rest filtered_refs last_flow
      else if String.eqb ref_type "Flow" then
        filter_loop rest filtered_refs
          (dict_set ref_name (ref_type, ref_name, link) last_flow)
      else
        filter_loop rest (filtered_refs ++ [(ref_type, ref_name, link)]) last_flow
  end.

(** [filtered_refs.extend(last_flow.values())] *)
Definition filter_dedup (all_refs : list Ref) : list Ref :=
  let '(filtered_refs, last_flow) := filter_loop all_refs [] [] in
  filtered_refs ++ dict_values last_flow.

(** *** Vocabulary of the specification *)

Definition is_excluded (r : Ref) : bool := String.eqb (ref_type r) "ReportType".
Definition is_flow (r : Ref) : bool := String.eqb (ref_type r) "Flow".

(** References of every other category, in input order. *)
Definition passthrough (l : list Ref) : list Ref :=
  List.filter (fun r => negb (is_excluded r) && negb (is_flow r)) l.

(** The Flow-typed references, in input order. *)
Definition flows (l : list Ref) : list Ref := List.filter is_flow l.

(** [r] is the last Flow-typed reference of [l] with its name. *)
Definition last_flow_occurrence (r : Ref) (l : list Ref) : Prop :=
  is_flow r = true /\
  exists l1 l2, l = l1 ++ r :: l2 /\
    forall r', In r' l2 -> is_flow r' = true -> ref_name r' <> ref_name r.

(** The distinct elements of a list of names, in order of first occurrence. *)
Fixpoint first_occurrences (l : list string) : list string :=
  match l with
  | [] => []
  | x :: t => x :: List.filter (fun y => negb (String.eqb y x)) (first_occurrences t)
  end.

(** The dictionary obtained by storing a sequence of flows, in order. *)
Definition store_flows (fl : list Ref) (d : dict) : dict :=
  fold_left (fun d r => dict_set (ref_name r) r d) fl d.

Definition dict_keys (d : dict) : list string := map fst d.

(** ** Regular expressions

    The script uses three patterns, all of the shape
    [literal ( group ) literal] where the group is built from literals and one
    greedy, bounded repetition of a character class.  [re.search] is run by a
    backtracking matcher that lists the ways to match in the order the
    engine tries them; the first one wins. *)

Inductive atom : Type :=
| Lit (s : string)                                   (* literal text *)
| Rep (cls : ascii -> bool) (lo : nat) (hi : option nat).
                                   (* [cls]{lo,hi}, greedy; [None]: no bound *)

Record pattern : Type := {
  before : list atom;     (* what precedes group 1 *)
  group : list atom;      (* group 1 *)
  after : list atom       (* what follows group 1 *)
}.

(** Number of leading characters of [s] that belong to [cls]. *)
Fixpoint class_run (cls : ascii -> bool) (s : string) : nat :=
  match s with
  | String c s' => if cls c then S (class_run cls s') else O
  | EmptyString => O
  end.

(** [(s[:k], s[k:])] *)
Fixpoint split_at (k : nat) (s : string) : string * string :=
  match k, s with
  | S k', String c s' => let '(a, b) := split_at k' s' in (String c a, b)
  | _, _ => (EmptyString, s)
  end.

(** [n, n-1, ..., lo]: the repetition counts a greedy quantifier tries. *)
Fixpoint counts_down (lo n : nat) : list nat :=
  if (n <? lo)%nat then []
  else match n with
       | O => [O]
       | S n' => n :: counts_down lo n'
       end.

(** The ways for one atom to match a prefix of [s]: (matched text, rest). *)
Definition atom_matches (a : atom) (s : string) : list (string * string) :=
  match a with
  | Lit p =>
      match strip_prefix p s with
      | Some rest => [(p, rest)]
      | None => []
      end
  | Rep cls lo hi =>
      let run := class_run cls s in
      let n := match hi with Some h => Nat.min run h | None => run end in
      map (fun k => split_at k s) (counts_down lo n)
  end.

Fixpoint atoms_matches (l : list atom) (s : string) : list (string * string) :=
  match l with
  | [] => [(EmptyString, s)]
  | a :: l' =>
      flat_map (fun '(c1, r1) =>
                  map (fun '(c2, r2) => (c1 +:+ c2, r2)) (atoms_matches l' r1))
               (atom_matches a s)
  end.

(** All the matches of the pattern anchored at the start of [s], as the text
    of group 1, in the order of preference. *)
Definition match_candidates (p : pattern) (s : string) : list string :=
  flat_map (fun '(_, r1) =>
    flat_map (fun '(g, r2) => map (fun _ => g) (atoms_matches (after p) r2))
             (atoms_matches (group p) r1))
    (atoms_matches (before p) s).

Definition match_here (p : pattern) (s : string) : option string :=
  head (match_candidates p s).

(** [re.search(p, s)], returning [match.group(1)]: the leftmost match. *)
Fixpoint re_search (p : pattern) (s : string) : option string :=
  match match_here p s with
  | Some g => Some g
  | None =>
      match s with
      | String _ s' => re_search p s'
      | EmptyString => None
      end
  end.

(** [[a-zA-Z0-9]] *)
Definition is_alnum (c : ascii) : bool :=
  let n := N_of_ascii c in
  ((48 <=? n) && (n <=? 57) || (65 <=? n) && (n <=? 90)
   || (97 <=? n) && (n <=? 122))%N.

(** [r'/ObjectManager/([a-zA-Z0-9]{15,18})/'] *)
Definition object_id_pattern : pattern :=
  {| before := [Lit "/ObjectManager/"];
     group := [Rep is_alnum 15 (Some 18%nat)];
     after := [Lit "/"] |}.

(** [r'/(00N[a-zA-Z0-9]{12,15})'] *)
Definition field_id_pattern : pattern :=
  {| before := [Lit "/"];
     group := [Lit "00N"; Rep is_alnum 12 (Some 15%nat)];
     after := [] |}.

(** [[^']] *)
Definition not_quote (c : ascii) : bool := negb (Ascii.eqb c "'").

(** [r"javascript:srcUp\('([^']+)'\)"] *)
Definition srcUp_pattern : pattern :=
  {| before := [Lit "javascript:srcUp('"];
     group := [Rep not_quote 1 None];
     after := [Lit "')"] |}.

(** ** Identifier extractors *)

(** [extract_object_id_from_url]: [None] is Python's [None]. *)
Definition extract_object_id_from_url (url : string) : option string :=
  match re_search object_id_pattern url with
  | Some object_id => Some object_id
  | None => None
  end.

(** *** Vocabulary of the specification *)

Fixpoint all_chars (cls : ascii -> bool) (s : string) : Prop :=
  match s with
  | EmptyString => True
  | String c s' => cls c = true /\ all_chars cls s'
  end.

(** A 15 to 18 character alphanumeric segment. *)
Definition id_segment (seg : string) : Prop :=
  all_chars is_alnum seg /\ (15 <= String.length seg <= 18)%nat.

(** [url] has the segment [seg] inside an object-manager path, right after
    the prefix [pre]: [url = pre /ObjectManager/ seg / ...]. *)
Definition object_segment_at (url pre seg : string) : Prop :=
  id_segment seg /\
  exists post, url = pre +:+ "/ObjectManager/" +:+ seg +:+ "/" +:+ post.

Definition has_object_segment (url seg : string) : Prop :=
  exists pre, object_segment_at url pre seg.

(** What a sequence of atoms denotes: the texts it can match. *)
Definition within (hi : option nat) (k : nat) : Prop :=
  match hi with
  | Some h => (k <= h)%nat
  | None => True
  end.

Definition atom_denote (a : atom) (c : string) : Prop :=
  match a with
  | Lit p => c = p
  | Rep cls lo hi =>
      all_chars cls c /\ (lo <= String.length c)%nat /\ within hi (String.length c)
  end.

Fixpoint atoms_denote (l : list atom) (c : string) : Prop :=
  match l with
  | [] => c = EmptyString
  | a :: l' => exists c1 c2, c = c1 +:+ c2 /\ atom_denote a c1 /\ atoms_denote l' c2
  end.

(** ** The page as the script sees it

    The browser is a provider: what it shows is data of the model, and every
    query may raise. *)

(** An [<a>] element: [get_attribute("href")] gives [None] without the
    attribute. *)
Record Anchor : Type := {
  href : result (option string)
}.

(** A [.dataCell] element. *)
Record DataCell : Type := {
  inner_text : result string;
  anchors : result (list Anchor)             (* [locator("a").all()] *)
}.

(** A [tr.dataRow] element. *)
Record DataRow : Type := {
  dataCells : result (list DataCell)         (* [locator(".dataCell").all()] *)
}.

Section Script.

Context {pystr : PyStr} (args : Args).

(** [f"https://{args.instance}{path}"] *)
Definition instance_url (path : string) : string :=
  "https://" +:+ instance args +:+ path.

(** ** Reference link resolver *)

(** The [for link in links] loop of [extract_reference_link]; an exception
    while a link is handled moves on to the next link. *)
Fixpoint link_loop (links : list Anchor) : string :=
  match links with
  | [] => EmptyString
  | link :: rest =>
      match href link with
      | Exc _ => link_loop rest
      | Ok None => link_loop rest
      | Ok (Some raw_href) =>
          if negb (str_truthy raw_href) then link_loop rest
          else
            let href := unquote raw_href in
            if startswith "javascript:srcUp(" href then
              match re_search srcUp_pattern href with
              | Some partial_url =>
                  let decoded_url := unquote partial_url in
                  if startswith "/" decoded_url then instance_url decoded_url
                  else link_loop rest
              | None => link_loop rest
              end
            else if startswith "/" href then instance_url href
            else if startswith "http" href then href
            else link_loop rest
      end
  end.

(** [extract_reference_link(row, cell_index)]; the outer [except] turns any
    exception into the empty string. *)
Definition extract_reference_link (row : DataRow) (cell_index : Z) : string :=
  match dataCells row with
  | Exc _ => EmptyString
  | Ok cells =>
      if Z.of_nat (length cells) <=? cell_index then EmptyString
      else
        match py_index cells cell_index with
        | Exc _ => EmptyString
        | Ok target_cell =>
            match anchors target_cell with
            | Exc _ => EmptyString
            | Ok links =>
                match links with
                | [] => EmptyString
                | _ => link_loop links
                end
            end
        end
  end.

(** *** Vocabulary of the specification *)

(** What a decoded href resolves to: a pseudo-navigation expression wrapping
    an encoded root-relative path, a root-relative path, or an absolute
    URL. *)
Inductive resolves_to : string -> string -> Prop :=
| resolves_pseudo (h p : string) :
    startswith "javascript:srcUp(" h = true ->
    re_search srcUp_pattern h = Some p ->
    startswith "/" (unquote p) = true ->
    resolves_to h (instance_url (unquote p))
| resolves_root (h : string) :
    startswith "/" h = true ->
    resolves_to h (instance_url h)
| resolves_absolute (h : string) :
    startswith "http" h = true ->
    resolves_to h h.

(** The anchor has an href and, decoded, the href is [h]. *)
Definition decoded_href (a : Anchor) (h : string) : Prop :=
  exists raw, href a = Ok (Some raw) /\ raw <> EmptyString /\ h = unquote raw.

(** The anchor yields a usable href. *)
Definition usable (a : Anchor) : Prop :=
  exists h url, decoded_href a h /\ resolves_to h url.

(** The anchors of the cell that [cells[cell_index]] denotes; none when the
    row has no such cell or the page cannot be read. *)
Definition cell_anchors (row : DataRow) (cell_index : Z) : list Anchor :=
  match dataCells row with
  | Ok cells =>
      if Z.of_nat (length cells) <=? cell_index then []
      else match py_index cells cell_index with
           | Ok cell => match anchors cell with Ok links => links | Exc _ => [] end
           | Exc _ => []
           end
  | Exc _ => []
  end.

(** [h] is the decoded href of the first anchor of the cell that yields a
    usable href. *)
Definition first_usable_href (row : DataRow) (cell_index : Z) (h : string) : Prop :=
  exists skipped a rest,
    cell_anchors row cell_index = skipped ++ a :: rest /\
    (forall b, In b skipped -> ~ usable b) /\
    decoded_href a h /\ (exists url, resolves_to h url).

(** ** Field identifier *)

(** [extract_field_id_from_url]; nothing in its [try] block raises. *)
Definition extract_field_id_from_url (url : string) : option string :=
  match re_search field_id_pattern url with
  | Some field_id => Some field_id
  | None =>
      match after_first "address=" url with
      | Some rest =>
          let address_param := before_first "&" (before_first "address=" rest) in
          let decoded_address := unquote address_param in
          re_search field_id_pattern decoded_address
      | None => None
      end
  end.

End Script.

(** ** The worksheet

    An openpyxl worksheet is a dictionary from (row, column) to cells.
    Reading a cell that does not exist gives an empty cell (openpyxl also
    stores that empty cell; a stored empty cell reads like a missing one, and
    [max_row] is only read before the script touches a row beyond it).
    Writing to a cell and inserting rows are taken to succeed. *)

Record cell : Type := {
  value : pyval;
  hyperlink : option string
}.

Definition empty_cell : cell := {| value := VNone; hyperlink := None |}.

Abbreviation worksheet := (gmap (Z * Z) cell).

(** [ws.cell(row=row, column=column)], read. *)
Definition ws_cell (ws : worksheet) (row column : Z) : cell :=
  default empty_cell (ws !! (row, column)).

(** [ws.max_row]: the largest row that has a cell, 1 on an empty sheet. *)
Definition max_row (ws : worksheet) : Z :=
  map_fold (fun k _ m => Z.max k.1 m) 1 ws.

(** [ws.cell(row=row, column=column, value=v)] *)
Definition set_value (ws : worksheet) (row column : Z) (v : pyval) : worksheet :=
  <[(row, column) := {| value := v; hyperlink := hyperlink (ws_cell ws row column) |}]> ws.

(** [ws.cell(row, column).hyperlink = url]: openpyxl also uses the target as
    the value of a cell that has none. *)
Definition set_hyperlink (ws : worksheet) (row column : Z) (url : string) : worksheet :=
  let old := ws_cell ws row column in
  let v := match value old with
           | VNone => if str_truthy url then VStr url else VNone
           | v => v
           end in
  <[(row, column) := {| value := v; hyperlink := Some url |}]> ws.

Definition shift_row (idx amount : Z) (k : Z * Z) : Z * Z :=
  if idx <=? k.1 then (k.1 + amount, k.2) else k.

(** [ws.insert_rows(idx, amount)]: every cell in a row from [idx] on moves
    down by [amount] rows. *)
Definition insert_rows (ws : worksheet) (idx amount : Z) : worksheet :=
  kmap (M2 := gmap (Z * Z)) (shift_row idx amount) ws.

(** ** What a run leaves behind *)

Inductive Event : Type :=
| EvSearch (term : pyval)            (* the quick find box was given [term] *)
| EvClick (text : string)            (* a link with this inner text was clicked *)
| EvInsertRows (idx amount : Z)      (* [ws.insert_rows(idx, amount)] *)
| EvClose                            (* [browser.close()] *)
| EvSave.                            (* [wb.save(save_path)] *)

(** The state a run threads: the worksheet, the counter [rows_inserted] of
    [main] and the events so far. *)
Record RunState : Type := {
  ws : worksheet;
  rows_inserted : Z;
  events : list Event
}.

Definition log (e : Event) (st : RunState) : RunState :=
  {| ws := ws st; rows_inserted := rows_inserted st; events := events st ++ [e] |}.

Definition with_ws (f : worksheet -> worksheet) (st : RunState) : RunState :=
  {| ws := f (ws st); rows_inserted := rows_inserted st; events := events st |}.

Definition add_rows (n : Z) (st : RunState) : RunState :=
  {| ws := ws st; rows_inserted := rows_inserted st + n; events := events st |}.

(** ** Merge writer: lines 530 to 548 of [main] *)

(** [for j, (ref_type, ref_name, link) in enumerate(refs)], from [j] on. *)
Fixpoint write_refs (current_row j : Z) (refs : list Ref) (w : worksheet) : worksheet :=
  match refs with
  | [] => w
  | (ref_type, ref_name, link) :: rest =>
      let insert_row_index := current_row + 1 + j in
      let w := set_value w insert_row_index 9 (VStr ref_type) in
      let w := set_value w insert_row_index 10 (VStr ref_name) in
      let w := if str_truthy link then set_hyperlink w insert_row_index 10 link else w in
      write_refs current_row (j + 1) rest w
  end.

Definition no_references_found : string := "No references found".

Definition merge_writer (current_row : Z) (field_url : string) (refs : list Ref)
    (st : RunState) : RunState :=
  let st := with_ws (fun w => set_hyperlink w current_row 1 field_url) st in
  match refs with
  | _ :: _ =>
      let n := Z.of_nat (length refs) in
      let st := log (EvInsertRows (current_row + 1) n)
                    (with_ws (fun w => insert_rows w (current_row + 1) n) st) in
      let st := with_ws (write_refs current_row 0 refs) st in
      add_rows n st
  | [] =>
      let st := log (EvInsertRows (current_row + 1) 1)
                    (with_ws (fun w => insert_rows w (current_row + 1) 1) st) in
      let st := with_ws (fun w => set_value w (current_row + 1) 9
                                    (VStr no_references_found)) st in
      add_rows 1 st
  end.

(** Rows inserted according to the events of a run. *)
Fixpoint inserted_total (evs : list Event) : Z :=
  match evs with
  | [] => 0
  | EvInsertRows _ amount :: evs' => amount + inserted_total evs'
  | _ :: evs' => inserted_total evs'
  end.

(** ** Effects: state and exceptions

    A computation reads and updates the run state and returns or raises; the
    state survives a raised exception, as attributes of Python objects do. *)

Definition M (A : Type) : Type := RunState -> result A * RunState.

Definition ret {A : Type} (a : A) : M A := fun st => (Ok a, st).

Definition bind {A B : Type} (m : M A) (k : A -> M B) : M B :=
  fun st =>
    match m st with
    | (Ok a, st') => k a st'
    | (Exc e, st') => (Exc e, st')
    end.

Definition raise {A : Type} (e : exn) : M A := fun st => (Exc e, st).

(** A query to a provider, which answers or raises. *)
Definition lift {A : Type} (r : result A) : M A := fun st => (r, st).

(** [try: m except Exception as e: handler e] *)
Definition try_except {A : Type} (m : M A) (handler : exn -> M A) : M A :=
  fun st =>
    match m st with
    | (Ok a, st') => (Ok a, st')
    | (Exc e, st') => handler e st'
    end.

Definition emit (e : Event) : M unit := fun st => (Ok tt, log e st).
Definition modify (f : RunState -> RunState) : M unit := fun st => (Ok tt, f st).
Definition get_state : M RunState := fun st => (Ok st, st).

Notation "x <- m ;; k" := (bind m (fun x => k))
  (at level 20, m at level 99, k at level 200, only parsing).
Notation "' pat <- m ;; k" := (bind m (fun x => match x with pat => k end))
  (at level 20, pat pattern, m at level 99, k at level 200, only parsing).
Notation "m ;; k" := (bind m (fun _ => k))
  (at level 100, k at level 200, only parsing, right associativity).

(** ** The browser during one work item *)

(** The four entries of [field_link_selectors], in the order of the list. *)
Inductive Selector : Type :=
| SelHasText          (* [a:has-text('<label>')] *)
| SelThTextMatches    (* [th a:text-matches('^<label>$', 'i')] *)
| SelTdTextMatches    (* [td a:text-matches('^<label>$', 'i')] *)
| SelTitle.           (* [a[title='<label>']] *)

Definition field_link_selectors : list Selector :=
  [SelHasText; SelThTextMatches; SelTdTextMatches; SelTitle].

Definition quick_find_selectors : list string :=
  ["input[placeholder='Quick Find']"; "input[placeholder*='Quick Find']";
   "input[aria-label*='Quick Find']"; ".slds-input[placeholder*='Quick Find']"]%string.

(** A link of the filtered table. *)
Record Link : Type := {
  link_inner_text : result string;   (* [link.inner_text()] *)
  link_click : result string         (* [link.click()] and the waits that
                                        follow: the [page.url] reached *)
}.

(** The list page after one search. *)
Record SearchView : Type := {
  search_events : result unit;                 (* click, fill, type, press *)
  locate : Selector -> result (list Link)      (* [wait_for] and [all()] *)
}.

(** An [iframe] of the dependencies page. *)
Record Iframe : Type := {
  body_text : result string;                   (* [locator("body").inner_text()] *)
  data_row_wait : result unit;                 (* [tr.dataRow ... wait_for()] *)
  table_visible : result bool;                 (* [table.list ... is_visible()] *)
  data_rows : result (list DataRow)            (* [locator("tr.dataRow").all()] *)
}.

(** The dependencies page. *)
Record DepsPage : Type := {
  page_url : string;                           (* [page.url] *)
  settle : result unit;                        (* [wait_for_timeout(4000)] *)
  iframe_wait : result unit;                   (* [wait_for_selector("iframe")] *)
  iframes : result (list Iframe)               (* [count()] and the frames *)
}.

(** What the browser answers while one work item is processed. *)
Record FieldScript : Type := {
  quick_find_visible : string -> result bool;  (* [is_visible()] of a quick find selector *)
  label_view : SearchView;                     (* the list after the label search *)
  api_name_view : SearchView;                  (* the list after the API name search *)
  dependencies_goto : string -> result bool;   (* [goto(url)]; then: is
                                                  'Insufficient Privileges' visible? *)
  dependencies_page : DepsPage;
  back_goto : result unit;                     (* back to the list, lines 526 and 551 *)
  recover_goto : result unit                   (* back to the list, line 559 *)
}.

(** A work item: an entry of [fields_to_process]. *)
Record WorkItem : Type := {
  api_name : pyval;
  label : pyval;
  original_row : Z
}.

Section Navigation.

Context {pystr : PyStr} (args : Args).

(** ** Navigation controller *)

(** [trigger_search_with_proper_events]: [False] when an event raised. *)
Definition trigger_search_with_proper_events (view : SearchView) (search_term : pyval)
  : M bool :=
  emit (EvSearch search_term) ;;
  try_except (lift (search_events view) ;; ret true) (fun _ => ret false).

(** The [for i, link in enumerate(links)] loop of [click_field_from_table].
    [Some r]: the function returned [r]; [None]: the loop ran out. *)
Fixpoint links_loop (field_label : string) (links : list Link)
  : M (option (option string)) :=
  match links with
  | [] => ret None
  | link :: rest =>
      r <- try_except
             (text <- lift (link_inner_text link) ;;
              let link_text := py_strip text in
              if String.eqb (py_lower link_text) (py_lower field_label) then
                (emit (EvClick text) ;;
                 current_url <- lift (link_click link) ;;
                 match extract_field_id_from_url current_url with
                 | Some field_id => ret (Some (Some field_id))
                 | None => ret (Some None)
                 end)
              else ret None)
             (fun _ => ret None) ;;
      match r with
      | Some returned => ret (Some returned)
      | None => links_loop field_label rest
      end
  end.

(** The [for selector in field_link_selectors] loop. *)
Fixpoint selector_loop (view : SearchView) (field_label : string)
    (selectors : list Selector) : M (option string) :=
  match selectors with
  | [] => ret None
  | selector :: rest =>
      r <- try_except
             (links <- lift (locate view selector) ;;
              links_loop field_label links)
             (fun _ => ret None) ;;
      match r with
      | Some returned => ret returned
      | None => selector_loop view field_label rest
      end
  end.

(** [click_field_from_table]: the selectors are built from the label, and
    [re.escape] raises on a label that is not a string. *)
Definition click_field_from_table (view : SearchView) (field_label field_api_name : pyval)
  : M (option string) :=
  match field_label with
  | VStr s => selector_loop view s field_link_selectors
  | _ => raise Error
  end.

(** The first quick find selector whose box is visible. *)
Fixpoint find_search_box (script : FieldScript) (selectors : list string)
  : option string :=
  match selectors with
  | [] => None
  | selector :: rest =>
      match quick_find_visible script selector with
      | Ok true => Some selector
      | _ => find_search_box script rest
      end
  end.

(** [use_fields_page_quick_find] *)
Definition use_fields_page_quick_find (script : FieldScript)
    (field_label field_api_name : pyval) : M (option string) :=
  match find_search_box script quick_find_selectors with
  | None => ret None
  | Some search_box =>
      try_except
        (by_label <-
           (ok <- trigger_search_with_proper_events (label_view script) field_label ;;
            if ok then click_field_from_table (label_view script) field_label field_api_name
            else ret None) ;;
         match by_label with
         | Some field_id => ret (Some field_id)
         | None =>
             ok <- trigger_search_with_proper_events (api_name_view script) field_api_name ;;
             if ok then
               click_field_from_table (api_name_view script) field_label field_api_name
             else ret None
         end)
        (fun _ => ret None)
  end.

(** [navigate_to_field_dependencies_page] *)
Definition navigate_to_field_dependencies_page (script : FieldScript)
    (object_id field_id : string) : M bool :=
  let dependencies_url :=
    instance_url args ("/lightning/setup/ObjectManager/" +:+ object_id
                       +:+ "/FieldsAndRelationships/" +:+ field_id
                       +:+ "/fieldDependencies") in
  try_except
    (insufficient <- lift (dependencies_goto script dependencies_url) ;;
     ret (negb insufficient))
    (fun _ => ret false).

(** [find_field_and_get_dependencies] *)
Definition find_field_and_get_dependencies (script : FieldScript)
    (field_label field_api_name : pyval) (object_id : string) : M bool :=
  field_id <- use_fields_page_quick_find script field_label field_api_name ;;
  match field_id with
  | Some field_id => navigate_to_field_dependencies_page script object_id field_id
  | None => ret false
  end.

(** ** Dependency table parser *)

(** The [for i in range(iframe_count)] loop of [find_dependencies_iframe]. *)
Fixpoint iframe_loop (frames : list Iframe) : option Iframe :=
  match frames with
  | [] => None
  | frame :: rest =>
      match body_text frame with
      | Ok frame_text =>
          if contains "Reference Type" frame_text || contains "Layout" frame_text
             || contains "Component Type" frame_text
          then match data_row_wait frame with
               | Ok _ => Some frame
               | Exc _ => iframe_loop rest
               end
          else iframe_loop rest
      | Exc _ => iframe_loop rest
      end
  end.

(** [find_dependencies_iframe]: only a timeout is caught by the outer [try]. *)
Definition find_dependencies_iframe (page : DepsPage) : M (option Iframe) :=
  try_except
    (lift (iframe_wait page) ;;
     frames <- lift (iframes page) ;;
     ret (iframe_loop frames))
    (fun e => match e with
              | PWTimeout => ret None
              | Error => raise Error
              end).

(** One pass of the [for i, row in enumerate(data_rows, 1)] loop: the
    reference the row adds to [all_refs], if any. *)
Definition parse_row (row : DataRow) : option Ref :=
  match dataCells row with
  | Ok (cell0 :: cell1 :: _) =>
      match inner_text cell0, inner_text cell1 with
      | Ok text0, Ok text1 =>
          let ref_type := py_strip text0 in
          let ref_name := py_strip text1 in
          if str_truthy ref_type && str_truthy ref_name then
            Some (ref_type, ref_name, extract_reference_link args row 1)
          else None
      | _, _ => None
      end
  | _ => None
  end.

(** [parse_field_dependencies_page] *)
Definition parse_field_dependencies_page (page : DepsPage) : M (string * list Ref) :=
  let field_url := page_url page in
  lift (settle page) ;;
  target_frame <- find_dependencies_iframe page ;;
  match target_frame with
  | None => ret (field_url, [])
  | Some frame =>
      let all_refs :=
        match table_visible frame with
        | Ok true =>
            match data_rows frame with
            | Ok rows => omap parse_row rows
            | Exc _ => []
            end
        | _ => []
        end in
      ret (field_url, filter_dedup all_refs)
  end.

End Navigation.

(** ** Run orchestrator: [main] *)

(** Everything outside the script that a run depends on. *)
Record World : Type := {
  file_exists : bool;                 (* [Path(args.file).is_file()] *)
  workbook : result worksheet;        (* [load_workbook(args.file)[args.sheet]] *)
  launch : result unit;               (* [launch_persistent_context], first page *)
  login : result string;              (* opening the instance, the session or
                                         the login, the first navigation: the
                                         [page.url] reached *)
  field_script : nat -> FieldScript   (* the browser during the i-th work item *)
}.

(** How [main] ends. *)
Inductive Exit : Type :=
| ExitFileNotFound        (* line 428, [sys.exit(1)] *)
| ExitExcelError          (* line 435 *)
| ExitUncaught            (* an exception leaves [main]: line 444 on a label
                             cell that is not text *)
| ExitStartLabelNotFound  (* line 450 *)
| ExitNothingToProcess    (* line 468 *)
| ExitNoObjectId          (* line 509 *)
| ExitEnd.                (* the end of [main], after the save attempt *)

Section Main.

Context {pystr : PyStr} (args : Args).

(** The search for [args.start_at_label], lines 442 to 450.  [Ok None]: the
    loop ran out ([for ... else]). *)
Fixpoint find_start_label (sheet : worksheet) (target : string) (rows : list Z)
  : result (option Z) :=
  match rows with
  | [] => Ok None
  | r_idx :: rest =>
      let label := value (ws_cell sheet r_idx 1) in
      if truthy label then
        match label with
        | VStr s =>
            if String.eqb (py_strip s) (py_strip target) then Ok (Some r_idx)
            else find_start_label sheet target rest
        | _ => Exc Error
        end
      else find_start_label sheet target rest
  end.

(** Lines 438 to 450. *)
Definition find_start_row (sheet : worksheet) : result (option Z) :=
  match start_at_label args with
  | Some target =>
      if str_truthy target then
        find_start_label sheet target (py_range 2 (max_row sheet + 1))
      else Ok (Some 2)
  | None => Ok (Some 2)
  end.

(** One pass of the pre-scan loop, lines 455 to 464. *)
Definition scan_row (sheet : worksheet) (row_idx : Z) : option WorkItem :=
  let api_name_cell := ws_cell sheet row_idx 2 in
  let label_cell := ws_cell sheet row_idx 1 in
  if truthy (value api_name_cell) && truthy (value label_cell)
     && negb (truthy (value (ws_cell sheet (row_idx + 1) 9)))
  then Some {| api_name := value api_name_cell; label := value label_cell;
               original_row := row_idx |}
  else None.

(** Lines 452 to 464: [fields_to_process]. *)
Definition prescan (sheet : worksheet) (start_row : Z) : list WorkItem :=
  let limit := match limit args with
               | Some n => n
               | None => max_row sheet - start_row + 1
               end in
  let end_row := start_row + limit in
  omap (scan_row sheet) (py_range start_row (Z.min end_row (max_row sheet + 1))).

(** The body of the [for i, field in enumerate(fields_to_process, 1)] loop,
    lines 514 to 564.  [false]: the loop is left by [break]. *)
Definition process_field (script : FieldScript) (object_id : string) (field : WorkItem)
  : M bool :=
  st <- get_state ;;
  let current_row := original_row field + rows_inserted st in
  let field_label := label field in
  let field_api_name := api_name field in
  try_except
    (found <- find_field_and_get_dependencies args script field_label field_api_name
                object_id ;;
     if found then
       ('(field_url, refs) <- parse_field_dependencies_page args (dependencies_page script) ;;
        lift (back_goto script) ;;
        modify (merge_writer current_row field_url refs) ;;
        ret true)
     else
       (lift (back_goto script) ;;
        ret true))
    (fun _ =>
       try_except (lift (recover_goto script) ;; ret true) (fun _ => ret false)).

Fixpoint field_loop (w : World) (object_id : string) (i : nat) (fields : list WorkItem)
  : M unit :=
  match fields with
  | [] => ret tt
  | field :: rest =>
      continue <- process_field (field_script w i) object_id field ;;
      if continue then field_loop w object_id (S i) rest else ret tt
  end.

(** Lines 574 to 579: the save attempt, at the end of [main]; a failing
    save is caught and reported. *)
Definition save_workbook (st : RunState) : Exit * RunState :=
  (ExitEnd, log EvSave st).

(** [main].  Closing the browser and leaving the Playwright context are
    taken to succeed. *)
Definition main (w : World) : Exit * RunState :=
  let st0 := {| ws := ∅; rows_inserted := 0; events := [] |} in
  if negb (file_exists w) then (ExitFileNotFound, st0)
  else
    match workbook w with
    | Exc _ => (ExitExcelError, st0)
    | Ok sheet =>
        let st := {| ws := sheet; rows_inserted := 0; events := [] |} in
        match find_start_row sheet with
        | Exc _ => (ExitUncaught, st)
        | Ok None => (ExitStartLabelNotFound, st)
        | Ok (Some start_row) =>
            let fields_to_process := prescan sheet start_row in
            match fields_to_process with
            | [] => (ExitNothingToProcess, st)
            | _ :: _ =>
                match launch w with
                | Exc _ => save_workbook st          (* no browser to close *)
                | Ok _ =>
                    match login w with
                    | Exc _ => save_workbook (log EvClose st)
                    | Ok canonical_url =>
                        let object_id :=
                          match object_id args with
                          | Some given =>
                              if str_truthy given then Some given
                              else extract_object_id_from_url canonical_url
                          | None => extract_object_id_from_url canonical_url
                          end in
                        match object_id with
                        | Some object_id =>
                            if str_truthy object_id then
                              let '(_, st) :=
                                field_loop w object_id 1 fields_to_process st in
                              save_workbook (log EvClose st)
                            else (ExitNoObjectId, log EvClose st)
                        | None => (ExitNoObjectId, log EvClose st)
                        end
                    end
                end
            end
        end
    end.

(** The states after each work item of the loop, in order: [field_loop]
    with its intermediate states kept. *)
Fixpoint states_after (w : World) (object_id : string) (i : nat)
    (fields : list WorkItem) (st : RunState) : list RunState :=
  match fields with
  | [] => []
  | field :: rest =>
      match process_field (field_script w i) object_id field st with
      | (Ok true, st') => st' :: states_after w object_id (S i) rest st'
      | (_, st') => [st']
      end
  end.

End Main.

(** ** Vocabulary of the specification for a run *)

Definition add_events (st : RunState) (evs : list Event) : RunState :=
  {| ws := ws st; rows_inserted := rows_inserted st; events := events st ++ evs |}.

(** [m] leaves the sheet and the counter alone and adds only events that
    satisfy [P]. *)
Definition only_emits {A : Type} (P : Event -> Prop) (m : M A) : Prop :=
  forall st, exists evs, snd (m st) = add_events st evs /\ Forall P evs.

(** References as the parser hands them to the writer: type and name are not
    empty. *)
Definition well_formed_refs (refs : list Ref) : Prop :=
  Forall (fun r => ref_type r <> EmptyString /\ ref_name r <> EmptyString) refs.



(** Outcome (c): the field was skipped. *)
Definition skipped (st st' : RunState) : Prop :=
  ws st' = ws st /\
  rows_inserted st' = rows_inserted st /\
  inserted_total (events st') = inserted_total (events st).



(** The marker cell of a field row: column 9 of the following row. *)
Definition marker (sheet : worksheet) (row : Z) : pyval :=
  value (ws_cell sheet (row + 1) 9).

(** The marker cell is empty: no value, or the empty text. *)
Definition marker_empty (sheet : worksheet) (row : Z) : Prop :=
  marker sheet row = VNone \/ marker sheet row = VStr EmptyString.

(** A click on a link whose text, stripped, equals [term] up to case. *)
Definition matches_term {pystr : PyStr} (term : pyval) (text : string) : Prop :=
  exists s, term = VStr s /\ py_lower (py_strip text) = py_lower s.

Definition click_matching {pystr : PyStr} (term : pyval) (e : Event) : Prop :=
  exists text, e = EvClick text /\ matches_term term text.

(** In [evs], a click that follows the search for [term], with no other
    search in between: a click of the attempt that searched [term]. *)
Definition click_of_attempt (evs : list Event) (term : pyval) (text : string) : Prop :=
  exists pre mid post,
    evs = pre ++ EvSearch term :: mid ++ EvClick text :: post /\
    forall t, ~ In (EvSearch t) mid.

Definition saved (evs : list Event) : Prop := In EvSave evs.

(** The run came to the point where field processing starts: the document
    was loaded, there is work, the session is up and the object identifier
    [oid] was resolved. *)
Definition ready {pystr : PyStr} (args : Args) (w : World) (sheet : worksheet)
    (oid : string) : Prop :=
  file_exists w = true /\
  workbook w = Ok sheet /\
  (exists start_row, find_start_row args sheet = Ok (Some start_row) /\
                     prescan args sheet start_row <> []) /\
  launch w = Ok tt /\
  (exists canonical_url,
     login w = Ok canonical_url /\
     oid <> EmptyString /\
     ((object_id args = Some oid) \/
      ((object_id args = None \/ object_id args = Some EmptyString) /\
       extract_object_id_from_url canonical_url = Some oid))).

(** The conditions under which [main] returns before field processing
    starts, each as a condition on the command line and the world. *)

(** The file is not there (line 426). *)
Definition missing_file (w : World) : Prop :=
  file_exists w = false.

(** The workbook or the sheet cannot be read (line 433). *)
Definition unreadable_sheet (w : World) : Prop :=
  file_exists w = true /\ exists e, workbook w = Exc e.

(** The start label is on no row (line 448). *)
Definition start_label_not_found {pystr : PyStr} (args : Args) (w : World) : Prop :=
  file_exists w = true /\
  exists sheet, workbook w = Ok sheet /\ find_start_row args sheet = Ok None.

(** The work list is empty (line 466). *)
Definition nothing_to_process {pystr : PyStr} (args : Args) (w : World) : Prop :=
  file_exists w = true /\
  exists sheet start_row,
    workbook w = Ok sheet /\
    find_start_row args sheet = Ok (Some start_row) /\
    prescan args sheet start_row = [].

(** The session is up, no object identifier is given on the command line and
    the URL of the list page has none (line 507). *)
Definition object_id_unresolved {pystr : PyStr} (args : Args) (w : World) : Prop :=
  file_exists w = true /\
  exists sheet start_row canonical_url,
    workbook w = Ok sheet /\
    find_start_row args sheet = Ok (Some start_row) /\
    prescan args sheet start_row <> [] /\
    launch w = Ok tt /\
    login w = Ok canonical_url /\
    (object_id args = None \/ object_id args = Some EmptyString) /\
    extract_object_id_from_url canonical_url = None.

(** One of the five. *)
Definition stopped_before_fields {pystr : PyStr} (args : Args) (w : World) : Prop :=
  missing_file w \/ unreadable_sheet w \/ start_label_not_found args w \/
  nothing_to_process args w \/ object_id_unresolved args w.

(** The search for the start label, lines 440 to 450, runs to its end on the
    sheet of [w]. *)
Definition label_search_completes {pystr : PyStr} (args : Args) (w : World) : Prop :=
  forall sheet, workbook w = Ok sheet ->
    exists start, find_start_row args sheet = Ok start.

(** ** Concrete strings for the examples: ASCII text *)

Definition is_space (c : ascii) : bool :=
  let n := N_of_ascii c in
  ((9 <=? n) && (n <=? 13) || (28 <=? n) && (n <=? 32))%N.

Fixpoint lstrip (s : string) : string :=
  match s with
  | String c s' => if is_space c then lstrip s' else s
  | EmptyString => EmptyString
  end.

Fixpoint rstrip (s : string) : string :=
  match s with
  | String c s' =>
      match rstrip s' with
      | EmptyString => if is_space c then EmptyString else String c EmptyString
      | r => String c r
      end
  | EmptyString => EmptyString
  end.

Definition lower_char (c : ascii) : ascii :=
  let n := N_of_ascii c in
  if ((65 <=? n) && (n <=? 90))%N then ascii_of_N (n + 32) else c.

Fixpoint ascii_lower (s : string) : string :=
  match s with
  | String c s' => String (lower_char c) (ascii_lower s')
  | EmptyString => EmptyString
  end.

Definition hex_digit (c : ascii) : option N :=
  let n := N_of_ascii c in
  if ((48 <=? n) && (n <=? 57))%N then Some (n - 48)%N
  else if ((65 <=? n) && (n <=? 70))%N then Some (n - 55)%N
  else if ((97 <=? n) && (n <=? 102))%N then Some (n - 87)%N
  else None.

Fixpoint percent_decode (s : string) : string :=
  match s with
  | String c s1 =>
      let keep := String c (percent_decode s1) in
      if Ascii.eqb c "%" then
        match s1 with
        | String a (String b s3) =>
            match hex_digit a, hex_digit b with
            | Some x, Some y => String (ascii_of_N (16 * x + y)) (percent_decode s3)
            | _, _ => keep
            end
        | _ => keep
        end
      else keep
  | EmptyString => EmptyString
  end.

Definition ascii_pystr : PyStr :=
  {| py_strip := fun s => rstrip (lstrip s);
     py_lower := ascii_lower;
     unquote := percent_decode |}.

(** Events of the navigation: searches and clicks. *)
Definition is_nav (e : Event) : Prop :=
  match e with
  | EvSearch _ | EvClick _ => True
  | _ => False
  end.

(** *** Example inputs *)

Definition no_args : Args :=
  {| file := "fields.xlsx"; sheet := "Fields"; object_api_name := "Account";
     object_id := Some "01I5e000000abcd"%string; start_at_label := None;
     instance := "x.my.salesforce.com"; limit := None; context := "sf_ctx" |}.

Definition state0 (sheet : worksheet) : RunState :=
  {| ws := sheet; rows_inserted := 0; events := [] |}.

Definition text_cell (s : string) : cell := {| value := VStr s; hyperlink := None |}.

Definition empty_deps_page : DepsPage :=
  {| page_url := "https://x.my.salesforce.com/deps"; settle := Ok tt;
     iframe_wait := Exc PWTimeout; iframes := Ok [] |}.

(** The label search shows no link; the API name search shows the field,
    whose link carries the label. *)
Definition retry_script : FieldScript :=
  {| quick_find_visible := fun _ => Ok true;
     label_view := {| search_events := Ok tt; locate := fun _ => Exc PWTimeout |};
     api_name_view :=
       {| search_events := Ok tt;
          locate := fun _ =>
            Ok [{| link_inner_text := Ok "My Field"%string;
                   link_click :=
                     Ok "https://x/lightning/setup/ObjectManager/Account/FieldsAndRelationships/00N5e00000abcde/view"%string |}] |};
     dependencies_goto := fun _ => Ok false;
     dependencies_page := empty_deps_page;
     back_goto := Ok tt;
     recover_goto := Ok tt |}.

(** One field row whose marker cell holds the number 0. *)
Definition sheet_zero_marker : worksheet :=
  <[(3, 9) := {| value := VNum 0; hyperlink := None |}]>
    (<[(2, 2) := text_cell "My_Field__c"]>
       (<[(2, 1) := text_cell "My Field"]>
          (<[(1, 1) := text_cell "Label"]> ∅))).

(** One field row that a previous run has marked. *)
Definition sheet_all_done : worksheet :=
  <[(3, 9) := text_cell no_references_found]>
    (<[(2, 2) := text_cell "My_Field__c"]>
       (<[(2, 1) := text_cell "My Field"]>
          (<[(1, 1) := text_cell "Label"]> ∅))).

(** One field row, not processed yet. *)
Definition sheet_one_field : worksheet :=
  <[(2, 2) := text_cell "My_Field__c"]>
    (<[(2, 1) := text_cell "My Field"]>
       (<[(1, 1) := text_cell "Label"]> ∅)).

Definition world_of (sheet : worksheet) (script : FieldScript) : World :=
  {| file_exists := true; workbook := Ok sheet; launch := Ok tt;
     login := Ok "https://x.my.salesforce.com/lightning/setup/ObjectManager/Account/FieldsAndRelationships/view"%string;
     field_script := fun _ => script |}.

Definition scenario_A : list Ref :=
  [("Layout", "Page Layout 1", ""); ("Flow", "Flow X", "url1");
   ("Flow", "Flow X", "url2")]%string.

(** A row whose second cell links through a pseudo-navigation expression. *)
Definition row_with_srcUp : DataRow :=
  {| dataCells :=
       Ok [{| inner_text := Ok "Layout"%string; anchors := Ok [] |};
           {| inner_text := Ok "Page Layout 1"%string;
              anchors :=
                Ok [{| href := Ok (Some "javascript:srcUp(%27%2F00h5e000000abcd%3Fisdtp%3Dp1%27);"%string) |}] |}] |}.

(** ** Further vocabulary *)

(** A field identifier as [field_id_pattern] captures it: [00N] and 12 to 15
    alphanumeric characters. *)
Definition field_id_shape (id : string) : Prop :=
  exists body, id = "00N" +:+ body /\ all_chars is_alnum body /\
               (12 <= String.length body <= 15)%nat.

(** [s.replace(c, by)] for a one-character [c]. *)
Fixpoint replace_char (c : ascii) (by_ : string) (s : string) : string :=
  match s with
  | EmptyString => EmptyString
  | String x s' =>
      if Ascii.eqb x c then by_ +:+ replace_char c by_ s'
      else String x (replace_char c by_ s')
  end.

(** Line 207: [field_label.replace("\\", "\\\\").replace("'", "\\'")]. *)
Definition escaped_for_css_string (field_label : string) : string :=
  replace_char "'" "\'" (replace_char "\" "\\" field_label).

(** Lines 217 and 220: the two selectors that embed the escaped label. *)
Definition has_text_selector (field_label : string) : string :=
  "a:has-text('" +:+ escaped_for_css_string field_label +:+ "')".

Definition title_selector (field_label : string) : string :=
  "a[title='" +:+ escaped_for_css_string field_label +:+ "']".

(** Reading a single-quoted literal from behind its opening quote: a
    backslash makes the next character literal, a bare quote ends the
    literal.  The result is the text denoted and what follows the closing
    quote; [None] when the literal is not closed. *)
Fixpoint read_quoted (s : string) : option (string * string) :=
  match s with
  | EmptyString => None
  | String c s' =>
      if Ascii.eqb c "'" then Some (EmptyString, s')
      else if Ascii.eqb c "\" then
        match s' with
        | String d s'' =>
            match read_quoted s'' with
            | Some (t, rest) => Some (String d t, rest)
            | None => None
            end
        | EmptyString => None
        end
      else
        match read_quoted s' with
        | Some (t, rest) => Some (String c t, rest)
        | None => None
        end
  end.

(** [f"https://{args.instance}/lightning/setup/ObjectManager/{object_id}/FieldsAndRelationships/{field_id}/fieldDependencies"] *)
Definition dependencies_url_of (args : Args) (object_id field_id : string) : string :=
  instance_url args ("/lightning/setup/ObjectManager/" +:+ object_id
                     +:+ "/FieldsAndRelationships/" +:+ field_id
                     +:+ "/fieldDependencies").

(** The link matches the label and its click goes through to [url]. *)
Definition clickable {pystr : PyStr} (field_label : string) (link : Link) (url : string)
  : Prop :=
  exists text, link_inner_text link = Ok text /\
               py_lower (py_strip text) = py_lower field_label /\
               link_click link = Ok url.

(** The loop passes the link by: its text cannot be read or does not match,
    or its click raises. *)
Definition passed_by {pystr : PyStr} (field_label : string) (link : Link) : Prop :=
  forall url, ~ clickable field_label link url.

(** A selector that gives no clickable link. *)
Definition selector_fails {pystr : PyStr} (view : SearchView) (field_label : string)
    (selector : Selector) : Prop :=
  match locate view selector with
  | Ok links => forall link, In link links -> passed_by field_label link
  | Exc _ => True
  end.

(** The text of a frame shows one of the known headers. *)
Definition has_marker (frame_text : string) : bool :=
  contains "Reference Type" frame_text || contains "Layout" frame_text
  || contains "Component Type" frame_text.

(** A frame [find_dependencies_iframe] accepts. *)
Definition frame_qualifies (frame : Iframe) : Prop :=
  exists frame_text, body_text frame = Ok frame_text /\
                     has_marker frame_text = true /\
                     exists u, data_row_wait frame = Ok u.

(** Events of the work on fields. *)
Definition is_work (e : Event) : Prop :=
  match e with
  | EvSearch _ | EvClick _ | EvInsertRows _ _ => True
  | _ => False
  end.

(** Work items in strictly increasing row order. *)
Definition increasing_rows (fields : list WorkItem) : Prop :=
  StronglySorted Z.lt (map original_row fields).

(** A label cell that does not stop the search for the start label at a row:
    it is falsy, or a text other than the target once both are stripped. *)
Definition not_start_label {pystr : PyStr} (sheet : worksheet) (target : string) (row : Z)
  : Prop :=
  let v := value (ws_cell sheet row 1) in
  truthy v = false \/ exists s, v = VStr s /\ py_strip s <> py_strip target.

(** The number of rows one call of the merge writer inserts. *)
Definition rows_for (refs : list Ref) : Z :=
  match refs with
  | [] => 1
  | _ => Z.of_nat (length refs)
  end.

(** The page shows no quick find box. *)
Definition no_box_script : FieldScript :=
  {| quick_find_visible := fun _ => Ok false;
     label_view := label_view retry_script;
     api_name_view := api_name_view retry_script;
     dependencies_goto := dependencies_goto retry_script;
     dependencies_page := dependencies_page retry_script;
     back_goto := Ok tt;
     recover_goto := Ok tt |}.

(** A dependencies page with one frame that lists three references. *)
Definition text_row (ref_type ref_name link : string) : DataRow :=
  {| dataCells :=
       Ok [{| inner_text := Ok ref_type; anchors := Ok [] |};
           {| inner_text := Ok ref_name;
              anchors := Ok [{| href := Ok (Some link) |}] |}] |}.

Definition listing_frame : Iframe :=
  {| body_text := Ok "Reference Type  Reference Label"%string;
     data_row_wait := Ok tt;
     table_visible := Ok true;
     data_rows := Ok [text_row "Layout" " Page Layout 1 " "/00h5e000000abcd";
                      text_row "ReportType" "RT1" "/070";
                      text_row "Flow" "Flow X" "https://x/flow"] |}.

Definition listing_page : DepsPage :=
  {| page_url := "https://x.my.salesforce.com/deps"; settle := Ok tt;
     iframe_wait := Ok tt;
     iframes := Ok [{| body_text := Ok "menu"%string; data_row_wait := Ok tt;
                       table_visible := Ok false; data_rows := Ok [] |};
                    listing_frame] |}.

(** The command line with [--limit 1] and [--start-at-label "My Field"]. *)
Definition limit_args : Args :=
  {| file := "fields.xlsx"; sheet := "Fields"; object_api_name := "Account";
     object_id := None; start_at_label := Some "My Field"%string;
     instance := "x.my.salesforce.com"; limit := Some 1; context := "sf_ctx" |}.

(** Two field rows, not processed yet. *)
Definition sheet_two_fields : worksheet :=
  <[(3, 2) := text_cell "Other__c"]>
    (<[(3, 1) := text_cell "Other Field"]> sheet_one_field).

(** The browser cannot be launched. *)
Definition world_without_browser (sheet : worksheet) : World :=
  {| file_exists := true; workbook := Ok sheet; launch := Exc Error;
     login := Exc Error; field_script := fun _ => retry_script |}.

(* ================================================================== *)
(** * Proofs *)
(* ================================================================== *)

(** ** Filter/dedup *)

Lemma Ref_eta (r : Ref) : r = (ref_type r, ref_name r, ref_link r).
Proof. destruct r as [[t n] k]; reflexivity. Qed.

Lemma filter_loop_spec (l acc : list Ref) (d : dict) :
  filter_loop l acc d = (acc ++ passthrough l, store_flows (flows l) d).
Proof.
  revert acc d; induction l as [|[[t n] k] l IH]; intros acc d; simpl.
  - now rewrite app_nil_r.
  - unfold passthrough, flows, is_excluded, is_flow, ref_type; simpl.
    destruct (String.eqb t "ReportType") eqn:Ert; simpl.
    + apply String.eqb_eq in Ert; subst t; simpl. apply IH.
    + destruct (String.eqb t "Flow") eqn:Efl; simpl.
      * apply IH.
      * rewrite IH. unfold passthrough, is_excluded, is_flow, ref_type.
        now rewrite <- app_assoc.
Qed.

Lemma filter_dedup_spec (l : list Ref) :
  filter_dedup l = passthrough l ++ dict_values (store_flows (flows l) []).
Proof. unfold filter_dedup. now rewrite filter_loop_spec. Qed.

Lemma dict_keys_set (k : string) (v : Ref) (d : dict) :
  dict_keys (dict_set k v d) =
  if existsb (String.eqb k) (dict_keys d) then dict_keys d else dict_keys d ++ [k].
Proof.
  induction d as [|[k' v'] d IH]; simpl; [reflexivity|].
  rewrite (String.eqb_sym k k').
  destruct (String.eqb k' k) eqn:E; simpl; [reflexivity|].
  unfold dict_keys in *. rewrite IH.
  now destruct (existsb (String.eqb k) (map fst d)).
Qed.

Lemma existsb_eqb_In (k : string) (l : list string) :
  existsb (String.eqb k) l = true <-> In k l.
Proof.
  rewrite existsb_exists; split.
  - intros [x [Hx E]]. apply String.eqb_eq in E. now subst.
  - intros H. exists k. split; [assumption | apply String.eqb_refl].
Qed.

Lemma filter_filter_comm {A} (p q : A -> bool) (l : list A) :
  List.filter p (List.filter q l) = List.filter (fun x => q x && p x) l.
Proof.
  induction l as [|x l IH]; simpl; [reflexivity|].
  destruct (q x); simpl; [destruct (p x); simpl; now rewrite IH | apply IH].
Qed.

(** Keys are created in order of first occurrence. *)
Lemma store_flows_keys (fl : list Ref) (d : dict) :
  dict_keys (store_flows fl d) =
  dict_keys d ++
  List.filter (fun n => negb (existsb (String.eqb n) (dict_keys d)))
    (first_occurrences (map ref_name fl)).
Proof.
  revert d; induction fl as [|r fl IH]; intros d; simpl.
  - now rewrite app_nil_r.
  - unfold store_flows in *; simpl. rewrite IH, dict_keys_set.
    set (D := first_occurrences (map ref_name fl)).
    destruct (existsb (String.eqb (ref_name r)) (dict_keys d)) eqn:E; simpl.
    + f_equal. rewrite filter_filter_comm. apply filter_ext_in. intros n _.
      destruct (String.eqb n (ref_name r)) eqn:En; simpl; [|reflexivity].
      apply String.eqb_eq in En; subst n. now rewrite E.
    + rewrite <- app_assoc; simpl. do 2 f_equal.
      rewrite filter_filter_comm. apply filter_ext_in. intros n _.
      rewrite existsb_app; simpl. rewrite orb_false_r, negb_orb.
      apply andb_comm.
Qed.

Lemma dict_set_fresh (k : string) (v : Ref) (d : dict) :
  ~ In k (dict_keys d) -> dict_set k v d = d ++ [(k, v)].
Proof.
  induction d as [|[k' v'] d IH]; simpl; intros H; [reflexivity|].
  destruct (String.eqb k' k) eqn:E.
  - apply String.eqb_eq in E. exfalso; apply H; now left.
  - rewrite IH; [reflexivity | intros Hin; apply H; now right].
Qed.

Lemma dict_set_In (k : string) (v : Ref) (d : dict) (k' : string) (v' : Ref) :
  List.NoDup (dict_keys d) ->
  In (k', v') (dict_set k v d) ->
  (k' = k /\ v' = v) \/ (k' <> k /\ In (k', v') d).
Proof.
  induction d as [|[k0 v0] d IH]; simpl; intros Hnd Hin.
  - destruct Hin as [Hin|[]]. left. now inversion Hin.
  - inversion Hnd as [|? ? Hnotin Hnd']; subst.
    destruct (String.eqb k0 k) eqn:E.
    + apply String.eqb_eq in E; subst k0.
      destruct Hin as [Hin|Hin]; [left; now inversion Hin|].
      right. split; [|now right].
      intros ->. apply Hnotin. unfold dict_keys.
      change k with (fst (k, v')). now apply in_map.
    + apply String.eqb_neq in E.
      destruct Hin as [Hin|Hin].
      * inversion Hin; subst. right. split; [assumption | now left].
      * destruct (IH Hnd' Hin) as [Hl|[Hne Hr]]; [now left|].
        right. split; [assumption | now right].
Qed.

Lemma dict_set_NoDup (k : string) (v : Ref) (d : dict) :
  List.NoDup (dict_keys d) -> List.NoDup (dict_keys (dict_set k v d)).
Proof.
  intros Hnd. rewrite dict_keys_set.
  destruct (existsb (String.eqb k) (dict_keys d)) eqn:E; [assumption|].
  apply List.NoDup_app; [assumption | repeat constructor; intros [] |].
  intros x Hx [<-|[]]. apply existsb_eqb_In in Hx. congruence.
Qed.

Lemma store_flows_NoDup (fl : list Ref) (d : dict) :
  List.NoDup (dict_keys d) -> List.NoDup (dict_keys (store_flows fl d)).
Proof.
  revert d; induction fl as [|r fl IH]; intros d Hnd; simpl; [assumption|].
  apply IH. now apply dict_set_NoDup.
Qed.

(** Each entry of the dictionary is the last stored flow of its name, or an
    entry that was there before and was never overwritten. *)
Lemma store_flows_entries (fl : list Ref) (d : dict) (k : string) (v : Ref) :
  List.NoDup (dict_keys d) ->
  In (k, v) (store_flows fl d) ->
  (exists l1 l2, fl = l1 ++ v :: l2 /\ ref_name v = k /\
                 forall r', In r' l2 -> ref_name r' <> k)
  \/ (In (k, v) d /\ forall r', In r' fl -> ref_name r' <> k).
Proof.
  revert d; induction fl as [|r fl IH]; intros d Hnd Hin; simpl in *.
  - right. split; [assumption | intros r' []].
  - destruct (IH _ (dict_set_NoDup _ _ _ Hnd) Hin)
      as [(l1 & l2 & -> & Hn & Hlast) | [Hin' Hnone]].
    + left. exists (r :: l1), l2. now repeat split.
    + destruct (dict_set_In _ _ _ _ _ Hnd Hin') as [[-> ->] | [Hne Hd]].
      * left. exists [], fl. now repeat split.
      * right. split; [assumption|].
        intros r' [<-|Hr']; [congruence | now apply Hnone].
Qed.

Lemma store_flows_fresh (fl : list Ref) (d : dict) :
  List.NoDup (dict_keys d ++ map ref_name fl) ->
  store_flows fl d = d ++ map (fun r => (ref_name r, r)) fl.
Proof.
  revert d; induction fl as [|r fl IH]; intros d Hnd; simpl.
  - now rewrite app_nil_r.
  - assert (Hfresh : ~ In (ref_name r) (dict_keys d)).
    { intros Hin. apply List.NoDup_remove_2 in Hnd.
      apply Hnd, in_or_app. now left. }
    unfold store_flows in *; simpl.
    rewrite dict_set_fresh by assumption.
    rewrite IH.
    + now rewrite <- app_assoc.
    + unfold dict_keys in *. rewrite map_app; simpl. now rewrite <- app_assoc.
Qed.

Lemma filter_split {A} (p : A -> bool) (l a b : list A) (x : A) :
  List.filter p l = a ++ x :: b ->
  exists a' b', l = a' ++ x :: b' /\ List.filter p a' = a /\ List.filter p b' = b.
Proof.
  revert a; induction l as [|y l IH]; intros a H; simpl in H.
  - now destruct a.
  - destruct (p y) eqn:E.
    + destruct a as [|a0 a]; simpl in H; inversion H; subst.
      * exists [], l. simpl. auto.
      * destruct (IH _ H2) as (a' & b' & -> & Ha & Hb).
        exists (a0 :: a'), b'. simpl. rewrite E, Ha. auto.
    + destruct (IH _ H) as (a' & b' & -> & Ha & Hb).
      exists (y :: a'), b'. simpl. rewrite E. auto.
Qed.

Lemma first_occurrences_In (x : string) (l : list string) :
  In x (first_occurrences l) <-> In x l.
Proof.
  induction l as [|y l IH]; simpl; [tauto|].
  rewrite filter_In, IH. split.
  - intros [H|[H _]]; auto.
  - intros [H|H]; [now left|].
    destruct (String.eqb x y) eqn:E.
    + apply String.eqb_eq in E. now left.
    + right. now split.
Qed.

Lemma first_occurrences_NoDup (l : list string) : List.NoDup (first_occurrences l).
Proof.
  induction l as [|y l IH]; simpl; constructor.
  - rewrite filter_In. intros [_ H]. now rewrite String.eqb_refl in H.
  - now apply List.NoDup_filter.
Qed.

Lemma store_flows_names (fl : list Ref) :
  map ref_name (dict_values (store_flows fl [])) = first_occurrences (map ref_name fl).
Proof.
  transitivity (dict_keys (store_flows fl [])).
  - unfold dict_values, dict_keys. rewrite map_map. apply map_ext_in.
    intros [k v] Hin; simpl.
    destruct (store_flows_entries fl [] k v (List.NoDup_nil _) Hin)
      as [(_ & _ & _ & Hn & _) | [[] _]].
    exact Hn.
  - rewrite store_flows_keys; simpl.
    induction (first_occurrences (map ref_name fl)); simpl; congruence.
Qed.

Lemma flows_are_flows (l : list Ref) (r : Ref) : In r (flows l) -> is_flow r = true.
Proof. unfold flows. rewrite filter_In. tauto. Qed.

Lemma stored_flow_is_last (l : list Ref) (r : Ref) :
  In r (dict_values (store_flows (flows l) [])) -> last_flow_occurrence r l.
Proof.
  unfold dict_values. rewrite in_map_iff. intros [[k v] [<- Hin]]; simpl.
  destruct (store_flows_entries _ [] k v (List.NoDup_nil _) Hin)
    as [(l1 & l2 & Hsplit & Hn & Hlast) | [[] _]].
  assert (Hfl : is_flow v = true).
  { apply (flows_are_flows l). rewrite Hsplit. apply in_or_app. right. now left. }
  split; [assumption|].
  destruct (filter_split _ _ _ _ _ Hsplit) as (a & b & -> & _ & Hb).
  exists a, b. split; [reflexivity|].
  intros r' Hr' Hf. rewrite Hn. apply Hlast.
  rewrite <- Hb. apply filter_In. now split.
Qed.

(** C2: the output is the pass-through references in input order, followed by
    exactly one reference per distinct Flow name, each the last Flow-typed
    occurrence of its name; no ReportType reference survives. *)
Theorem filter_dedup_contract (l : list Ref) :
  exists F : list Ref,
    filter_dedup l = passthrough l ++ F /\
    List.NoDup (map ref_name F) /\
    (forall r, In r F -> last_flow_occurrence r l) /\
    (forall r, In r l -> is_flow r = true -> In (ref_name r) (map ref_name F)) /\
    (forall r, In r (filter_dedup l) -> ref_type r <> "ReportType"%string).
Proof.
  exists (dict_values (store_flows (flows l) [])).
  split; [apply filter_dedup_spec|].
  split; [rewrite store_flows_names; apply first_occurrences_NoDup|].
  split; [apply stored_flow_is_last|].
  split.
  - intros r Hin Hf. rewrite store_flows_names, first_occurrences_In.
    apply in_map. unfold flows. apply filter_In. now split.
  - intros r. rewrite filter_dedup_spec, in_app_iff. intros [Hin|Hin].
    + unfold passthrough in Hin. apply filter_In in Hin as [_ Hp].
      apply andb_prop in Hp as [Hp _]. unfold is_excluded in Hp.
      apply negb_true_iff, String.eqb_neq in Hp. exact Hp.
    + apply stored_flow_is_last in Hin as [Hf _]. unfold is_flow in Hf.
      apply String.eqb_eq in Hf. rewrite Hf. discriminate.
Qed.

(** End-to-end scenario A of the specification. *)
Example filter_dedup_scenario_A :
  filter_dedup [("Layout", "Page Layout 1", ""); ("Flow", "Flow X", "url1");
                ("Flow", "Flow X", "url2")]%string
  = [("Layout", "Page Layout 1", ""); ("Flow", "Flow X", "url2")]%string.
Proof. reflexivity. Qed.

(** End-to-end scenario B: only an excluded reference, no survivor. *)
Example filter_dedup_scenario_B :
  filter_dedup [("ReportType", "RT1", "")]%string = [].
Proof. reflexivity. Qed.

Lemma passthrough_idem (l : list Ref) : passthrough (passthrough l) = passthrough l.
Proof.
  unfold passthrough. rewrite filter_filter_comm. apply filter_ext.
  intros r. now destruct (negb (is_excluded r) && negb (is_flow r)).
Qed.

Lemma flows_passthrough (l : list Ref) : flows (passthrough l) = [].
Proof.
  unfold flows, passthrough. rewrite filter_filter_comm.
  induction l as [|r l IH]; simpl; [reflexivity|].
  now destruct (is_excluded r), (is_flow r).
Qed.

Lemma all_flows (F : list Ref) :
  (forall r, In r F -> is_flow r = true) -> flows F = F /\ passthrough F = [].
Proof.
  induction F as [|r F IH]; intros H; simpl; [auto|].
  unfold flows, passthrough in *; simpl.
  rewrite (H r) by now left. rewrite andb_false_r.
  destruct IH as [-> ->]; [intros; apply H; now right | auto].
Qed.

(** C9: running the stage on its own output changes nothing. *)
Theorem filter_dedup_idempotent (l : list Ref) :
  filter_dedup (filter_dedup l) = filter_dedup l.
Proof.
  rewrite (filter_dedup_spec l).
  set (F := dict_values (store_flows (flows l) [])).
  assert (HF : forall r, In r F -> is_flow r = true).
  { intros r Hr. now apply stored_flow_is_last in Hr as [? _]. }
  destruct (all_flows F HF) as [HfF HpF].
  rewrite filter_dedup_spec.
  unfold passthrough at 1, flows at 1. rewrite !List.filter_app.
  fold (passthrough (passthrough l)) (passthrough F) (flows (passthrough l)) (flows F).
  rewrite passthrough_idem, HpF, flows_passthrough, HfF, app_nil_r; simpl.
  f_equal. rewrite store_flows_fresh.
  - unfold dict_values; simpl. rewrite map_map; simpl. apply map_id.
  - simpl. unfold F. rewrite store_flows_names. apply first_occurrences_NoDup.
Qed.

(** C10: the surviving flows come in order of the first occurrence of their
    names, each carrying the data of the last occurrence of its name. *)
Theorem filter_dedup_flow_order (l : list Ref) :
  exists F : list Ref,
    filter_dedup l = passthrough l ++ F /\
    map ref_name F = first_occurrences (map ref_name (flows l)) /\
    (forall r, In r F -> last_flow_occurrence r l).
Proof.
  exists (dict_values (store_flows (flows l) [])).
  split; [apply filter_dedup_spec|].
  split; [apply store_flows_names | apply stored_flow_is_last].
Qed.

(** First names first, last data kept: "B" was seen after "A", and "A" keeps
    the link of its second occurrence. *)
Example filter_dedup_order_example :
  filter_dedup [("Flow", "A", "1"); ("Flow", "B", "2"); ("Flow", "A", "3")]%string
  = [("Flow", "A", "3"); ("Flow", "B", "2")]%string.
Proof. reflexivity. Qed.

(** ** Strings *)

#[local] Arguments append : simpl nomatch.

Lemma sapp_assoc (a b c : string) : (a +:+ b) +:+ c = a +:+ (b +:+ c).
Proof. induction a as [|x a IH]; simpl; [reflexivity | now rewrite IH]. Qed.

Lemma sapp_nil_r (a : string) : a +:+ "" = a.
Proof. induction a as [|x a IH]; simpl; [reflexivity | now rewrite IH]. Qed.

Lemma slength_app (a b : string) :
  String.length (a +:+ b) = (String.length a + String.length b)%nat.
Proof. induction a as [|x a IH]; simpl; [reflexivity | now rewrite IH]. Qed.

Lemma strip_prefix_Some (p s r : string) :
  strip_prefix p s = Some r <-> s = p +:+ r.
Proof.
  revert s; induction p as [|a p IH]; intros s; simpl.
  - split; congruence.
  - destruct s as [|b s]; [split; discriminate|].
    destruct (Ascii.eqb_spec a b) as [->|Hne].
    + rewrite IH. split; congruence.
    + split; [discriminate | congruence].
Qed.

Lemma strip_prefix_app (p r : string) : strip_prefix p (p +:+ r) = Some r.
Proof. now apply strip_prefix_Some. Qed.

Lemma startswith_strip (p s : string) :
  startswith p s = true <-> exists r, s = p +:+ r.
Proof.
  revert s; induction p as [|a p IH]; intros s; simpl.
  - split; eauto.
  - destruct s as [|b s]; [split; [discriminate | intros [r Hr]; discriminate]|].
    rewrite andb_true_iff, IH, Ascii.eqb_eq. split.
    + intros [-> [r ->]]. now exists r.
    + intros [r Hr]. inversion Hr. eauto.
Qed.

(** ** The matcher agrees with what the atoms denote *)

Lemma counts_down_In (lo n k : nat) :
  In k (counts_down lo n) <-> (lo <= k <= n)%nat.
Proof.
  induction n as [|n IH]; simpl.
  - destruct lo; simpl; [|split; [tauto | lia]]. split; [intros [<-|[]]; lia | lia].
  - destruct (Nat.ltb_spec (S n) lo) as [Hlt|Hge]; simpl; [split; [tauto | lia]|].
    rewrite IH. lia.
Qed.

Lemma split_at_run (cls : ascii -> bool) (k : nat) (s : string) :
  (k <= class_run cls s)%nat ->
  exists a b, split_at k s = (a, b) /\ s = a +:+ b /\
              String.length a = k /\ all_chars cls a.
Proof.
  revert s; induction k as [|k IH]; intros s Hk.
  - exists EmptyString, s. destruct s; simpl; auto.
  - destruct s as [|c s]; simpl in Hk; [lia|].
    destruct (cls c) eqn:Ec; [|lia].
    destruct (IH s ltac:(lia)) as (a & b & Hs & -> & Hl & Ha).
    exists (String c a), b. simpl. rewrite Hs, Hl. auto.
Qed.

Lemma class_run_app (cls : ascii -> bool) (a r : string) :
  all_chars cls a -> (String.length a <= class_run cls (a +:+ r))%nat.
Proof.
  induction a as [|c a IH]; simpl; [lia|].
  intros [-> Ha]. specialize (IH Ha). lia.
Qed.

Lemma split_at_app (a r : string) : split_at (String.length a) (a +:+ r) = (a, r).
Proof.
  induction a as [|c a IH]; simpl; [now destruct r | now rewrite IH].
Qed.

Lemma atom_matches_In (a : atom) (s c r : string) :
  In (c, r) (atom_matches a s) <-> s = c +:+ r /\ atom_denote a c.
Proof.
  destruct a as [p | cls lo hi]; simpl.
  - destruct (strip_prefix p s) as [rest|] eqn:E; simpl.
    + apply strip_prefix_Some in E. subst s. split.
      * intros [H|[]]. inversion H; subst. auto.
      * intros [H ->]. left. f_equal. now apply String.app_inj in H.
    + split; [tauto|]. intros [-> ->]. now rewrite strip_prefix_app in E.
  - rewrite in_map_iff. split.
    + intros (k & Hk & Hin). apply counts_down_In in Hin as [Hlo Hhi].
      destruct (split_at_run cls k s) as (a & b & Hs & -> & Hl & Ha).
      { destruct hi; lia. }
      rewrite Hs in Hk. inversion Hk; subst c r. repeat split; auto; try lia.
      destruct hi; simpl; [lia | exact I].
    + intros (-> & Hc & Hlo & Hhi). exists (String.length c).
      split; [apply split_at_app|].
      apply counts_down_In. pose proof (class_run_app cls c r Hc).
      destruct hi; simpl in Hhi; lia.
Qed.

Lemma atoms_matches_In (l : list atom) (s c r : string) :
  In (c, r) (atoms_matches l s) <-> s = c +:+ r /\ atoms_denote l c.
Proof.
  revert s c; induction l as [|a l IH]; intros s c; simpl.
  - split.
    + intros [H|[]]. inversion H; subst. auto.
    + intros [-> ->]. now left.
  - rewrite in_flat_map. split.
    + intros ([c1 r1] & H1 & H2). apply in_map_iff in H2 as ([c2 r2] & Heq & H2).
      inversion Heq; subst c r2. apply atom_matches_In in H1 as [-> Ha].
      apply IH in H2 as [-> Hl]. split; [now rewrite sapp_assoc | eauto].
    + intros (-> & c1 & c2 & -> & Ha & Hl).
      exists (c1, c2 +:+ r). split.
      * apply atom_matches_In. split; [apply sapp_assoc | assumption].
      * apply in_map_iff. exists (c2, r). split; [reflexivity|]. now apply IH.
Qed.

Lemma match_candidates_In (p : pattern) (s g : string) :
  In g (match_candidates p s) <->
  exists c1 c3 r, s = c1 +:+ g +:+ c3 +:+ r /\
    atoms_denote (before p) c1 /\ atoms_denote (group p) g /\
    atoms_denote (after p) c3.
Proof.
  unfold match_candidates. rewrite in_flat_map. split.
  - intros ([c1 r1] & H1 & H2). apply in_flat_map in H2 as ([g' r2] & H2 & H3).
    apply in_map_iff in H3 as ([c3 r] & -> & H3).
    apply atoms_matches_In in H1 as [-> H1], H2 as [-> H2], H3 as [-> H3].
    exists c1, c3, r. auto.
  - intros (c1 & c3 & r & -> & H1 & H2 & H3).
    exists (c1, g +:+ c3 +:+ r). split; [now apply atoms_matches_In|].
    apply in_flat_map. exists (g, c3 +:+ r). split; [now apply atoms_matches_In|].
    apply in_map_iff. exists (c3, r). split; [reflexivity | now apply atoms_matches_In].
Qed.

Lemma head_unique {A} (l : list A) (g : A) :
  In g l -> (forall x, In x l -> x = g) -> head l = Some g.
Proof.
  destruct l as [|y l]; simpl; [tauto|].
  intros _ H. f_equal. apply H. now left.
Qed.

Lemma head_In {A} (l : list A) (g : A) : head l = Some g -> In g l.
Proof. destruct l; simpl; [discriminate | intros [= ->]; now left]. Qed.

Lemma head_None {A} (l : list A) : head l = None <-> forall x, ~ In x l.
Proof.
  destruct l as [|y l]; simpl; split; auto; try discriminate.
  intros H. exfalso. apply (H y). now left.
Qed.

(** [re.search] returns the match that starts leftmost. *)
Lemma re_search_Some (p : pattern) (s g : string) :
  re_search p s = Some g <->
  exists pre rest, s = pre +:+ rest /\ match_here p rest = Some g /\
    forall pre' rest', s = pre' +:+ rest' ->
      (String.length pre' < String.length pre)%nat -> match_here p rest' = None.
Proof.
  induction s as [|c s IH]; simpl.
  - destruct (match_here p "") as [g'|] eqn:E.
    + split.
      * intros [= ->]. exists EmptyString, EmptyString. repeat split; auto.
        simpl; intros; lia.
      * intros (pre & rest & Hs & Hm & _).
        destruct pre; [|discriminate]. simpl in Hs; subst rest. congruence.
    + split; [discriminate|]. intros (pre & rest & Hs & Hm & _).
      destruct pre; [|discriminate]. simpl in Hs; subst rest. congruence.
  - destruct (match_here p (String c s)) as [g'|] eqn:E.
    + split.
      * intros [= ->]. exists EmptyString, (String c s). repeat split; auto.
        simpl; intros; lia.
      * intros (pre & rest & Hs & Hm & Hmin).
        destruct pre as [|c' pre]; simpl in Hs.
        -- subst rest. congruence.
        -- rewrite (Hmin EmptyString (String c s)) in E; simpl; [discriminate | now inversion Hs | lia].
    + rewrite IH. split.
      * intros (pre & rest & -> & Hm & Hmin).
        exists (String c pre), rest. repeat split; auto.
        intros pre' rest' Hs Hl. destruct pre' as [|c' pre']; simpl in Hs.
        -- now subst rest'.
        -- apply (Hmin pre'); [now inversion Hs | simpl in Hl; lia].
      * intros (pre & rest & Hs & Hm & Hmin).
        destruct pre as [|c' pre]; simpl in Hs.
        -- subst rest. congruence.
        -- injection Hs as <- ->. exists pre, rest. repeat split; auto.
           intros pre' rest' Hs' Hl.
           apply (Hmin (String c pre')); [simpl; now rewrite Hs' | simpl; lia].
Qed.

Lemma re_search_None (p : pattern) (s : string) :
  re_search p s = None <->
  forall pre rest, s = pre +:+ rest -> match_here p rest = None.
Proof.
  induction s as [|c s IH]; simpl.
  - destruct (match_here p "") eqn:E.
    + split; [discriminate|]. intros H. now rewrite (H EmptyString EmptyString) in E.
    + split; [|reflexivity]. intros _ pre rest Hs.
      destruct pre; [|discriminate]. simpl in Hs. now subst.
  - destruct (match_here p (String c s)) eqn:E.
    + split; [discriminate|]. intros H. now rewrite (H EmptyString (String c s)) in E.
    + rewrite IH. split.
      * intros H pre rest Hs. destruct pre as [|c' pre]; simpl in Hs.
        -- now subst.
        -- inversion Hs; subst. now apply (H pre).
      * intros H pre rest ->. now apply (H (String c pre)).
Qed.

(** ** Identifier extractor *)

Lemma object_candidates (s g : string) :
  In g (match_candidates object_id_pattern s) <->
  id_segment g /\ exists post, s = "/ObjectManager/" +:+ g +:+ "/" +:+ post.
Proof.
  rewrite match_candidates_In. unfold id_segment; simpl. split.
  - intros (c1 & c3 & r & -> & (a1 & b1 & -> & -> & ->) &
            (a2 & b2 & -> & (Hc & Hlo & Hhi) & ->) & (a3 & b3 & -> & -> & ->)).
    rewrite !sapp_nil_r in *. split; [auto|]. now exists r.
  - intros ((Hc & Hlo & Hhi) & post & ->).
    exists "/ObjectManager/"%string, "/"%string, post. split; [reflexivity|].
    split; [now exists "/ObjectManager/"%string, ""%string|].
    split; [|now exists "/"%string, ""%string].
    exists g, ""%string. rewrite sapp_nil_r. auto.
Qed.

Lemma slash_not_alnum : is_alnum "/" = false.
Proof. reflexivity. Qed.

(** The segment that follows a given position is determined by the text:
    it runs up to the next slash. *)
Lemma segment_unique (g1 g2 p1 p2 : string) :
  all_chars is_alnum g1 -> all_chars is_alnum g2 ->
  g1 +:+ "/" +:+ p1 = g2 +:+ "/" +:+ p2 -> g1 = g2.
Proof.
  revert g2; induction g1 as [|c g1 IH]; intros [|c2 g2]; simpl; intros H1 H2 He.
  - reflexivity.
  - injection He as <- _. destruct H2 as [H2 _]. now rewrite slash_not_alnum in H2.
  - injection He as -> _. destruct H1 as [H1 _]. now rewrite slash_not_alnum in H1.
  - injection He as -> He. f_equal. apply IH; tauto.
Qed.

Lemma match_here_object (s g : string) :
  match_here object_id_pattern s = Some g <->
  id_segment g /\ exists post, s = "/ObjectManager/" +:+ g +:+ "/" +:+ post.
Proof.
  unfold match_here. split.
  - intros H. now apply object_candidates, head_In.
  - intros H. apply head_unique; [now apply object_candidates|].
    intros g' Hg'. apply object_candidates in Hg' as [[Hc' _] [post' ->]].
    destruct H as [[Hc _] [post He]].
    apply String.app_inj in He. symmetry. now apply (segment_unique _ _ post post').
Qed.

Lemma object_segment_at_match (url pre seg : string) :
  object_segment_at url pre seg <->
  exists rest, url = pre +:+ rest /\ match_here object_id_pattern rest = Some seg.
Proof.
  unfold object_segment_at. split.
  - intros [Hid [post ->]]. eexists. split; [reflexivity|].
    apply match_here_object. eauto.
  - intros (rest & -> & Hm). apply match_here_object in Hm as [Hid [post ->]]. eauto.
Qed.

(** C5: on a URL that has a 15 to 18 character alphanumeric segment in an
    object-manager path the extractor returns such a segment, exactly as it
    stands in the URL (the leftmost one; the given one when the URL has no
    other); on a URL without such a segment it returns [None].  The function
    is total: no input makes it fail. *)
Theorem extract_object_id_from_url_correct (url : string) :
  (forall seg, has_object_segment url seg ->
     exists pre' seg',
       extract_object_id_from_url url = Some seg' /\
       object_segment_at url pre' seg' /\
       (forall pre'' seg'', object_segment_at url pre'' seg'' ->
          (String.length pre' <= String.length pre'')%nat) /\
       ((forall s, has_object_segment url s -> s = seg) -> seg' = seg)) /\
  ((forall seg, ~ has_object_segment url seg) ->
     extract_object_id_from_url url = None).
Proof.
  assert (Hid : extract_object_id_from_url url = re_search object_id_pattern url).
  { unfold extract_object_id_from_url. now destruct (re_search _ _). }
  rewrite Hid. split.
  - intros seg [pre Hseg].
    destruct (re_search object_id_pattern url) as [seg'|] eqn:E.
    + apply re_search_Some in E as (pre' & rest & -> & Hm & Hmin).
      exists pre', seg'. split; [reflexivity|].
      assert (Hat : object_segment_at (pre' +:+ rest) pre' seg').
      { apply object_segment_at_match. eauto. }
      split; [assumption|]. split.
      * intros pre'' seg'' H''. apply object_segment_at_match in H'' as (rest'' & He & Hm'').
        destruct (Nat.le_gt_cases (String.length pre') (String.length pre''))
          as [Hle|Hlt]; [assumption|].
        rewrite (Hmin _ _ He Hlt) in Hm''. discriminate.
      * intros Huniq. apply Huniq. now exists pre'.
    + exfalso. apply object_segment_at_match in Hseg as (rest & -> & Hm).
      rewrite re_search_None in E. rewrite (E pre rest eq_refl) in Hm. discriminate.
  - intros Hnone. apply re_search_None. intros pre rest ->.
    destruct (match_here object_id_pattern rest) as [seg|] eqn:E; [|reflexivity].
    exfalso. apply (Hnone seg). exists pre. apply object_segment_at_match. eauto.
Qed.

Example extract_object_id_custom :
  extract_object_id_from_url
    "https://x.my.salesforce.com/lightning/setup/ObjectManager/01I5e000000abcd/FieldsAndRelationships/view"
  = Some "01I5e000000abcd"%string.
Proof. vm_compute. reflexivity. Qed.

(** An API name with an underscore is no identifier. *)
Example extract_object_id_api_name :
  extract_object_id_from_url
    "https://x.my.salesforce.com/lightning/setup/ObjectManager/My_Object__c/FieldsAndRelationships/view"
  = None.
Proof. vm_compute. reflexivity. Qed.

(** Nineteen alphanumeric characters are too many. *)
Example extract_object_id_too_long :
  extract_object_id_from_url "/ObjectManager/0123456789abcdefghi/" = None.
Proof. vm_compute. reflexivity. Qed.

Lemma extract_object_id_from_url_witness :
  exists pre' seg',
    extract_object_id_from_url "https://x/ObjectManager/01I5e000000abcd/view" = Some seg' /\
    object_segment_at "https://x/ObjectManager/01I5e000000abcd/view" pre' seg'.
Proof.
  destruct (extract_object_id_from_url_correct
              "https://x/ObjectManager/01I5e000000abcd/view") as [H _].
  destruct (H "01I5e000000abcd"%string) as (pre' & seg' & He & Hat & _).
  - exists "https://x"%string. split.
    + split; [simpl; tauto | simpl; lia].
    + exists "view"%string. reflexivity.
  - exists pre', seg'. split; assumption.
Defined.

(** ** Reference link resolver *)

Lemma re_search_here (p : pattern) (s g : string) :
  match_here p s = Some g -> re_search p s = Some g.
Proof. intros H. destruct s; simpl; now rewrite H. Qed.

Lemma quoted_unique (g1 g2 p1 p2 : string) :
  all_chars not_quote g1 -> all_chars not_quote g2 ->
  g1 +:+ "')" +:+ p1 = g2 +:+ "')" +:+ p2 -> g1 = g2.
Proof.
  revert g2; induction g1 as [|c g1 IH]; intros [|c2 g2]; simpl; intros H1 H2 He.
  - reflexivity.
  - injection He as <- _. destruct H2 as [H2 _]. cbv in H2. discriminate.
  - injection He as -> _. destruct H1 as [H1 _]. cbv in H1. discriminate.
  - injection He as -> He. f_equal. apply IH; tauto.
Qed.

(** A pseudo-navigation expression at the start of the href: the pattern
    captures the quoted text. *)
Lemma srcUp_wraps (p post : string) :
  p <> EmptyString -> all_chars not_quote p ->
  let h := "javascript:srcUp('" +:+ p +:+ "')" +:+ post in
  startswith "javascript:srcUp(" h = true /\ re_search srcUp_pattern h = Some p.
Proof.
  intros Hne Hq h. split; [reflexivity|].
  apply re_search_here. unfold match_here.
  assert (Hlen : (1 <= String.length p)%nat) by (destruct p; simpl; [congruence | lia]).
  apply head_unique.
  - apply match_candidates_In.
    exists "javascript:srcUp('"%string, "')"%string, post. split; [reflexivity|].
    simpl. split; [now exists "javascript:srcUp('"%string, ""%string|].
    split; [|now exists "')"%string, ""%string].
    exists p, ""%string. rewrite sapp_nil_r. auto.
  - intros g' Hg'. apply match_candidates_In in Hg'
      as (c1 & c3 & r & He & (a1 & b1 & -> & -> & ->) &
          (a2 & b2 & -> & (Hc & _) & ->) & (a3 & b3 & -> & -> & ->)).
    rewrite !sapp_nil_r in *. unfold h in He.
    apply String.app_inj in He. symmetry. now apply (quoted_unique _ _ post r).
Qed.

Section LinkResolver.

Context {pystr : PyStr} (args : Args).

Lemma root_not_pseudo (h : string) :
  startswith "/" h = true -> startswith "javascript:srcUp(" h = false.
Proof.
  intros H. apply startswith_strip in H as [r ->]. reflexivity.
Qed.

Lemma absolute_not_pseudo (h : string) :
  startswith "http" h = true ->
  startswith "javascript:srcUp(" h = false /\ startswith "/" h = false.
Proof.
  intros H. apply startswith_strip in H as [r ->]. split; reflexivity.
Qed.

Lemma link_loop_hit (a : Anchor) (rest : list Anchor) (h url : string) :
  decoded_href a h -> resolves_to args h url -> link_loop args (a :: rest) = url.
Proof.
  intros (raw & Hh & Hne & ->) Hres. cbn [link_loop]. rewrite Hh.
  unfold str_truthy. apply String.eqb_neq in Hne. rewrite Hne. cbn [negb].
  inversion Hres as [h p H1 H2 H3 | h H1 | h H1]; subst.
  - now rewrite H1, H2, H3.
  - now rewrite (root_not_pseudo _ H1), H1.
  - destruct (absolute_not_pseudo _ H1) as [-> ->]. now rewrite H1.
Qed.

Lemma link_loop_skip (b : Anchor) (rest : list Anchor) :
  ~ usable args b -> link_loop args (b :: rest) = link_loop args rest.
Proof.
  intros Hb. cbn [link_loop].
  destruct (href b) as [[raw|]|e] eqn:Hh; try reflexivity.
  unfold str_truthy. destruct (String.eqb_spec raw "") as [->|Hne]; cbn [negb]; [reflexivity|].
  assert (Hd : decoded_href b (unquote raw)) by (exists raw; auto).
  destruct (startswith "javascript:srcUp(" (unquote raw)) eqn:H1.
  - destruct (re_search srcUp_pattern (unquote raw)) as [p|] eqn:H2; [|reflexivity].
    destruct (startswith "/" (unquote p)) eqn:H3; [|reflexivity].
    exfalso. apply Hb. eexists _, _. split; [exact Hd|]. now apply resolves_pseudo with (p := p).
  - destruct (startswith "/" (unquote raw)) eqn:H2.
    + exfalso. apply Hb. eexists _, _. split; [exact Hd|]. now apply resolves_root.
    + destruct (startswith "http" (unquote raw)) eqn:H3; [|reflexivity].
      exfalso. apply Hb. eexists _, _. split; [exact Hd|]. now apply resolves_absolute.
Qed.

Lemma link_loop_first (skipped rest : list Anchor) (a : Anchor) (h url : string) :
  (forall b, In b skipped -> ~ usable args b) ->
  decoded_href a h -> resolves_to args h url ->
  link_loop args (skipped ++ a :: rest) = url.
Proof.
  induction skipped as [|b skipped IH]; intros Hs Hd Hr.
  - now apply link_loop_hit with (h := h).
  - change ((b :: skipped) ++ a :: rest) with (b :: (skipped ++ a :: rest)).
    rewrite link_loop_skip by (apply Hs; now left).
    apply IH; auto. intros b' Hb'. apply Hs. now right.
Qed.

Lemma link_loop_none (links : list Anchor) :
  (forall b, In b links -> ~ usable args b) -> link_loop args links = EmptyString.
Proof.
  induction links as [|b links IH]; intros Hs; [reflexivity|].
  rewrite link_loop_skip by (apply Hs; now left).
  apply IH. intros b' Hb'. apply Hs. now right.
Qed.

Lemma extract_reference_link_anchors (row : DataRow) (cell_index : Z) :
  extract_reference_link args row cell_index
  = link_loop args (cell_anchors row cell_index).
Proof.
  unfold extract_reference_link, cell_anchors.
  destruct (dataCells row) as [cells|]; [|reflexivity].
  destruct (Z.of_nat (length cells) <=? cell_index); [reflexivity|].
  destruct (py_index cells cell_index) as [cell|]; [|reflexivity].
  destruct (anchors cell) as [[|a links]|]; reflexivity.
Qed.

(** C7: the resolver answers with the first usable href of the cell: the base
    URL and the decoded inner path for a pseudo-navigation expression, the
    base URL and the href for a root-relative href, the href itself for an
    absolute one; without a usable href it answers with the empty string.
    The function is total: the empty string is a value like the others. *)
Theorem extract_reference_link_correct (row : DataRow) (cell_index : Z) :
  (forall h p, first_usable_href args row cell_index h ->
     startswith "javascript:srcUp(" h = true ->
     re_search srcUp_pattern h = Some p ->
     extract_reference_link args row cell_index = instance_url args (unquote p)) /\
  (forall h, first_usable_href args row cell_index h ->
     startswith "/" h = true ->
     extract_reference_link args row cell_index = instance_url args h) /\
  (forall h, first_usable_href args row cell_index h ->
     startswith "http" h = true ->
     extract_reference_link args row cell_index = h) /\
  ((forall a, In a (cell_anchors row cell_index) -> ~ usable args a) ->
     extract_reference_link args row cell_index = EmptyString).
Proof.
  rewrite extract_reference_link_anchors. repeat split.
  - intros h p (skipped & a & rest & -> & Hs & Hd & url & Hr) H1 H2.
    rewrite (link_loop_first skipped rest a h url Hs Hd Hr).
    inversion Hr as [h' p' _ H2' _ | h' H1' | h' H1']; subst.
    + congruence.
    + rewrite (root_not_pseudo _ H1') in H1. discriminate.
    + destruct (absolute_not_pseudo _ H1') as [H _]. congruence.
  - intros h (skipped & a & rest & -> & Hs & Hd & _) H1.
    apply (link_loop_first skipped rest a h); auto. now apply resolves_root.
  - intros h (skipped & a & rest & -> & Hs & Hd & _) H1.
    apply (link_loop_first skipped rest a h); auto. now apply resolves_absolute.
  - apply link_loop_none.
Qed.

End LinkResolver.

(** ** Worksheet *)

Lemma shift_row_inj (idx amount : Z) :
  0 <= amount -> Inj (=) (=) (shift_row idx amount).
Proof.
  intros Hn [r1 c1] [r2 c2]. unfold shift_row; simpl.
  destruct (Z.leb_spec idx r1), (Z.leb_spec idx r2); intros [= ? ?]; subst;
    f_equal; lia.
Qed.

Lemma ws_cell_insert_rows_above (w : worksheet) (idx amount r c : Z) :
  0 <= amount -> r < idx ->
  ws_cell (insert_rows w idx amount) r c = ws_cell w r c.
Proof.
  intros Hn Hr. unfold ws_cell, insert_rows.
  pose proof (shift_row_inj idx amount Hn) as Hinj.
  replace (r, c) with (shift_row idx amount (r, c)) at 1.
  - now rewrite (lookup_kmap (shift_row idx amount)).
  - unfold shift_row; simpl. destruct (Z.leb_spec idx r); [lia | reflexivity].
Qed.

Lemma ws_cell_insert_rows_below (w : worksheet) (idx amount r c : Z) :
  0 <= amount -> idx <= r ->
  ws_cell (insert_rows w idx amount) (r + amount) c = ws_cell w r c.
Proof.
  intros Hn Hr. unfold ws_cell, insert_rows.
  pose proof (shift_row_inj idx amount Hn) as Hinj.
  replace (r + amount, c) with (shift_row idx amount (r, c)).
  - now rewrite (lookup_kmap (shift_row idx amount)).
  - unfold shift_row; simpl. destruct (Z.leb_spec idx r); [reflexivity | lia].
Qed.

Lemma ws_cell_insert_rows_new (w : worksheet) (idx amount r c : Z) :
  0 <= amount -> idx <= r < idx + amount ->
  ws_cell (insert_rows w idx amount) r c = empty_cell.
Proof.
  intros Hn Hr. unfold ws_cell, insert_rows.
  pose proof (shift_row_inj idx amount Hn) as Hinj.
  rewrite (proj2 (lookup_kmap_None (shift_row idx amount) w (r, c))); [reflexivity|].
  intros [r' c']. unfold shift_row; simpl.
  destruct (Z.leb_spec idx r'); intros [= ? ?]; subst; lia.
Qed.

Lemma ws_cell_set_value (w : worksheet) (r c : Z) (v : pyval) (r' c' : Z) :
  ws_cell (set_value w r c v) r' c' =
  if decide ((r, c) = (r', c'))
  then {| value := v; hyperlink := hyperlink (ws_cell w r c) |}
  else ws_cell w r' c'.
Proof.
  unfold ws_cell at 1, set_value. rewrite lookup_insert.
  now destruct (decide ((r, c) = (r', c'))).
Qed.

Lemma ws_cell_set_hyperlink (w : worksheet) (r c : Z) (url : string) (r' c' : Z) :
  ws_cell (set_hyperlink w r c url) r' c' =
  if decide ((r, c) = (r', c'))
  then {| value := match value (ws_cell w r c) with
                   | VNone => if str_truthy url then VStr url else VNone
                   | v => v
                   end;
          hyperlink := Some url |}
  else ws_cell w r' c'.
Proof.
  unfold ws_cell at 1, set_hyperlink. rewrite lookup_insert.
  now destruct (decide ((r, c) = (r', c'))).
Qed.

(** Reads after writes: decide which write the read sees. *)
Ltac ws_reads :=
  repeat (first [rewrite ws_cell_set_hyperlink | rewrite ws_cell_set_value];
          let Hd := fresh "Hd" in
          case_decide as Hd;
          [try (exfalso; injection Hd; intros; lia)
          |try (exfalso; apply Hd; f_equal; lia)]).

(** Writing references touches columns 9 and 10 of their rows only. *)
Lemma write_refs_other (R j r c : Z) (refs : list Ref) (w : worksheet) :
  r < R + 1 + j \/ R + 1 + j + Z.of_nat (length refs) <= r \/ (c <> 9 /\ c <> 10) ->
  ws_cell (write_refs R j refs w) r c = ws_cell w r c.
Proof.
  revert j w; induction refs as [|[[t n] l] refs IH]; intros j w H; [reflexivity|].
  cbn [write_refs]. rewrite IH by (cbn [length] in H; lia).
  cbn [length] in H. destruct (str_truthy l); ws_reads; reflexivity.
Qed.

Lemma write_refs_row (R j : Z) (refs : list Ref) (w : worksheet)
    (k : nat) (t n l : string) :
  nth_error refs k = Some (t, n, l) ->
  let r := R + 1 + j + Z.of_nat k in
  ws_cell (write_refs R j refs w) r 9
    = {| value := VStr t; hyperlink := hyperlink (ws_cell w r 9) |} /\
  ws_cell (write_refs R j refs w) r 10
    = {| value := VStr n;
         hyperlink := if str_truthy l then Some l else hyperlink (ws_cell w r 10) |}.
Proof.
  revert j w k; induction refs as [|[[t0 n0] l0] refs IH]; intros j w k Hk r.
  - destruct k; discriminate.
  - destruct k as [|k]; cbn [nth_error write_refs] in *.
    + injection Hk as -> -> ->. subst r. rewrite Z.add_0_r.
      rewrite !write_refs_other by lia.
      split; destruct (str_truthy l); ws_reads; reflexivity.
    + specialize (IH (j + 1) (if str_truthy l0
         then set_hyperlink (set_value (set_value w (R + 1 + j) 9 (VStr t0))
                (R + 1 + j) 10 (VStr n0)) (R + 1 + j) 10 l0
         else set_value (set_value w (R + 1 + j) 9 (VStr t0)) (R + 1 + j) 10 (VStr n0))
         k Hk).
      replace (R + 1 + (j + 1) + Z.of_nat k) with r in IH by (subst r; lia).
      destruct IH as [IH9 IH10]. rewrite IH9, IH10.
      subst r. split; destruct (str_truthy l0); ws_reads; reflexivity.
Qed.

(** ** Merge writer *)

Lemma merge_writer_nonempty (R : Z) (url : string) (refs : list Ref) (st : RunState) :
  refs <> [] ->
  let N := Z.of_nat (length refs) in
  merge_writer R url refs st =
  add_rows N
    (with_ws (write_refs R 0 refs)
       (log (EvInsertRows (R + 1) N)
          (with_ws (fun w => insert_rows w (R + 1) N)
             (with_ws (fun w => set_hyperlink w R 1 url) st)))).
Proof. destruct refs; [congruence | reflexivity]. Qed.

(** With references: N rows at R+1 .. R+N, filled from the references. *)
Lemma merge_writer_references (R : Z) (url : string) (refs : list Ref) (st : RunState) :
  let st' := merge_writer R url refs st in
  let N := Z.of_nat (length refs) in
  refs <> [] ->
  rows_inserted st' = rows_inserted st + N /\
  events st' = events st ++ [EvInsertRows (R + 1) N] /\
  (forall r c, r <= R -> (r, c) <> (R, 1) ->
     ws_cell (ws st') r c = ws_cell (ws st) r c) /\
  hyperlink (ws_cell (ws st') R 1) = Some url /\
  (forall r c, R < r -> ws_cell (ws st') (r + N) c = ws_cell (ws st) r c) /\
  (forall j t n l, nth_error refs j = Some (t, n, l) ->
     let r := R + 1 + Z.of_nat j in
     ws_cell (ws st') r 9 = {| value := VStr t; hyperlink := None |} /\
     ws_cell (ws st') r 10
       = {| value := VStr n; hyperlink := if str_truthy l then Some l else None |} /\
     forall c, c <> 9 -> c <> 10 -> ws_cell (ws st') r c = empty_cell).
Proof.
  intros st' N Hne. subst st'.
  assert (HN : 1 <= N) by (subst N; destruct refs; [congruence | cbn [length]; lia]).
  rewrite (merge_writer_nonempty R url refs st Hne). fold N.
  cbn [with_ws add_rows log ws rows_inserted events].
  split_and!; [reflexivity | reflexivity | ..].
  - intros r c Hr Hc. rewrite write_refs_other by lia.
    rewrite ws_cell_insert_rows_above by lia. ws_reads; [congruence | reflexivity].
  - rewrite write_refs_other by lia. rewrite ws_cell_insert_rows_above by lia.
    ws_reads. reflexivity.
  - intros r c Hr. rewrite write_refs_other by lia.
    rewrite ws_cell_insert_rows_below by lia. ws_reads. reflexivity.
  - intros j t n l H. set (r := R + 1 + Z.of_nat j).
    assert (Hj : (j < length refs)%nat) by (apply nth_error_Some; congruence).
    destruct (write_refs_row R 0 refs
      (insert_rows (set_hyperlink (ws st) R 1 url) (R + 1) N) j t n l H) as [H9 H10].
    replace (R + 1 + 0 + Z.of_nat j) with r in H9, H10 by (subst r; lia).
    split_and!.
    + rewrite H9. rewrite ws_cell_insert_rows_new; [reflexivity | lia |].
      subst r N. lia.
    + rewrite H10. rewrite ws_cell_insert_rows_new; [reflexivity | lia |].
      subst r N. lia.
    + intros c Hc9 Hc10. rewrite write_refs_other by lia.
      apply ws_cell_insert_rows_new; [lia|]. subst r N. lia.
Qed.

(** Without references: one row at R+1 that carries the marker. *)
Lemma merge_writer_marker (R : Z) (url : string) (st : RunState) :
  let st' := merge_writer R url [] st in
  rows_inserted st' = rows_inserted st + 1 /\
  events st' = events st ++ [EvInsertRows (R + 1) 1] /\
  (forall r c, r <= R -> (r, c) <> (R, 1) ->
     ws_cell (ws st') r c = ws_cell (ws st) r c) /\
  hyperlink (ws_cell (ws st') R 1) = Some url /\
  (forall r c, R < r -> ws_cell (ws st') (r + 1) c = ws_cell (ws st) r c) /\
  ws_cell (ws st') (R + 1) 9
    = {| value := VStr no_references_found; hyperlink := None |} /\
  forall c, c <> 9 -> ws_cell (ws st') (R + 1) c = empty_cell.
Proof.
  cbn [merge_writer with_ws add_rows log ws rows_inserted events].
  split_and!; [reflexivity | reflexivity | ..].
  - intros r c Hr Hc. ws_reads.
    rewrite ws_cell_insert_rows_above by lia. ws_reads; [congruence | reflexivity].
  - ws_reads. rewrite ws_cell_insert_rows_above by lia. ws_reads. reflexivity.
  - intros r c Hr. ws_reads.
    rewrite ws_cell_insert_rows_below by lia. ws_reads. reflexivity.
  - ws_reads. now rewrite ws_cell_insert_rows_new by lia.
  - intros c Hc. ws_reads. apply ws_cell_insert_rows_new; lia.
Qed.

(** C3: with N >= 1 references the writer inserts N rows at R+1 .. R+N (the
    rows above stay, the rows below move down by N), row R+1+j carries the
    type of reference j in column 9 and its name in column 10, with the link
    as hyperlink of the name cell when the link is not empty, and the counter
    grows by N; with no reference it inserts one row at R+1 that carries the
    marker in column 9, and the counter grows by 1. *)
Theorem merge_writer_correct (R : Z) (url : string) (refs : list Ref) (st : RunState) :
  let st' := merge_writer R url refs st in
  let N := Z.of_nat (length refs) in
  (refs <> [] ->
     rows_inserted st' = rows_inserted st + N /\
     events st' = events st ++ [EvInsertRows (R + 1) N] /\
     (forall r c, r <= R -> (r, c) <> (R, 1) ->
        ws_cell (ws st') r c = ws_cell (ws st) r c) /\
     hyperlink (ws_cell (ws st') R 1) = Some url /\
     (forall r c, R < r -> ws_cell (ws st') (r + N) c = ws_cell (ws st) r c) /\
     (forall j t n l, nth_error refs j = Some (t, n, l) ->
        let r := R + 1 + Z.of_nat j in
        ws_cell (ws st') r 9 = {| value := VStr t; hyperlink := None |} /\
        ws_cell (ws st') r 10
          = {| value := VStr n; hyperlink := if str_truthy l then Some l else None |} /\
        forall c, c <> 9 -> c <> 10 -> ws_cell (ws st') r c = empty_cell)) /\
  (refs = [] ->
     rows_inserted st' = rows_inserted st + 1 /\
     events st' = events st ++ [EvInsertRows (R + 1) 1] /\
     (forall r c, r <= R -> (r, c) <> (R, 1) ->
        ws_cell (ws st') r c = ws_cell (ws st) r c) /\
     hyperlink (ws_cell (ws st') R 1) = Some url /\
     (forall r c, R < r -> ws_cell (ws st') (r + 1) c = ws_cell (ws st) r c) /\
     ws_cell (ws st') (R + 1) 9
       = {| value := VStr no_references_found; hyperlink := None |} /\
     forall c, c <> 9 -> ws_cell (ws st') (R + 1) c = empty_cell).
Proof.
  intros st' N. split.
  - apply merge_writer_references.
  - intros E. subst st'. rewrite E. apply merge_writer_marker.
Qed.

(** ** Effects *)

Lemma add_events_nil (st : RunState) : add_events st [] = st.
Proof. destruct st; unfold add_events; simpl. now rewrite app_nil_r. Qed.

Lemma add_events_app (st : RunState) (e1 e2 : list Event) :
  add_events (add_events st e1) e2 = add_events st (e1 ++ e2).
Proof. unfold add_events; simpl. now rewrite app_assoc. Qed.

Lemma log_add_events (e : Event) (st : RunState) : log e st = add_events st [e].
Proof. reflexivity. Qed.

Section OnlyEmits.

Context (P : Event -> Prop).

Lemma only_emits_ret {A} (a : A) : only_emits P (ret a).
Proof. intros st. exists []. now rewrite add_events_nil. Qed.

Lemma only_emits_raise {A} (e : exn) : only_emits P (@raise A e).
Proof. intros st. exists []. now rewrite add_events_nil. Qed.

Lemma only_emits_lift {A} (r : result A) : only_emits P (lift r).
Proof. intros st. exists []. now rewrite add_events_nil. Qed.

Lemma only_emits_get : only_emits P get_state.
Proof. intros st. exists []. now rewrite add_events_nil. Qed.

Lemma only_emits_emit (e : Event) : P e -> only_emits P (emit e).
Proof. intros He st. exists [e]. split; [reflexivity | now constructor]. Qed.

Lemma only_emits_bind {A B} (m : M A) (k : A -> M B) :
  only_emits P m -> (forall a, only_emits P (k a)) -> only_emits P (bind m k).
Proof.
  intros Hm Hk st. unfold bind. destruct (Hm st) as (e1 & H1 & HP1).
  destruct (m st) as [[a|e] st1]; simpl in H1; subst st1.
  - destruct (Hk a (add_events st e1)) as (e2 & H2 & HP2).
    exists (e1 ++ e2). rewrite H2, add_events_app. split; [reflexivity|].
    now apply Forall_app.
  - now exists e1.
Qed.

Lemma only_emits_try {A} (m : M A) (h : exn -> M A) :
  only_emits P m -> (forall e, only_emits P (h e)) -> only_emits P (try_except m h).
Proof.
  intros Hm Hh st. unfold try_except. destruct (Hm st) as (e1 & H1 & HP1).
  destruct (m st) as [[a|e] st1]; simpl in H1; subst st1.
  - now exists e1.
  - destruct (Hh e (add_events st e1)) as (e2 & H2 & HP2).
    exists (e1 ++ e2). rewrite H2, add_events_app. split; [reflexivity|].
    now apply Forall_app.
Qed.

End OnlyEmits.

Lemma only_emits_weaken {A} (P Q : Event -> Prop) (m : M A) :
  (forall e, P e -> Q e) -> only_emits P m -> only_emits Q m.
Proof.
  intros HPQ Hm st. destruct (Hm st) as (evs & H & HP).
  exists evs. split; [assumption|]. revert HP. apply List.Forall_impl. exact HPQ.
Qed.

Create HintDb emits.

#[local] Hint Resolve only_emits_ret only_emits_raise only_emits_lift only_emits_get
  only_emits_emit only_emits_bind only_emits_try : emits.

(** ** Navigation controller *)

Section NavigationFacts.

Context {pystr : PyStr} (args : Args).

(** The only clicks of [click_field_from_table] are clicks on links whose
    text matches the label. *)
Lemma links_loop_clicks (s : string) (links : list Link) :
  only_emits (click_matching (VStr s)) (links_loop s links).
Proof.
  induction links as [|link rest IH]; cbn [links_loop]; [auto with emits|].
  apply only_emits_bind.
  - apply only_emits_try; [|auto with emits].
    apply only_emits_bind; [auto with emits|]. intros text.
    destruct (String.eqb_spec (py_lower (py_strip text)) (py_lower s)) as [Heq|Hne];
      [|auto with emits].
    apply only_emits_bind.
    + apply only_emits_emit. exists text. split; [reflexivity|]. now exists s.
    + intros _. apply only_emits_bind; [auto with emits|]. intros url.
      destruct (extract_field_id_from_url url); auto with emits.
  - intros [r|]; auto with emits.
Qed.

Lemma selector_loop_clicks (view : SearchView) (s : string) (selectors : list Selector) :
  only_emits (click_matching (VStr s)) (selector_loop view s selectors).
Proof.
  induction selectors as [|sel rest IH]; cbn [selector_loop]; [auto with emits|].
  apply only_emits_bind.
  - apply only_emits_try; [|auto with emits].
    apply only_emits_bind; [auto with emits|]. intros links. apply links_loop_clicks.
  - intros [r|]; auto with emits.
Qed.

Lemma click_field_from_table_clicks (view : SearchView) (field_label field_api_name : pyval) :
  only_emits (click_matching field_label)
    (click_field_from_table view field_label field_api_name).
Proof.
  destruct field_label; cbn [click_field_from_table]; auto with emits.
  apply selector_loop_clicks.
Qed.

Lemma trigger_search_run (view : SearchView) (term : pyval) (st : RunState) :
  trigger_search_with_proper_events view term st =
  (Ok match search_events view with Ok _ => true | Exc _ => false end,
   add_events st [EvSearch term]).
Proof.
  unfold trigger_search_with_proper_events, bind, try_except, emit, lift, ret.
  now destruct (search_events view).
Qed.

(** The events of [use_fields_page_quick_find]: nothing; or the search for
    the label and clicks on links that match the label; or these, then the
    search for the API name and again clicks on links that match the label. *)
Lemma use_fields_page_quick_find_events (script : FieldScript)
    (field_label field_api_name : pyval) (st : RunState) :
  exists evs,
    snd (use_fields_page_quick_find script field_label field_api_name st)
      = add_events st evs /\
    (evs = [] \/
     exists clicks1,
       Forall (click_matching field_label) clicks1 /\
       (evs = EvSearch field_label :: clicks1 \/
        exists clicks2,
          Forall (click_matching field_label) clicks2 /\
          evs = EvSearch field_label :: clicks1 ++ EvSearch field_api_name :: clicks2)).
Proof.
  unfold use_fields_page_quick_find.
  destruct (find_search_box script quick_find_selectors) as [box|];
    [|exists []; rewrite add_events_nil; auto].
  unfold try_except, bind at 1 2. rewrite trigger_search_run.
  set (st1 := add_events st [EvSearch field_label]).
  assert (Hfirst : exists r clicks1,
    (if match search_events (label_view script) with Ok _ => true | Exc _ => false end
     then click_field_from_table (label_view script) field_label field_api_name
     else ret None) st1 = (r, add_events st1 clicks1) /\
    Forall (click_matching field_label) clicks1).
  { destruct (search_events (label_view script)).
    - destruct (click_field_from_table_clicks (label_view script) field_label
                  field_api_name st1) as (c & Hc & HP).
      destruct (click_field_from_table _ _ _ st1) as [r st2]; simpl in Hc; subst.
      eauto.
    - exists (Ok None), []. unfold ret. now rewrite add_events_nil. }
  destruct Hfirst as (r & clicks1 & -> & HP1).
  unfold st1. rewrite add_events_app.
  destruct r as [[field_id|]|e]; cbn [ret snd].
  - exists (EvSearch field_label :: clicks1). split; [reflexivity|]. right. eauto.
  - unfold bind. rewrite trigger_search_run, add_events_app.
    set (st2 := add_events st _).
    assert (Hsecond : exists r clicks2,
      (if match search_events (api_name_view script) with Ok _ => true | Exc _ => false end
       then click_field_from_table (api_name_view script) field_label field_api_name
       else ret None) st2 = (r, add_events st2 clicks2) /\
      Forall (click_matching field_label) clicks2).
    { destruct (search_events (api_name_view script)).
      - destruct (click_field_from_table_clicks (api_name_view script) field_label
                    field_api_name st2) as (c & Hc & HP).
        destruct (click_field_from_table _ _ _ st2) as [r st3]; simpl in Hc; subst.
        eauto.
      - exists (Ok None), []. unfold ret. now rewrite add_events_nil. }
    destruct Hsecond as (r & clicks2 & -> & HP2).
    unfold st2. rewrite add_events_app.
    exists (EvSearch field_label :: clicks1 ++ EvSearch field_api_name :: clicks2).
    split.
    + destruct r as [r|e]; cbn [ret snd]; simpl; now rewrite <- app_assoc.
    + right. exists clicks1. split; [assumption|]. right. eauto.
  - exists (EvSearch field_label :: clicks1). split; [reflexivity|]. right. eauto.
Qed.

End NavigationFacts.

(** C4, as amended: whatever the attempt, the first with the label as search
    term or the retry with the API name, a link that is clicked has a text
    that, stripped, equals the field's label up to case. *)
Theorem clicked_link_matches_label {pystr : PyStr} (script : FieldScript)
    (field_label field_api_name : pyval) (st : RunState) :
  exists evs,
    snd (use_fields_page_quick_find script field_label field_api_name st)
      = add_events st evs /\
    forall term text, click_of_attempt evs term text ->
      (term = field_label \/ term = field_api_name) /\
      matches_term field_label text.
Proof.
  destruct (use_fields_page_quick_find_events script field_label field_api_name st)
    as (evs & Hst & Hevs).
  exists evs. split; [assumption|].
  intros term text (pre & mid & post & He & _).
  assert (Hs : In (EvSearch term) evs).
  { rewrite He. apply in_or_app. right. now left. }
  assert (Hc : In (EvClick text) evs).
  { rewrite He. apply in_or_app. right. right. apply in_or_app. right. now left. }
  assert (Hclick : forall l e, Forall (click_matching field_label) l -> In e l ->
            (forall t, e <> EvSearch t) /\
            (forall t, e = EvClick t -> matches_term field_label t)).
  { intros l e Hl Hin. rewrite List.Forall_forall in Hl.
    destruct (Hl e Hin) as (t & -> & Hm). split; [discriminate|].
    now intros t' [= <-]. }
  destruct Hevs as [-> | (c1 & H1 & [-> | (c2 & H2 & ->)])]; [destruct Hs | |].
  - split.
    + destruct Hs as [[= <-]|Hs]; [now left|].
      destruct (Hclick c1 _ H1 Hs) as [Hn _]. now destruct (Hn term).
    + destruct Hc as [[=]|Hc]. now apply (Hclick c1 _ H1 Hc).
  - split.
    + destruct Hs as [[= <-]|Hs]; [now left|].
      apply in_app_or in Hs as [Hs|[[= <-]|Hs]]; [|now right|].
      * destruct (Hclick c1 _ H1 Hs) as [Hn _]. now destruct (Hn term).
      * destruct (Hclick c2 _ H2 Hs) as [Hn _]. now destruct (Hn term).
    + destruct Hc as [[=]|Hc].
      apply in_app_or in Hc as [Hc|[[=]|Hc]].
      * now apply (Hclick c1 _ H1 Hc).
      * now apply (Hclick c2 _ H2 Hc).
Qed.

(** On the retry, the search term is the API name and the clicked link
    carries the label: text and search term differ. *)
Lemma retry_click_differs_from_search_term :
  let evs := events (snd (use_fields_page_quick_find (pystr := ascii_pystr) retry_script
                            (VStr "My Field") (VStr "My_Field__c") (state0 ∅))) in
  click_of_attempt evs (VStr "My_Field__c") "My Field" /\
  ~ matches_term (pystr := ascii_pystr) (VStr "My_Field__c") "My Field".
Proof.
  split.
  - exists [EvSearch (VStr "My Field")], [], []. split; [vm_compute; reflexivity|].
    intros t [].
  - intros (s & [= <-] & H). vm_compute in H. discriminate.
Qed.

Lemma clicked_link_matches_label_witness :
  exists evs,
    snd (use_fields_page_quick_find (pystr := ascii_pystr) retry_script
           (VStr "My Field") (VStr "My_Field__c") (state0 ∅))
      = add_events (state0 ∅) evs /\
    matches_term (pystr := ascii_pystr) (VStr "My Field") "My Field".
Proof.
  destruct (clicked_link_matches_label (pystr := ascii_pystr) retry_script
              (VStr "My Field") (VStr "My_Field__c") (state0 ∅)) as (evs & Hst & H).
  exists evs. split; [assumption|].
  apply (H (VStr "My_Field__c") "My Field"%string).
  exists [EvSearch (VStr "My Field")], [], [].
  split; [|intros t []].
  apply (f_equal events) in Hst. vm_compute in Hst.
  apply app_inv_head with (l := []). simpl. symmetry. exact Hst.
Defined.

(** ** Run orchestrator *)



Lemma not_saved_nav (evs : list Event) : Forall is_nav evs -> ~ saved evs.
Proof.
  intros H Hin. rewrite List.Forall_forall in H. now apply H in Hin.
Qed.

Lemma filter_dedup_In (l : list Ref) (r : Ref) : In r (filter_dedup l) -> In r l.
Proof.
  rewrite filter_dedup_spec, in_app_iff. intros [H|H].
  - unfold passthrough in H. now apply filter_In in H.
  - apply stored_flow_is_last in H as (_ & l1 & l2 & -> & _).
    apply in_or_app. right. now left.
Qed.

Lemma str_truthy_ne (s : string) : str_truthy s = true <-> s <> EmptyString.
Proof.
  unfold str_truthy. rewrite negb_true_iff. apply String.eqb_neq.
Qed.

Section MainFacts.

Context {pystr : PyStr} (args : Args).

Lemma parse_row_well_formed (row : DataRow) (r : Ref) :
  parse_row args row = Some r -> ref_type r <> EmptyString /\ ref_name r <> EmptyString.
Proof.
  unfold parse_row.
  destruct (dataCells row) as [[|c0 [|c1 cells]]|]; try discriminate.
  destruct (inner_text c0) as [t0|]; [|discriminate].
  destruct (inner_text c1) as [t1|]; [|discriminate].
  destruct (str_truthy (py_strip t0)) eqn:E0; [|discriminate].
  destruct (str_truthy (py_strip t1)) eqn:E1; [|discriminate].
  intros [= <-]. split; now apply str_truthy_ne.
Qed.

Lemma parse_result_well_formed (page : DepsPage) (st : RunState) :
  match fst (parse_field_dependencies_page args page st) with
  | Ok (_, refs) => well_formed_refs refs
  | Exc _ => True
  end.
Proof.
  unfold parse_field_dependencies_page, bind at 1, lift at 1.
  destruct (settle page); [|exact I].
  unfold bind. destruct (find_dependencies_iframe page st) as [[[frame|]|e] st1];
    cbn [ret fst]; [|constructor|exact I].
  apply List.Forall_forall. intros r Hr. apply filter_dedup_In in Hr.
  destruct (table_visible frame) as [[|]|]; try destruct Hr.
  destruct (data_rows frame) as [rows|]; [|destruct Hr].
  apply list_elem_of_In, list_elem_of_omap in Hr as (row & _ & Hrow).
  now apply parse_row_well_formed in Hrow.
Qed.

Lemma parse_only_emits (P : Event -> Prop) (page : DepsPage) :
  only_emits P (parse_field_dependencies_page args page).
Proof.
  unfold parse_field_dependencies_page, find_dependencies_iframe.
  apply only_emits_bind; [auto with emits|]. intros _.
  apply only_emits_bind.
  - apply only_emits_try.
    + apply only_emits_bind; [auto with emits|]. intros _.
      apply only_emits_bind; auto with emits.
    + intros []; auto with emits.
  - intros [frame|]; auto with emits.
Qed.

Lemma click_matching_nav (l : pyval) (e : Event) : click_matching l e -> is_nav e.
Proof. intros (t & -> & _). exact I. Qed.

Lemma find_field_only_emits (script : FieldScript) (l a : pyval) (oid : string) :
  only_emits is_nav (find_field_and_get_dependencies args script l a oid).
Proof.
  unfold find_field_and_get_dependencies.
  apply only_emits_bind.
  - intros st. destruct (use_fields_page_quick_find_events script l a st)
      as (evs & Hst & Hevs).
    exists evs. split; [assumption|].
    assert (Hc : forall c, Forall (click_matching l) c -> Forall is_nav c).
    { intros c. apply List.Forall_impl. apply click_matching_nav. }
    destruct Hevs as [-> | (c1 & H1 & [-> | (c2 & H2 & ->)])].
    + constructor.
    + constructor; [exact I | auto].
    + constructor; [exact I|]. apply Forall_app. split; [auto|].
      constructor; [exact I | auto].
  - intros [field_id|]; [|auto with emits].
    unfold navigate_to_field_dependencies_page.
    apply only_emits_try; [|auto with emits].
    apply only_emits_bind; auto with emits.
Qed.

(** What one pass of the loop does to the state: it adds navigation events
    and, when the field was found and parsed, runs the merge writer. *)
Lemma process_field_run (script : FieldScript) (oid : string) (field : WorkItem)
    (st : RunState) :
  exists evs,
    Forall is_nav evs /\
    ((exists b, process_field args script oid field st = (Ok b, add_events st evs)) \/
     (exists url refs,
        well_formed_refs refs /\
        process_field args script oid field st
        = (Ok true, merge_writer (original_row field + rows_inserted st) url refs
                      (add_events st evs)))).
Proof.
  unfold process_field, bind, try_except, get_state, lift, modify, ret.
  destruct (find_field_only_emits script (label field) (api_name field) oid st)
    as (e1 & H1 & HP1).
  destruct (find_field_and_get_dependencies args script (label field) (api_name field)
              oid st) as [[[|]|e] st1]; simpl in H1; subst st1.
  - (* found *)
    destruct (parse_only_emits is_nav (dependencies_page script) (add_events st e1))
      as (e2 & H2 & HP2).
    pose proof (parse_result_well_formed (dependencies_page script) (add_events st e1))
      as Hwf.
    destruct (parse_field_dependencies_page args (dependencies_page script)
                (add_events st e1)) as [[[url refs]|e] st2]; simpl in H2, Hwf; subst st2;
      rewrite add_events_app;
      (exists (e1 ++ e2); split; [now apply Forall_app|]).
    + destruct (back_goto script).
      * right. exists url, refs. auto.
      * left. destruct (recover_goto script); eauto.
    + left. destruct (recover_goto script); eauto.
  - (* not found *)
    exists e1. split; [assumption|]. left.
    destruct (back_goto script); [eauto|]. destruct (recover_goto script); eauto.
  - exists e1. split; [assumption|]. left. destruct (recover_goto script); eauto.
Qed.

End MainFacts.

Lemma merge_writer_add_events (R : Z) (url : string) (refs : list Ref)
    (st : RunState) (evs : list Event) :
  let n := match refs with [] => 1 | _ => Z.of_nat (length refs) end in
  ws (merge_writer R url refs (add_events st evs)) = ws (merge_writer R url refs st) /\
  rows_inserted (merge_writer R url refs (add_events st evs)) = rows_inserted st + n /\
  events (merge_writer R url refs (add_events st evs))
    = events st ++ evs ++ [EvInsertRows (R + 1) n].
Proof.
  destruct refs; cbn [merge_writer with_ws add_rows log add_events ws rows_inserted events];
    now rewrite <- app_assoc.
Qed.



Section Invariant.

Context {pystr : PyStr} (args : Args).






End Invariant.

Section Prescan.

Context {pystr : PyStr} (args : Args).

Lemma scan_row_Some (sheet : worksheet) (row_idx : Z) (field : WorkItem) :
  scan_row sheet row_idx = Some field ->
  original_row field = row_idx /\
  truthy (label field) = true /\ truthy (api_name field) = true /\
  truthy (marker sheet row_idx) = false.
Proof.
  unfold scan_row, marker.
  destruct (truthy (value (ws_cell sheet row_idx 2))) eqn:E2; [|discriminate].
  destruct (truthy (value (ws_cell sheet row_idx 1))) eqn:E1; [|discriminate].
  destruct (truthy (value (ws_cell sheet (row_idx + 1) 9))) eqn:E9; [discriminate|].
  intros [= <-]. auto.
Qed.

Lemma prescan_In (sheet : worksheet) (start_row : Z) (field : WorkItem) :
  In field (prescan args sheet start_row) ->
  scan_row sheet (original_row field) = Some field.
Proof.
  unfold prescan. intros H.
  apply list_elem_of_In, list_elem_of_omap in H as (row & _ & Hrow).
  destruct (scan_row_Some _ _ _ Hrow) as [<- _]. exact Hrow.
Qed.

(** The writer leaves a truthy marker below the field row. *)
Lemma merge_writer_marks (R : Z) (url : string) (refs : list Ref) (st : RunState) :
  well_formed_refs refs ->
  truthy (marker (ws (merge_writer R url refs st)) R) = true.
Proof.
  intros Hwf. unfold marker.
  destruct refs as [|r refs].
  - destruct (merge_writer_marker R url st) as (_ & _ & _ & _ & _ & H9 & _).
    now rewrite H9.
  - destruct (merge_writer_references R url (r :: refs) st ltac:(discriminate))
      as (_ & _ & _ & _ & _ & Hrow).
    destruct (Hrow 0%nat (ref_type r) (ref_name r) (ref_link r)) as (H9 & _).
    { cbn [nth_error]. f_equal. apply Ref_eta. }
    replace (R + 1 + Z.of_nat 0) with (R + 1) in H9 by lia.
    rewrite H9. cbn [value truthy]. apply str_truthy_ne.
    inversion Hwf as [|? ? [Ht _] _]. exact Ht.
Qed.

(** C6, as amended: a row is a work item only if its marker cell (column 9
    of the following row) holds nothing truthy, that is: no value, the empty
    text, zero or False; so a row whose marker cell is truthy gives no work
    item, and the marker the writer leaves below a processed field is
    truthy. *)
Theorem prescan_skips_marked (sheet : worksheet) (start_row : Z) :
  (forall field, In field (prescan args sheet start_row) ->
     truthy (marker sheet (original_row field)) = false /\
     (marker_empty sheet (original_row field) \/
      marker sheet (original_row field) = VNum 0 \/
      marker sheet (original_row field) = VBool false)) /\
  (forall row, truthy (marker sheet row) = true ->
     forall field, In field (prescan args sheet start_row) -> original_row field <> row) /\
  (forall R url refs st, well_formed_refs refs ->
     truthy (marker (ws (merge_writer R url refs st)) R) = true).
Proof.
  split_and!.
  - intros field Hin. apply prescan_In, scan_row_Some in Hin as (_ & _ & _ & Hm).
    split; [assumption|]. unfold marker_empty.
    destruct (marker sheet (original_row field)) as [|s|z|b]; cbn in Hm.
    + left. now left.
    + left. right. unfold str_truthy in Hm. apply negb_false_iff, String.eqb_eq in Hm.
      now subst.
    + right. left. apply negb_false_iff, Z.eqb_eq in Hm. now subst.
    + right. right. now subst.
  - intros row Hrow field Hin Heq. subst row.
    apply prescan_In, scan_row_Some in Hin as (_ & _ & _ & Hm). congruence.
  - intros. now apply merge_writer_marks.
Qed.

End Prescan.

(** A field row whose marker cell holds the number 0 is a work item, and its
    marker cell is not empty. *)
Lemma zero_marker_is_scanned :
  prescan no_args sheet_zero_marker 2
  = [{| api_name := VStr "My_Field__c"; label := VStr "My Field"; original_row := 2 |}] /\
  ~ marker_empty sheet_zero_marker 2.
Proof.
  split; [vm_compute; reflexivity|].
  intros [H|H]; vm_compute in H; discriminate.
Qed.

Lemma prescan_skips_marked_witness :
  truthy (marker sheet_all_done 2) = true /\
  forall field, In field (prescan no_args sheet_all_done 2) ->
    original_row field <> 2.
Proof.
  assert (H : truthy (marker sheet_all_done 2) = true) by (vm_compute; reflexivity).
  split; [exact H|].
  destruct (prescan_skips_marked no_args sheet_all_done 2)
    as (_ & Hskip & _).
  exact (Hskip 2 H).
Defined.

(** The extracted object identifier is never the empty string. *)
Lemma extract_object_id_nonempty (url oid : string) :
  extract_object_id_from_url url = Some oid -> str_truthy oid = true.
Proof.
  unfold extract_object_id_from_url.
  destruct (re_search object_id_pattern url) as [g|] eqn:E; [|discriminate].
  intros [= <-]. apply re_search_Some in E as (pre & rest & _ & Hm & _).
  apply match_here_object in Hm as [[_ Hlen] _].
  apply str_truthy_ne. intros ->. simpl in Hlen. lia.
Qed.

Section Saving.

Context {pystr : PyStr} (args : Args).

Lemma process_field_no_save (script : FieldScript) (oid : string) (field : WorkItem)
    (st : RunState) :
  exists evs, events (snd (process_field args script oid field st)) = events st ++ evs /\
              ~ saved evs.
Proof.
  destruct (process_field_run args script oid field st)
    as (evs & Hnav & [(b & Hrun) | (url & refs & _ & Hrun)]); rewrite Hrun; cbn [snd].
  - exists evs. split; [reflexivity | now apply not_saved_nav].
  - destruct (merge_writer_add_events (original_row field + rows_inserted st) url refs
                st evs) as (_ & _ & Hev).
    rewrite Hev. eexists. split; [reflexivity|].
    intros H. apply in_app_or in H as [H|[H|[]]]; [|discriminate].
    now apply (not_saved_nav evs).
Qed.

Lemma field_loop_no_save (w : World) (oid : string) (fields : list WorkItem)
    (i : nat) (st : RunState) :
  exists evs, events (snd (field_loop args w oid i fields st)) = events st ++ evs /\
              ~ saved evs.
Proof.
  revert i st; induction fields as [|field rest IH]; intros i st; cbn [field_loop].
  - exists []. split; [now rewrite app_nil_r | intros []].
  - unfold bind.
    destruct (process_field_no_save (field_script w i) oid field st) as (e1 & H1 & HP1).
    destruct (process_field args (field_script w i) oid field st) as [[[|]|e] st'];
      cbn [snd] in H1; cbn [ret snd]; try (exists e1; now split).
    destruct (IH (S i) st') as (e2 & H2 & HP2).
    exists (e1 ++ e2). rewrite H2, H1, app_assoc. split; [reflexivity|].
    intros H. apply in_app_or in H. tauto.
Qed.

Lemma main_ready_end (w : World) (sheet : worksheet) (oid : string) :
  ready args w sheet oid -> fst (main args w) = ExitEnd.
Proof.
  intros (Hfile & Hwb & (start_row & Hstart & Hwork) & Hlaunch &
          canonical_url & Hlogin & Hoid & Hres).
  unfold main. rewrite Hfile, Hwb, Hstart, Hlaunch, Hlogin. cbn [negb].
  destruct (prescan args sheet start_row) as [|f fs]; [congruence|].
  apply str_truthy_ne in Hoid.
  assert (Hid : match object_id args with
                | Some given => if str_truthy given then Some given
                                else extract_object_id_from_url canonical_url
                | None => extract_object_id_from_url canonical_url
                end = Some oid).
  { destruct Hres as [-> | [[-> | ->] ->]]; [now rewrite Hoid | reflexivity | reflexivity]. }
  rewrite Hid, Hoid.
  now destruct (field_loop args w oid 1 (f :: fs) _).
Qed.

Lemma main_end_saves (w : World) :
  fst (main args w) = ExitEnd ->
  exists before, events (snd (main args w)) = before ++ [EvSave] /\ ~ saved before.
Proof.
  unfold main.
  destruct (file_exists w); cbn [negb]; [|discriminate].
  destruct (workbook w) as [sheet|]; [|discriminate].
  destruct (find_start_row args sheet) as [[start_row|]|]; try discriminate.
  destruct (prescan args sheet start_row) as [|f fs]; [discriminate|].
  destruct (launch w); [|intros _; exists []; split; [reflexivity | intros []]].
  destruct (login w) as [canonical_url|];
    [|intros _; exists [EvClose]; split; [reflexivity | intros [[=]|[]]]].
  destruct (match object_id args with
            | Some given => if str_truthy given then Some given
                            else extract_object_id_from_url canonical_url
            | None => extract_object_id_from_url canonical_url
            end) as [oid|]; [|discriminate].
  destruct (str_truthy oid); [|discriminate].
  destruct (field_loop_no_save w oid (f :: fs) 1
              {| ws := sheet; rows_inserted := 0; events := [] |}) as (e & He & HP).
  destruct (field_loop args w oid 1 (f :: fs) _) as [r st']. cbn [snd] in He.
  intros _. exists (e ++ [EvClose]). cbn [save_workbook log snd events] in *.
  rewrite He. split; [reflexivity|].
  intros H. apply in_app_or in H as [H|[[=]|[]]]. now apply HP.
Qed.

Lemma main_early_silent (w : World) :
  fst (main args w) <> ExitEnd -> ~ saved (events (snd (main args w))).
Proof.
  unfold main.
  destruct (file_exists w); cbn [negb]; [|intros _ []].
  destruct (workbook w) as [sheet|]; [|intros _ []].
  destruct (find_start_row args sheet) as [[start_row|]|]; try (intros _ []).
  destruct (prescan args sheet start_row) as [|f fs]; [intros _ []|].
  destruct (launch w); [|intros H; now destruct H].
  destruct (login w) as [canonical_url|]; [|intros H; now destruct H].
  destruct (match object_id args with
            | Some given => if str_truthy given then Some given
                            else extract_object_id_from_url canonical_url
            | None => extract_object_id_from_url canonical_url
            end) as [oid|]; [|intros _ [[=]|[]]].
  destruct (str_truthy oid); [|intros _ [[=]|[]]].
  destruct (field_loop args w oid 1 (f :: fs) _) as [r st']. intros H. now destruct H.
Qed.

Lemma main_saved_end (w : World) :
  saved (events (snd (main args w))) -> fst (main args w) = ExitEnd.
Proof.
  intros Hsaved. pose proof (main_early_silent w) as Hsilent.
  destruct (fst (main args w)); try reflexivity;
    exfalso; (apply Hsilent; [discriminate | exact Hsaved]).
Qed.

(** Each of the five conditions makes [main] return early. *)
Lemma main_stopped_early (w : World) :
  stopped_before_fields args w -> fst (main args w) <> ExitEnd.
Proof.
  unfold main.
  intros [Hf | [(Hf & e & Hwb) | [(Hf & sheet & Hwb & Hs) |
           [(Hf & sheet & start_row & Hwb & Hs & Hp) |
            (Hf & sheet & start_row & url & Hwb & Hs & Hp & Hl & Hlog & Hoid & Hex)]]]].
  - unfold missing_file in Hf. rewrite Hf. cbn [negb fst]. discriminate.
  - rewrite Hf, Hwb. cbn [negb fst]. discriminate.
  - rewrite Hf, Hwb, Hs. cbn [negb fst]. discriminate.
  - rewrite Hf, Hwb, Hs, Hp. cbn [negb fst]. discriminate.
  - rewrite Hf, Hwb, Hs, Hl, Hlog. cbn [negb].
    destruct (prescan args sheet start_row) as [|f fs]; [congruence|].
    destruct Hoid as [-> | ->].
    + rewrite Hex. cbn [fst]. discriminate.
    + change (str_truthy EmptyString) with false. cbv iota.
      rewrite Hex. cbn [fst]. discriminate.
Qed.

(** When the search for the start label runs to its end, an early return
    has one of the five conditions behind it. *)
Lemma main_early_cause (w : World) :
  label_search_completes args w -> fst (main args w) <> ExitEnd ->
  stopped_before_fields args w.
Proof.
  unfold label_search_completes, stopped_before_fields, main.
  intros Hsearch.
  destruct (file_exists w) eqn:Hf; cbn [negb]; [|intros _; now left].
  destruct (workbook w) as [sheet|e] eqn:Hwb;
    [|intros _; right; left; split; [exact Hf | now exists e]].
  destruct (Hsearch sheet eq_refl) as [start Hs]. rewrite Hs.
  destruct start as [start_row|];
    [|intros _; right; right; left; split; [exact Hf | now exists sheet]].
  destruct (prescan args sheet start_row) as [|f fs] eqn:Hp;
    [intros _; do 3 right; left; split; [exact Hf | now exists sheet, start_row]|].
  destruct (launch w) as [[]|] eqn:Hl; [|intros H; now destruct H].
  destruct (login w) as [url|] eqn:Hlog; [|intros H; now destruct H].
  assert (Hwork : prescan args sheet start_row <> []) by (rewrite Hp; discriminate).
  assert (Hnone : (object_id args = None \/ object_id args = Some EmptyString) ->
                  extract_object_id_from_url url = None ->
                  object_id_unresolved args w).
  { intros Hoid Hex. split; [exact Hf|].
    exists sheet, start_row, url. now rewrite Hp. }
  destruct (object_id args) as [given|] eqn:Hoid.
  - destruct (str_truthy given) eqn:Hg.
    + rewrite Hg. destruct (field_loop args w given 1 (f :: fs) _) as [r st'].
      intros H. now destruct H.
    + unfold str_truthy in Hg. apply negb_false_iff, String.eqb_eq in Hg. subst given.
      destruct (extract_object_id_from_url url) as [oid|] eqn:Hex.
      * rewrite (extract_object_id_nonempty _ _ Hex).
        destruct (field_loop args w oid 1 (f :: fs) _) as [r st'].
        intros H. now destruct H.
      * intros _. do 4 right. apply Hnone; [now right | reflexivity].
  - destruct (extract_object_id_from_url url) as [oid|] eqn:Hex.
    + rewrite (extract_object_id_nonempty _ _ Hex).
      destruct (field_loop args w oid 1 (f :: fs) _) as [r st'].
      intros H. now destruct H.
    + intros _. do 4 right. apply Hnone; [now left | reflexivity].
Qed.

(** C8, as amended: a run that comes to field processing (document loaded,
    object identifier resolved) makes one save attempt, the last thing it
    does, whatever happens to the fields; no run saves more than once or
    before its end.  A run with a missing file, an unreadable sheet, a start
    label that is on no row, an empty work list or an unresolved object
    identifier makes no save attempt; and when the search for the start
    label runs to its end, a run without a save attempt has one of these
    five behind it. *)
Theorem save_once_at_end (w : World) :
  let evs := events (snd (main args w)) in
  (forall sheet oid, ready args w sheet oid ->
     exists before, evs = before ++ [EvSave] /\ ~ saved before) /\
  (saved evs -> exists before, evs = before ++ [EvSave] /\ ~ saved before) /\
  (missing_file w \/ unreadable_sheet w \/ start_label_not_found args w \/
   nothing_to_process args w \/ object_id_unresolved args w -> ~ saved evs) /\
  (label_search_completes args w -> ~ saved evs ->
   missing_file w \/ unreadable_sheet w \/ start_label_not_found args w \/
   nothing_to_process args w \/ object_id_unresolved args w).
Proof.
  cbv zeta. split_and!.
  - intros sheet oid Hready.
    apply main_end_saves. now apply (main_ready_end w sheet oid).
  - intros Hsaved. now apply main_end_saves, main_saved_end.
  - intros Hcause. now apply main_early_silent, main_stopped_early.
  - intros Hsearch Hsilent. apply (main_early_cause w Hsearch).
    intros Hend. apply Hsilent.
    destruct (main_end_saves w Hend) as (before & -> & _).
    apply in_or_app. right. now left.
Qed.

End Saving.

(** Every field of the sheet is processed already: the run loads the
    document, finds nothing to do and ends without a save attempt, although
    the file is there, the sheet is readable and an object identifier is
    given. *)
Lemma nothing_to_process_no_save :
  let w := world_of sheet_all_done retry_script in
  file_exists w = true /\
  workbook w = Ok sheet_all_done /\
  object_id no_args = Some "01I5e000000abcd"%string /\
  fst (main (pystr := ascii_pystr) no_args w) = ExitNothingToProcess /\
  ~ saved (events (snd (main (pystr := ascii_pystr) no_args w))).
Proof.
  cbv zeta.
  split_and!; [reflexivity | reflexivity | reflexivity | vm_compute; reflexivity |].
  vm_compute. intros [].
Qed.

Lemma save_once_at_end_witness :
  let ready_world := world_of sheet_one_field retry_script in
  let done_world := world_of sheet_all_done retry_script in
  let ready_events := events (snd (main (pystr := ascii_pystr) no_args ready_world)) in
  let done_events := events (snd (main (pystr := ascii_pystr) limit_args done_world)) in
  (ready (pystr := ascii_pystr) no_args ready_world sheet_one_field "01I5e000000abcd" /\
   saved ready_events /\
   exists before, ready_events = before ++ [EvSave] /\ ~ saved before) /\
  (nothing_to_process (pystr := ascii_pystr) limit_args done_world /\
   label_search_completes (pystr := ascii_pystr) limit_args done_world /\
   ~ saved done_events /\
   (missing_file done_world \/ unreadable_sheet done_world \/
    start_label_not_found (pystr := ascii_pystr) limit_args done_world \/
    nothing_to_process (pystr := ascii_pystr) limit_args done_world \/
    object_id_unresolved (pystr := ascii_pystr) limit_args done_world)).
Proof.
  cbv zeta.
  destruct (save_once_at_end (pystr := ascii_pystr) no_args
              (world_of sheet_one_field retry_script)) as (Hready & Honce & _).
  destruct (save_once_at_end (pystr := ascii_pystr) limit_args
              (world_of sheet_all_done retry_script)) as (_ & _ & Hcause & Honly).
  assert (Hr : ready (pystr := ascii_pystr) no_args
                 (world_of sheet_one_field retry_script) sheet_one_field
                 "01I5e000000abcd").
  { unfold ready. split_and!; try reflexivity.
    - exists 2. split; [reflexivity | vm_compute; discriminate].
    - eexists. split_and!; [reflexivity | discriminate | left; reflexivity]. }
  assert (Hsaved : saved (events (snd (main (pystr := ascii_pystr) no_args
                                         (world_of sheet_one_field retry_script))))).
  { destruct (Hready _ _ Hr) as (before & Heq & _). rewrite Heq.
    apply in_or_app. right. now left. }
  assert (Hnothing : nothing_to_process (pystr := ascii_pystr) limit_args
                       (world_of sheet_all_done retry_script)).
  { split; [reflexivity|]. exists sheet_all_done, 2.
    split_and!; [reflexivity | vm_compute; reflexivity | vm_compute; reflexivity]. }
  assert (Hsearch : label_search_completes (pystr := ascii_pystr) limit_args
                      (world_of sheet_all_done retry_script)).
  { intros sheet [= <-]. exists (Some 2). vm_compute. reflexivity. }
  assert (Hsilent : ~ saved (events (snd (main (pystr := ascii_pystr) limit_args
                                            (world_of sheet_all_done retry_script))))).
  { apply Hcause. do 3 right. left. exact Hnothing. }
  split; split_and!.
  - exact Hr.
  - exact Hsaved.
  - exact (Honce Hsaved).
  - exact Hnothing.
  - exact Hsearch.
  - exact Hsilent.
  - exact (Honly Hsearch Hsilent).
Defined.

(** ** The theorems at work on concrete inputs *)

Lemma filter_dedup_contract_witness :
  last_flow_occurrence ("Flow", "Flow X", "url2")%string scenario_A.
Proof.
  destruct (filter_dedup_contract scenario_A) as (F & Heq & _ & Hlast & _).
  apply Hlast.
  assert (HF : F = [("Flow", "Flow X", "url2")%string]).
  { apply (app_inv_head (passthrough scenario_A)). rewrite <- Heq. reflexivity. }
  rewrite HF. now left.
Defined.

Lemma filter_dedup_flow_order_witness :
  exists F, filter_dedup scenario_A = passthrough scenario_A ++ F /\
            last_flow_occurrence ("Flow", "Flow X", "url2")%string scenario_A.
Proof.
  destruct (filter_dedup_flow_order scenario_A) as (F & Heq & _ & Hlast).
  exists F. split; [exact Heq|].
  apply Hlast.
  assert (HF : F = [("Flow", "Flow X", "url2")%string]).
  { apply (app_inv_head (passthrough scenario_A)). rewrite <- Heq. reflexivity. }
  rewrite HF. now left.
Defined.

Lemma merge_writer_correct_witness :
  let st' := merge_writer 2 "https://x/field" (filter_dedup scenario_A)
               (state0 sheet_one_field) in
  filter_dedup scenario_A <> [] /\
  rows_inserted st' = 0 + 2 /\
  ws_cell (ws st') 4 10 = {| value := VStr "Flow X"; hyperlink := Some "url2"%string |}.
Proof.
  cbv zeta.
  assert (Hne : filter_dedup scenario_A <> []) by discriminate.
  destruct (merge_writer_correct 2 "https://x/field" (filter_dedup scenario_A)
              (state0 sheet_one_field)) as [Ha _].
  destruct (Ha Hne) as (Hcount & _ & _ & _ & _ & Hrow).
  split; [exact Hne|]. split; [exact Hcount|].
  destruct (Hrow 1%nat "Flow" "Flow X" "url2"%string eq_refl) as (_ & H10 & _).
  exact H10.
Defined.

Lemma extract_reference_link_witness :
  extract_reference_link (pystr := ascii_pystr) no_args row_with_srcUp 1
  = "https://x.my.salesforce.com/00h5e000000abcd?isdtp=p1"%string.
Proof.
  destruct (extract_reference_link_correct (pystr := ascii_pystr) no_args row_with_srcUp 1)
    as (Hpseudo & _).
  apply (Hpseudo "javascript:srcUp('/00h5e000000abcd?isdtp=p1');"%string
                 "/00h5e000000abcd?isdtp=p1"%string).
  - exists [], {| href := Ok (Some "javascript:srcUp(%27%2F00h5e000000abcd%3Fisdtp%3Dp1%27);"%string) |}, [].
    split; [reflexivity|]. split; [intros b []|]. split.
    + eexists. split; [reflexivity|]. split; [discriminate | reflexivity].
    + eexists. apply resolves_pseudo with (p := "/00h5e000000abcd?isdtp=p1"%string);
        reflexivity.
  - reflexivity.
  - reflexivity.
Defined.


(* ================================================================== *)
(** * Further properties of the script *)
(* ================================================================== *)

(** ** Field identifier *)

Lemma field_candidates_shape (s g : string) :
  In g (match_candidates field_id_pattern s) -> field_id_shape g.
Proof.
  rewrite match_candidates_In. simpl.
  intros (c1 & c3 & r & _ & _ &
          (a1 & b1 & -> & -> & (a2 & b2 & -> & (Hc & Hlo & Hhi) & ->)) & _).
  exists a2. rewrite sapp_nil_r. auto.
Qed.

Lemma re_search_field_shape (s g : string) :
  re_search field_id_pattern s = Some g -> field_id_shape g.
Proof.
  intros H. apply re_search_Some in H as (_ & rest & _ & Hm & _).
  apply (field_candidates_shape rest). now apply head_In.
Qed.

Section FieldId.

Context {pystr : PyStr}.

Lemma extract_field_id_shape (url id : string) :
  extract_field_id_from_url url = Some id -> field_id_shape id.
Proof.
  unfold extract_field_id_from_url.
  destruct (re_search field_id_pattern url) as [g|] eqn:E.
  - intros [= <-]. now apply (re_search_field_shape url).
  - destruct (after_first "address=" url) as [rest|]; [|discriminate].
    apply re_search_field_shape.
Qed.

(** X1: whatever [extract_field_id_from_url] returns is [00N] followed by 12
    to 15 alphanumeric characters, from the path or from the [address]
    parameter. *)
Theorem extract_field_id_from_url_shape (url id : string) :
  extract_field_id_from_url url = Some id ->
  exists body, id = "00N" +:+ body /\ all_chars is_alnum body /\
               (12 <= String.length body <= 15)%nat.
Proof. apply extract_field_id_shape. Qed.

End FieldId.

Lemma class_run_app_exact (cls : ascii -> bool) (a r : string) :
  all_chars cls a ->
  class_run cls (a +:+ r) = (String.length a + class_run cls r)%nat.
Proof.
  induction a as [|c a IH]; simpl; [reflexivity|].
  intros [-> Ha]. now rewrite IH.
Qed.

Lemma counts_down_head (lo n : nat) :
  (lo <= n)%nat -> exists tl, counts_down lo n = n :: tl.
Proof.
  intros H. destruct n as [|n]; simpl.
  - destruct lo; [eauto | lia].
  - destruct (Nat.ltb_spec (S n) lo); [lia | eauto].
Qed.

(** The greedy repetition takes as many characters as the bounds allow. *)
Lemma match_here_field_greedy (body rest : string) :
  all_chars is_alnum body ->
  (12 <= String.length body <= 15)%nat ->
  (String.length body = 15%nat \/ class_run is_alnum rest = 0%nat) ->
  match_here field_id_pattern ("/00N" +:+ body +:+ rest) = Some ("00N" +:+ body).
Proof.
  intros Hc Hlen Hmax.
  unfold match_here, match_candidates.
  cbn [field_id_pattern before group after atoms_matches atom_matches].
  change ("/00N" +:+ body +:+ rest) with ("/" +:+ "00N" +:+ body +:+ rest).
  rewrite strip_prefix_app. cbn [flat_map map app].
  rewrite strip_prefix_app. cbn [flat_map map app].
  assert (Hn : Nat.min (class_run is_alnum (body +:+ rest)) 15 = String.length body).
  { rewrite class_run_app_exact by assumption. lia. }
  rewrite Hn.
  destruct (counts_down_head 12 (String.length body) ltac:(lia)) as [tl ->].
  cbn [map flat_map app]. rewrite split_at_app. cbn [map flat_map app head].
  now rewrite !sapp_nil_r.
Qed.

(** X2: an identifier in the path is taken greedily: of [/00N] followed by
    alphanumeric characters the extractor returns [00N] and the run of
    alphanumerics, cut after 15 of them. *)
Theorem extract_field_id_from_url_greedy {pystr : PyStr} (body rest : string) :
  all_chars is_alnum body ->
  (12 <= String.length body <= 15)%nat ->
  (String.length body = 15%nat \/ class_run is_alnum rest = 0%nat) ->
  extract_field_id_from_url ("/00N" +:+ body +:+ rest) = Some ("00N" +:+ body).
Proof.
  intros Hc Hlen Hmax. unfold extract_field_id_from_url.
  now rewrite (re_search_here _ _ _ (match_here_field_greedy body rest Hc Hlen Hmax)).
Qed.

Lemma extract_field_id_from_url_shape_witness :
  exists body, "00N5e00000abcde"%string = "00N" +:+ body /\ all_chars is_alnum body /\
               (12 <= String.length body <= 15)%nat.
Proof.
  apply (extract_field_id_from_url_shape (pystr := ascii_pystr)
           "https://x/one/one.app#/alohaRedirect?address=%2F00N5e00000abcde%3Fsetupid%3DX").
  vm_compute. reflexivity.
Defined.

Lemma extract_field_id_from_url_greedy_witness :
  extract_field_id_from_url (pystr := ascii_pystr) "/00N5e00000abcdefghijklmnop/view"
  = Some "00N5e00000abcdefgh"%string.
Proof.
  apply (extract_field_id_from_url_greedy (pystr := ascii_pystr)
           "5e00000abcdefgh" "ijklmnop/view").
  - simpl. tauto.
  - simpl. lia.
  - left. reflexivity.
Defined.

(** ** Escaping the label for the selectors *)

Lemma escaped_cons (c : ascii) (l : string) :
  escaped_for_css_string (String c l) =
  if Ascii.eqb c "\" then String "\" (String "\" (escaped_for_css_string l))
  else if Ascii.eqb c "'" then String "\" (String "'" (escaped_for_css_string l))
  else String c (escaped_for_css_string l).
Proof.
  unfold escaped_for_css_string. cbn [replace_char].
  destruct (Ascii.eqb_spec c "\") as [->|Hb]; [reflexivity|].
  cbn [replace_char].
  destruct (Ascii.eqb_spec c "'") as [->|Hq]; reflexivity.
Qed.

Lemma read_quoted_escaped (field_label rest : string) :
  read_quoted (escaped_for_css_string field_label +:+ "'" +:+ rest)
  = Some (field_label, rest).
Proof.
  induction field_label as [|c l IH]; [reflexivity|].
  rewrite escaped_cons. remember (escaped_for_css_string l) as e eqn:He. clear He.
  destruct (Ascii.eqb_spec c "\") as [->|Hb].
  - simpl in *. now rewrite IH.
  - destruct (Ascii.eqb_spec c "'") as [->|Hq].
    + simpl in *. now rewrite IH.
    + simpl in *. apply Ascii.eqb_neq in Hb, Hq. now rewrite Hq, Hb, IH.
Qed.

(** X3: the escaped label reads back as the label: in both selectors that
    embed it, the quoted literal denotes the label and ends where the script
    closes it, whatever quotes and backslashes the label holds. *)
Theorem escaped_label_reads_back (field_label : string) :
  (exists e, has_text_selector field_label = "a:has-text('" +:+ e /\
             read_quoted e = Some (field_label, ")"%string)) /\
  (exists e, title_selector field_label = "a[title='" +:+ e /\
             read_quoted e = Some (field_label, "]"%string)).
Proof.
  split; eexists; (split; [reflexivity|]); apply read_quoted_escaped.
Qed.

Example escaped_label_example :
  has_text_selector "Owner's \ Team" = "a:has-text('Owner\'s \\ Team')"%string.
Proof. reflexivity. Qed.

(** ** Clicking the field in the table *)

Section Clicking.

Context {pystr : PyStr}.

Lemma links_loop_pass (field_label : string) (link : Link) (rest : list Link)
    (st : RunState) :
  passed_by field_label link ->
  exists evs, links_loop field_label (link :: rest) st
              = links_loop field_label rest (add_events st evs).
Proof.
  intros Hpass. cbn [links_loop]. unfold bind, try_except, lift, emit, ret.
  destruct (link_inner_text link) as [text|e] eqn:Ht;
    [|exists []; now rewrite add_events_nil].
  destruct (String.eqb_spec (py_lower (py_strip text)) (py_lower field_label))
    as [Heq|Hne]; [|exists []; now rewrite add_events_nil].
  destruct (link_click link) as [url|e] eqn:Hc.
  - exfalso. apply (Hpass url). now exists text.
  - exists [EvClick text]. reflexivity.
Qed.

Lemma links_loop_click (field_label : string) (link : Link) (rest : list Link)
    (url : string) (st : RunState) :
  clickable field_label link url ->
  fst (links_loop field_label (link :: rest) st)
  = Ok (Some (extract_field_id_from_url url)).
Proof.
  intros (text & Ht & Heq & Hc). cbn [links_loop].
  unfold bind, try_except, lift, emit, ret. rewrite Ht.
  apply String.eqb_eq in Heq. rewrite Heq, Hc.
  now destruct (extract_field_id_from_url url).
Qed.

Lemma links_loop_first (field_label : string) (pre post : list Link) (link : Link)
    (url : string) (st : RunState) :
  (forall l, In l pre -> passed_by field_label l) ->
  clickable field_label link url ->
  fst (links_loop field_label (pre ++ link :: post) st)
  = Ok (Some (extract_field_id_from_url url)).
Proof.
  revert st; induction pre as [|l pre IH]; intros st Hpre Hc.
  - now apply links_loop_click.
  - destruct (links_loop_pass field_label l (pre ++ link :: post) st) as [evs Hevs];
      [apply Hpre; now left|].
    change ((l :: pre) ++ link :: post) with (l :: pre ++ link :: post).
    rewrite Hevs. apply IH; [|assumption]. intros l' Hl'. apply Hpre. now right.
Qed.

Lemma links_loop_none (field_label : string) (links : list Link) (st : RunState) :
  (forall l, In l links -> passed_by field_label l) ->
  exists evs, links_loop field_label links st = (Ok None, add_events st evs).
Proof.
  revert st; induction links as [|l links IH]; intros st Hall.
  - exists []. now rewrite add_events_nil.
  - destruct (links_loop_pass field_label l links st) as [e1 H1]; [apply Hall; now left|].
    destruct (IH (add_events st e1)) as [e2 H2]; [intros l' Hl'; apply Hall; now right|].
    exists (e1 ++ e2). now rewrite H1, H2, add_events_app.
Qed.

(** The loop over the links does not raise, and an identifier it returns has
    the shape of a field identifier. *)
Lemma links_loop_result (field_label : string) (links : list Link) (st : RunState) :
  exists r, fst (links_loop field_label links st) = Ok r /\
            forall id, r = Some (Some id) -> field_id_shape id.
Proof.
  revert st; induction links as [|l links IH]; intros st.
  - exists None. split; [reflexivity | discriminate].
  - cbn [links_loop]. unfold bind, try_except, lift, emit, ret.
    destruct (link_inner_text l) as [text|e]; [|apply IH].
    destruct (String.eqb (py_lower (py_strip text)) (py_lower field_label)); [|apply IH].
    destruct (link_click l) as [url|e]; [|apply IH].
    destruct (extract_field_id_from_url url) as [id|] eqn:E; cbn [fst].
    + exists (Some (Some id)). split; [reflexivity|]. intros id' [= <-].
      now apply (extract_field_id_shape url).
    + exists (Some None). split; [reflexivity | discriminate].
Qed.

Lemma selector_loop_pass (view : SearchView) (field_label : string) (sel : Selector)
    (rest : list Selector) (st : RunState) :
  selector_fails view field_label sel ->
  exists evs, selector_loop view field_label (sel :: rest) st
              = selector_loop view field_label rest (add_events st evs).
Proof.
  unfold selector_fails. intros Hf. cbn [selector_loop].
  unfold bind at 1, try_except, bind at 1, lift.
  destruct (locate view sel) as [links|e]; [|exists []; now rewrite add_events_nil].
  destruct (links_loop_none field_label links st Hf) as [evs ->]. now exists evs.
Qed.

Lemma selector_loop_result (view : SearchView) (field_label : string)
    (selectors : list Selector) (st : RunState) :
  exists r, fst (selector_loop view field_label selectors st) = Ok r /\
            forall id, r = Some id -> field_id_shape id.
Proof.
  revert st; induction selectors as [|sel rest IH]; intros st.
  - exists None. split; [reflexivity | discriminate].
  - cbn [selector_loop]. unfold bind at 1, try_except, bind at 1, lift.
    destruct (locate view sel) as [links|e]; [|apply IH].
    destruct (links_loop_result field_label links st) as (r & Hr & Hshape).
    destruct (links_loop field_label links st) as [res st']. cbn [fst] in Hr. subst res.
    destruct r as [[id|]|]; cbn [ret fst].
    + exists (Some id). split; [reflexivity|]. intros id' [= <-]. now apply Hshape.
    + exists None. split; [reflexivity | discriminate].
    + apply IH.
Qed.

(** X4: [click_field_from_table] stops at the first link that matches the
    label and whose click goes through, in the order of the selectors and of
    the links: it returns the field identifier of the URL reached, or [None]
    when that URL has none; later links and selectors are not tried. *)
Theorem click_field_from_table_first_match (view : SearchView)
    (field_label : string) (field_api_name : pyval)
    (failed later : list Selector) (selector : Selector)
    (pre post : list Link) (link : Link) (url : string) (st : RunState) :
  field_link_selectors = failed ++ selector :: later ->
  (forall s, In s failed -> selector_fails view field_label s) ->
  locate view selector = Ok (pre ++ link :: post) ->
  (forall l, In l pre -> passed_by field_label l) ->
  clickable field_label link url ->
  fst (click_field_from_table view (VStr field_label) field_api_name st)
  = Ok (extract_field_id_from_url url).
Proof.
  intros Hsel Hfailed Hloc Hpre Hclick. cbn [click_field_from_table]. rewrite Hsel.
  clear Hsel. revert st; induction failed as [|s failed IH]; intros st.
  - cbn [app selector_loop]. unfold bind at 1, try_except, bind at 1, lift.
    rewrite Hloc.
    pose proof (links_loop_first field_label pre post link url st Hpre Hclick) as H.
    destruct (links_loop field_label (pre ++ link :: post) st) as [res st'].
    cbn [fst] in H. subst res. reflexivity.
  - destruct (selector_loop_pass view field_label s (failed ++ selector :: later) st)
      as [evs Hevs]; [apply Hfailed; now left|].
    change ((s :: failed) ++ selector :: later) with (s :: failed ++ selector :: later).
    rewrite Hevs. apply IH. intros s' Hs'. apply Hfailed. now right.
Qed.

Lemma click_field_from_table_result (view : SearchView) (field_label field_api_name : pyval)
    (st : RunState) :
  match fst (click_field_from_table view field_label field_api_name st) with
  | Ok (Some id) => field_id_shape id
  | _ => True
  end.
Proof.
  destruct field_label as [|s|z|b]; cbn [click_field_from_table raise fst]; try exact I.
  destruct (selector_loop_result view s field_link_selectors st) as (r & -> & Hshape).
  destruct r as [id|]; [now apply Hshape | exact I].
Qed.

Lemma find_search_box_none (script : FieldScript) (selectors : list string) :
  (forall sel, In sel selectors -> quick_find_visible script sel <> Ok true) ->
  find_search_box script selectors = None.
Proof.
  induction selectors as [|sel rest IH]; intros H; [reflexivity|].
  cbn [find_search_box].
  destruct (quick_find_visible script sel) as [[|]|e] eqn:E;
    try (apply IH; intros s Hs; apply H; now right).
  exfalso. apply (H sel); [now left | assumption].
Qed.

(** X6: without a visible quick find box the search is given up at once:
    nothing is typed or clicked and the answer is [None]. *)
Theorem quick_find_without_box (script : FieldScript) (field_label field_api_name : pyval)
    (st : RunState) :
  (forall sel, In sel quick_find_selectors -> quick_find_visible script sel <> Ok true) ->
  use_fields_page_quick_find script field_label field_api_name st = (Ok None, st).
Proof.
  intros H. unfold use_fields_page_quick_find.
  now rewrite (find_search_box_none script quick_find_selectors H).
Qed.

(** [use_fields_page_quick_find] does not raise, and an identifier it
    returns has the shape of a field identifier. *)
Lemma use_fields_page_quick_find_result (script : FieldScript)
    (field_label field_api_name : pyval) (st : RunState) :
  exists r, fst (use_fields_page_quick_find script field_label field_api_name st) = Ok r /\
            forall id, r = Some id -> field_id_shape id.
Proof.
  unfold use_fields_page_quick_find.
  destruct (find_search_box script quick_find_selectors) as [box|];
    [|exists None; split; [reflexivity | discriminate]].
  unfold try_except, bind at 1 2. rewrite trigger_search_run.
  set (st1 := add_events st [EvSearch field_label]).
  assert (Hnone : exists r : option string, (Ok None : result (option string)) = Ok r /\
                    forall id, r = Some id -> field_id_shape id).
  { exists None. split; [reflexivity | discriminate]. }
  destruct (search_events (label_view script)) as [u1|e1].
  - pose proof (click_field_from_table_result (label_view script) field_label
                  field_api_name st1) as H1.
    destruct (click_field_from_table (label_view script) field_label field_api_name st1)
      as [[[id|]|err] st2]; cbn [fst] in H1; cbn [ret fst].
    + exists (Some id). split; [reflexivity|]. now intros id' [= <-].
    + unfold bind. rewrite trigger_search_run.
      destruct (search_events (api_name_view script)) as [u2|e2]; [|exact Hnone].
      pose proof (click_field_from_table_result (api_name_view script) field_label
                    field_api_name (add_events st2 [EvSearch field_api_name])) as H2.
      destruct (click_field_from_table (api_name_view script) field_label field_api_name
                  (add_events st2 [EvSearch field_api_name])) as [[[id|]|err] st3];
        cbn [fst] in H2; cbn [ret fst]; try exact Hnone.
      exists (Some id). split; [reflexivity|]. now intros id' [= <-].
    + exact Hnone.
  - cbn [ret]. unfold bind. rewrite trigger_search_run.
    destruct (search_events (api_name_view script)) as [u2|e2]; [|exact Hnone].
    pose proof (click_field_from_table_result (api_name_view script) field_label
                  field_api_name (add_events st1 [EvSearch field_api_name])) as H2.
    destruct (click_field_from_table (api_name_view script) field_label field_api_name
                (add_events st1 [EvSearch field_api_name])) as [[[id|]|err] st3];
      cbn [fst] in H2; cbn [ret fst]; try exact Hnone.
    exists (Some id). split; [reflexivity|]. now intros id' [= <-].
Qed.

End Clicking.

Section Finding.

Context {pystr : PyStr} (args : Args).

(** X7: [use_fields_page_quick_find] never raises, and the identifier it
    returns, if any, is [00N] followed by 12 to 15 alphanumeric
    characters. *)
Theorem use_fields_page_quick_find_safe (script : FieldScript)
    (field_label field_api_name : pyval) (st : RunState) :
  exists r, fst (use_fields_page_quick_find script field_label field_api_name st) = Ok r /\
            forall id, r = Some id -> field_id_shape id.
Proof. apply use_fields_page_quick_find_result. Qed.

(** X5: a field whose label cell is not text is never found: the answer is
    [None] and no link is clicked, whatever the page shows. *)
Theorem non_text_label_not_found (script : FieldScript)
    (field_label field_api_name : pyval) (st : RunState) :
  (forall s, field_label <> VStr s) ->
  fst (use_fields_page_quick_find script field_label field_api_name st) = Ok None /\
  exists evs,
    snd (use_fields_page_quick_find script field_label field_api_name st)
      = add_events st evs /\
    forall text, ~ In (EvClick text) evs.
Proof.
  intros Hlabel. split.
  - unfold use_fields_page_quick_find.
    destruct (find_search_box script quick_find_selectors) as [box|]; [|reflexivity].
    unfold try_except, bind. rewrite !trigger_search_run.
    destruct field_label as [|s|z|b]; try (now destruct (Hlabel s));
      cbn [click_field_from_table raise ret];
      destruct (search_events (label_view script)); cbn [fst ret]; try reflexivity;
      rewrite trigger_search_run;
      destruct (search_events (api_name_view script)); reflexivity.
  - destruct (use_fields_page_quick_find_events script field_label field_api_name st)
      as (evs & Hst & Hevs).
    exists evs. split; [assumption|].
    assert (Hnil : forall c, Forall (click_matching field_label) c -> c = []).
    { intros [|e c] Hc; [reflexivity|]. inversion Hc as [|? ? (t & _ & s & Hs & _) _].
      now destruct (Hlabel s). }
    intros text Hin.
    destruct Hevs as [-> | (c1 & H1 & [-> | (c2 & H2 & ->)])]; [destruct Hin | |].
    + rewrite (Hnil c1 H1) in Hin. destruct Hin as [[=]|[]].
    + rewrite (Hnil c1 H1), (Hnil c2 H2) in Hin. destruct Hin as [[=]|[[=]|[]]].
Qed.

(** X8: [find_field_and_get_dependencies] never raises, and it answers
    [True] only when the dependencies page of a well-formed field identifier
    was opened, at the URL built from the object and field identifiers, and
    did not show 'Insufficient Privileges'. *)
Theorem find_field_and_get_dependencies_safe (script : FieldScript)
    (field_label field_api_name : pyval) (object_id : string) (st : RunState) :
  exists b,
    fst (find_field_and_get_dependencies args script field_label field_api_name
           object_id st) = Ok b /\
    (b = true ->
     exists field_id,
       field_id_shape field_id /\
       dependencies_goto script (dependencies_url_of args object_id field_id) = Ok false).
Proof.
  unfold find_field_and_get_dependencies, bind.
  destruct (use_fields_page_quick_find_result script field_label field_api_name st)
    as (r & Hr & Hshape).
  destruct (use_fields_page_quick_find script field_label field_api_name st)
    as [res st1]. cbn [fst] in Hr. subst res.
  destruct r as [field_id|]; [|exists false; split; [reflexivity | discriminate]].
  unfold navigate_to_field_dependencies_page, try_except, bind, lift, ret.
  fold (dependencies_url_of args object_id field_id).
  destruct (dependencies_goto script (dependencies_url_of args object_id field_id))
    as [[|]|e] eqn:E; cbn [fst negb].
  - exists false. split; [reflexivity | discriminate].
  - exists true. split; [reflexivity|]. intros _. exists field_id. split; auto.
  - exists false. split; [reflexivity | discriminate].
Qed.

End Finding.

Lemma non_text_label_not_found_witness :
  fst (use_fields_page_quick_find (pystr := ascii_pystr) retry_script
         (VNum 2023) (VStr "Year__c") (state0 ∅)) = Ok None.
Proof.
  apply (non_text_label_not_found (pystr := ascii_pystr) retry_script
           (VNum 2023) (VStr "Year__c") (state0 ∅)).
  intros s. discriminate.
Defined.

Lemma find_field_and_get_dependencies_safe_witness :
  exists field_id,
    field_id_shape field_id /\
    dependencies_goto retry_script
      (dependencies_url_of no_args "01I5e000000abcd" field_id) = Ok false.
Proof.
  destruct (find_field_and_get_dependencies_safe (pystr := ascii_pystr) no_args
              retry_script (VStr "My Field") (VStr "My_Field__c") "01I5e000000abcd"
              (state0 ∅)) as (b & Hb & Htrue).
  apply Htrue. vm_compute in Hb. now injection Hb as <-.
Defined.

Lemma click_field_from_table_first_match_witness :
  fst (click_field_from_table (pystr := ascii_pystr) (api_name_view retry_script)
         (VStr "My Field") (VStr "My_Field__c") (state0 ∅))
  = Ok (Some "00N5e00000abcde"%string).
Proof.
  apply (click_field_from_table_first_match (pystr := ascii_pystr)
           (api_name_view retry_script) "My Field" (VStr "My_Field__c")
           [] [SelThTextMatches; SelTdTextMatches; SelTitle] SelHasText [] []
           {| link_inner_text := Ok "My Field"%string;
              link_click :=
                Ok "https://x/lightning/setup/ObjectManager/Account/FieldsAndRelationships/00N5e00000abcde/view"%string |}
           "https://x/lightning/setup/ObjectManager/Account/FieldsAndRelationships/00N5e00000abcde/view"
           (state0 ∅)).
  - reflexivity.
  - intros s [].
  - reflexivity.
  - intros l [].
  - exists "My Field"%string. split_and!; reflexivity.
Defined.

Lemma quick_find_without_box_witness :
  use_fields_page_quick_find (pystr := ascii_pystr) no_box_script
    (VStr "My Field") (VStr "My_Field__c") (state0 ∅) = (Ok None, state0 ∅).
Proof.
  apply (quick_find_without_box (pystr := ascii_pystr)).
  intros sel _. discriminate.
Defined.

(** ** Dependency table parser *)

Lemma filter_dedup_flows (l : list Ref) :
  flows (filter_dedup l) = dict_values (store_flows (flows l) []).
Proof.
  rewrite filter_dedup_spec. unfold flows at 1. rewrite List.filter_app.
  fold (flows (passthrough l)) (flows (dict_values (store_flows (flows l) []))).
  rewrite flows_passthrough.
  destruct (all_flows (dict_values (store_flows (flows l) []))) as [-> _];
    [|reflexivity].
  intros r Hr. now apply stored_flow_is_last in Hr as [? _].
Qed.

Lemma filter_dedup_contract_parts (l : list Ref) :
  List.NoDup (map ref_name (flows (filter_dedup l))) /\
  forall r, In r (filter_dedup l) -> ref_type r <> "ReportType"%string.
Proof.
  split.
  - rewrite filter_dedup_flows, store_flows_names. apply first_occurrences_NoDup.
  - intros r. rewrite filter_dedup_spec, in_app_iff. intros [Hin|Hin].
    + unfold passthrough in Hin. apply filter_In in Hin as [_ Hp].
      apply andb_prop in Hp as [Hp _]. unfold is_excluded in Hp.
      apply negb_true_iff, String.eqb_neq in Hp. exact Hp.
    + apply stored_flow_is_last in Hin as [Hf _]. unfold is_flow in Hf.
      apply String.eqb_eq in Hf. rewrite Hf. discriminate.
Qed.

Lemma iframe_loop_Some (frames : list Iframe) (frame : Iframe) :
  iframe_loop frames = Some frame <->
  exists pre post, frames = pre ++ frame :: post /\ frame_qualifies frame /\
                   forall g, In g pre -> ~ frame_qualifies g.
Proof.
  induction frames as [|f frames IH]; cbn [iframe_loop].
  - split; [discriminate|]. intros (pre & post & H & _). now destruct pre.
  - assert (Hskip : ~ frame_qualifies f ->
      (iframe_loop frames = Some frame <->
       exists pre post, f :: frames = pre ++ frame :: post /\ frame_qualifies frame /\
                        forall g, In g pre -> ~ frame_qualifies g)).
    { intros Hnq. rewrite IH. split.
      - intros (pre & post & -> & Hq & Hpre). exists (f :: pre), post.
        split; [reflexivity|]. split; [assumption|].
        intros g [<-|Hg]; auto.
      - intros (pre & post & He & Hq & Hpre). destruct pre as [|f' pre].
        + injection He as -> _. contradiction.
        + injection He as <- ->. exists pre, post. split; [reflexivity|].
          split; [assumption|]. intros g Hg. apply Hpre. now right. }
    fold (has_marker).
    destruct (body_text f) as [text|e] eqn:Et.
    + change (contains "Reference Type" text || contains "Layout" text
              || contains "Component Type" text) with (has_marker text).
      destruct (has_marker text) eqn:Em.
      * destruct (data_row_wait f) as [u|e] eqn:Ew.
        -- split.
           ++ intros [= <-]. exists [], frames. split; [reflexivity|].
              split; [|intros g []]. exists text. eauto.
           ++ intros (pre & post & He & Hq & Hpre). destruct pre as [|f' pre].
              ** now injection He as ->.
              ** injection He as <- ->. exfalso. apply (Hpre f); [now left|].
                 exists text. eauto.
        -- apply Hskip. intros (t & Ht & _ & u & Hu). congruence.
      * apply Hskip. intros (t & Ht & Hm & _). congruence.
    + apply Hskip. intros (t & Ht & _). congruence.
Qed.

(** X9: [find_dependencies_iframe] answers with the first frame whose text
    shows a known header and whose data rows appear; a timeout while waiting
    for frames gives [None], any other error there is raised. *)
Theorem find_dependencies_iframe_first (page : DepsPage) (st : RunState) :
  snd (find_dependencies_iframe page st) = st /\
  (forall frames frame,
     iframe_wait page = Ok tt -> iframes page = Ok frames ->
     (fst (find_dependencies_iframe page st) = Ok (Some frame) <->
      exists pre post, frames = pre ++ frame :: post /\ frame_qualifies frame /\
                       forall g, In g pre -> ~ frame_qualifies g)) /\
  (iframe_wait page = Exc PWTimeout ->
     fst (find_dependencies_iframe page st) = Ok None) /\
  (iframe_wait page = Exc Error ->
     fst (find_dependencies_iframe page st) = Exc Error).
Proof.
  unfold find_dependencies_iframe, try_except, bind, lift, ret, raise.
  split_and!.
  - destruct (iframe_wait page) as [u|[|]]; [|reflexivity|reflexivity].
    destruct (iframes page) as [frames|[|]]; reflexivity.
  - intros frames frame -> ->. cbn [fst]. rewrite <- iframe_loop_Some.
    split; congruence.
  - now intros ->.
  - now intros ->.
Qed.

Section Parsing.

Context {pystr : PyStr} (args : Args).

Lemma find_dependencies_iframe_In (page : DepsPage) (st : RunState) (frame : Iframe) :
  fst (find_dependencies_iframe page st) = Ok (Some frame) ->
  exists frames, iframes page = Ok frames /\ In frame frames /\ frame_qualifies frame.
Proof.
  unfold find_dependencies_iframe, try_except, bind, lift, ret, raise.
  destruct (iframe_wait page) as [u|[|]]; try discriminate.
  destruct (iframes page) as [frames|[|]]; try discriminate.
  cbn [fst]. intros [= H]. apply iframe_loop_Some in H as (pre & post & -> & Hq & _).
  exists (pre ++ frame :: post). split; [reflexivity|]. split; [|assumption].
  apply in_or_app. right. now left.
Qed.

(** X10: what [parse_field_dependencies_page] returns: the URL of the page,
    and references that each come from a data row of an accepted frame, have
    a type and a name that are not empty and are not of type ReportType;
    among them no two Flow references share a name. *)
Theorem parse_field_dependencies_page_result (page : DepsPage) (st : RunState)
    (field_url : string) (refs : list Ref) :
  fst (parse_field_dependencies_page args page st) = Ok (field_url, refs) ->
  field_url = page_url page /\
  (forall r, In r refs ->
     ref_type r <> EmptyString /\ ref_name r <> EmptyString /\
     ref_type r <> "ReportType"%string /\
     exists frames frame rows row,
       iframes page = Ok frames /\ In frame frames /\ frame_qualifies frame /\
       data_rows frame = Ok rows /\ In row rows /\ parse_row args row = Some r) /\
  List.NoDup (map ref_name (flows refs)).
Proof.
  unfold parse_field_dependencies_page, bind at 1, lift at 1.
  destruct (settle page); [|discriminate].
  unfold bind.
  pose proof (find_dependencies_iframe_In page st) as Hin.
  destruct (find_dependencies_iframe page st) as [[[frame|]|e] st1]; cbn [ret fst] in *;
    try discriminate.
  - intros [= <- <-]. split; [reflexivity|].
    destruct (Hin frame eq_refl) as (frames & Hframes & Hf & Hq).
    set (all_refs := match table_visible frame with
                     | Ok true => match data_rows frame with
                                  | Ok rows => omap (parse_row args) rows
                                  | Exc _ => []
                                  end
                     | _ => []
                     end).
    assert (Hrows : forall r, In r all_refs ->
              exists rows row, data_rows frame = Ok rows /\ In row rows /\
                               parse_row args row = Some r).
    { subst all_refs. intros r Hr.
      destruct (table_visible frame) as [[|]|]; try destruct Hr.
      destruct (data_rows frame) as [rows|]; [|destruct Hr].
      apply list_elem_of_In, list_elem_of_omap in Hr as (row & Hrow & Hp).
      apply list_elem_of_In in Hrow. eauto. }
    split.
    + intros r Hr.
      destruct (filter_dedup_contract_parts all_refs) as (_ & Hnort).
      pose proof (Hnort r Hr) as Hrt.
      apply filter_dedup_In in Hr.
      destruct (Hrows r Hr) as (rows & row & Hd & Hrow & Hp).
      destruct (parse_row_well_formed args row r Hp) as [Ht Hn].
      split_and!; try assumption.
      exists frames, frame, rows, row. split_and!; assumption.
    + destruct (filter_dedup_contract_parts all_refs) as (Hnodup & _). exact Hnodup.
  - intros [= <- <-]. split; [reflexivity|]. split; [intros r []|constructor].
Qed.

End Parsing.

Lemma find_dependencies_iframe_first_witness :
  fst (find_dependencies_iframe listing_page (state0 ∅)) = Ok (Some listing_frame).
Proof.
  destruct (find_dependencies_iframe_first listing_page (state0 ∅)) as (_ & Hfirst & _).
  apply (Hfirst (match iframes listing_page with Ok fs => fs | Exc _ => [] end));
    [reflexivity | reflexivity |].
  eexists [_], []. split; [reflexivity|]. split.
  - eexists. split_and!; [reflexivity | reflexivity | now exists tt].
  - intros g [<-|[]]. intros (t & [= <-] & Hm & _). discriminate.
Defined.

Lemma parse_field_dependencies_page_result_witness :
  "https://x.my.salesforce.com/deps"%string = page_url listing_page /\
  ref_name ("Layout", "Page Layout 1", "https://x.my.salesforce.com/00h5e000000abcd")%string
    <> EmptyString.
Proof.
  destruct (parse_field_dependencies_page_result (pystr := ascii_pystr) no_args
              listing_page (state0 ∅) "https://x.my.salesforce.com/deps"
              [("Layout", "Page Layout 1", "https://x.my.salesforce.com/00h5e000000abcd");
               ("Flow", "Flow X", "https://x/flow")]%string)
    as (Hurl & Hrefs & _).
  - vm_compute. reflexivity.
  - split; [exact Hurl|].
    destruct (Hrefs ("Layout", "Page Layout 1",
                     "https://x.my.salesforce.com/00h5e000000abcd")%string)
      as (_ & Hn & _); [now left | exact Hn].
Defined.

(** ** Reference link resolver, again *)

Section LinkShape.

Context {pystr : PyStr} (args : Args).

Lemma link_loop_shape (links : list Anchor) :
  link_loop args links = EmptyString \/ startswith "http" (link_loop args links) = true.
Proof.
  induction links as [|a links IH]; [now left|].
  cbn [link_loop].
  destruct (href a) as [[raw|]|e]; try exact IH.
  destruct (negb (str_truthy raw)); [exact IH|].
  destruct (startswith "javascript:srcUp(" (unquote raw)).
  - destruct (re_search srcUp_pattern (unquote raw)) as [p|]; [|exact IH].
    destruct (startswith "/" (unquote p)); [now right | exact IH].
  - destruct (startswith "/" (unquote raw)); [now right|].
    destruct (startswith "http" (unquote raw)) eqn:E; [now right | exact IH].
Qed.

(** X11: the resolver never hands out a relative or a javascript link: its
    answer is empty or starts with [http]; and it is empty when the index
    does not denote a cell of the row. *)
Theorem extract_reference_link_shape (row : DataRow) (cell_index : Z) :
  (extract_reference_link args row cell_index = EmptyString \/
   startswith "http" (extract_reference_link args row cell_index) = true) /\
  (forall cells, dataCells row = Ok cells ->
     Z.of_nat (length cells) <= cell_index \/ cell_index < - Z.of_nat (length cells) ->
     extract_reference_link args row cell_index = EmptyString).
Proof.
  split.
  - rewrite extract_reference_link_anchors. apply link_loop_shape.
  - intros cells Hc Hout. unfold extract_reference_link. rewrite Hc.
    destruct (Z.leb_spec (Z.of_nat (length cells)) cell_index) as [Hle|Hgt];
      [reflexivity|].
    unfold py_index.
    destruct (Z.ltb_spec cell_index 0) as [Hneg|Hpos]; [|lia].
    destruct (Z.ltb_spec (Z.of_nat (length cells) + cell_index) 0) as [H|H]; [|lia].
    reflexivity.
Qed.

End LinkShape.

Lemma extract_reference_link_shape_witness :
  extract_reference_link (pystr := ascii_pystr) no_args row_with_srcUp (-3) = EmptyString.
Proof.
  destruct (extract_reference_link_shape (pystr := ascii_pystr) no_args row_with_srcUp (-3))
    as [_ Hout].
  apply (Hout (match dataCells row_with_srcUp with Ok cs => cs | Exc _ => [] end));
    [reflexivity|].
  right. simpl. lia.
Defined.

(** ** Filter/dedup, again *)

Lemma first_occurrences_length (l : list string) :
  (length (first_occurrences l) <= length l)%nat.
Proof.
  induction l as [|x l IH]; cbn [first_occurrences length]; [lia|].
  pose proof (List.filter_length_le (fun y => negb (String.eqb y x)) (first_occurrences l)).
  lia.
Qed.

Lemma passthrough_flows_length (l : list Ref) :
  (length (passthrough l) + length (flows l) <= length l)%nat.
Proof.
  unfold passthrough, flows.
  induction l as [|r l IH]; cbn [List.filter length]; [lia|].
  destruct (is_excluded r), (is_flow r); cbn [negb andb length]; lia.
Qed.

(** X12: the stage only removes: every reference it returns is one of its
    input, it returns at most as many as it got, and an input without
    ReportType and Flow references comes back unchanged, duplicates
    included. *)
Theorem filter_dedup_only_removes (l : list Ref) :
  (forall r, In r (filter_dedup l) -> In r l) /\
  (length (filter_dedup l) <= length l)%nat /\
  ((forall r, In r l -> is_excluded r = false /\ is_flow r = false) ->
   filter_dedup l = l).
Proof.
  split_and!.
  - intros r. apply filter_dedup_In.
  - rewrite filter_dedup_spec, length_app.
    unfold dict_values. rewrite length_map.
    assert (H : length (store_flows (flows l) [])
                = length (first_occurrences (map ref_name (flows l)))).
    { rewrite <- store_flows_names. unfold dict_values. now rewrite !length_map. }
    rewrite H.
    pose proof (first_occurrences_length (map ref_name (flows l))) as H1.
    rewrite length_map in H1.
    pose proof (passthrough_flows_length l). lia.
  - intros Hplain. rewrite filter_dedup_spec.
    assert (Hp : passthrough l = l /\ flows l = []).
    { unfold passthrough, flows. induction l as [|r l IH]; [auto|].
      cbn [List.filter]. destruct (Hplain r ltac:(now left)) as [-> ->].
      cbn [negb andb]. destruct IH as [-> ->]; [|auto].
      intros r' Hr'. apply Hplain. now right. }
    destruct Hp as [-> ->]. cbn. apply app_nil_r.
Qed.

Lemma filter_dedup_only_removes_witness :
  filter_dedup [("Layout", "L1", ""); ("Layout", "L1", ""); ("ApexClass", "C", "")]%string
  = [("Layout", "L1", ""); ("Layout", "L1", ""); ("ApexClass", "C", "")]%string.
Proof.
  destruct (filter_dedup_only_removes
              [("Layout", "L1", ""); ("Layout", "L1", ""); ("ApexClass", "C", "")]%string)
    as (_ & _ & Hplain).
  apply Hplain. intros r [<-|[<-|[<-|[]]]]; split; reflexivity.
Defined.

(** ** Pre-scan, again *)

Lemma py_range_In (lo hi r : Z) : In r (py_range lo hi) <-> lo <= r < hi.
Proof.
  unfold py_range. rewrite in_map_iff. split.
  - intros (i & <- & Hi). apply in_seq in Hi. lia.
  - intros H. exists (Z.to_nat (r - lo)). split; [lia|]. apply in_seq. lia.
Qed.

Lemma seq_sorted (lo : Z) (a n : nat) :
  StronglySorted Z.lt (map (fun i => lo + Z.of_nat i) (seq a n)).
Proof.
  revert a; induction n as [|n IH]; intros a; cbn [seq map]; constructor.
  - apply IH.
  - apply List.Forall_forall. intros x Hx. apply in_map_iff in Hx as (i & <- & Hi).
    apply in_seq in Hi. lia.
Qed.

Lemma py_range_sorted (lo hi : Z) : StronglySorted Z.lt (py_range lo hi).
Proof. apply seq_sorted. Qed.

Lemma py_range_length (lo hi : Z) : length (py_range lo hi) = Z.to_nat (hi - lo).
Proof. unfold py_range. now rewrite length_map, length_seq. Qed.

Lemma omap_length_le {A B} (f : A -> option B) (l : list A) :
  (length (omap f l) <= length l)%nat.
Proof.
  induction l as [|x l IH]; cbn; [lia|]. destruct (f x); cbn; lia.
Qed.

Lemma scan_rows_sorted (sheet : worksheet) (rows : list Z) :
  StronglySorted Z.lt rows ->
  StronglySorted Z.lt (map original_row (omap (scan_row sheet) rows)).
Proof.
  induction 1 as [|r rows Hs IH Hall]; cbn [omap list_omap]; [constructor|].
  destruct (scan_row sheet r) as [field|] eqn:E; [|exact IH].
  cbn [map]. constructor; [exact IH|].
  apply scan_row_Some in E as [-> _].
  rewrite List.Forall_forall in *. intros x Hx.
  apply in_map_iff in Hx as (f & <- & Hf).
  apply list_elem_of_In, list_elem_of_omap in Hf as (r' & Hr' & Hscan).
  apply scan_row_Some in Hscan as [-> _]. apply Hall. now apply list_elem_of_In.
Qed.

(** X13: the work list is in strictly increasing row order; every work item
    sits on a row from the start row to the last row of the sheet, within the
    limit counted in rows from the start row, and carries the truthy label
    and API name of its row; with a limit n there are at most n work items. *)
Theorem prescan_work_list (args : Args) (sheet : worksheet) (start_row : Z) :
  let fields := prescan args sheet start_row in
  increasing_rows fields /\
  (forall field, In field fields ->
     start_row <= original_row field <= max_row sheet /\
     (forall n, limit args = Some n -> original_row field < start_row + n) /\
     label field = value (ws_cell sheet (original_row field) 1) /\
     api_name field = value (ws_cell sheet (original_row field) 2) /\
     truthy (label field) = true /\ truthy (api_name field) = true) /\
  (forall n, limit args = Some n -> (length fields <= Z.to_nat n)%nat).
Proof.
  cbv zeta. unfold prescan, increasing_rows. split_and!.
  - apply scan_rows_sorted, py_range_sorted.
  - intros field Hin.
    apply list_elem_of_In, list_elem_of_omap in Hin as (row & Hrow & Hscan).
    apply list_elem_of_In, py_range_In in Hrow.
    pose proof (scan_row_Some _ _ _ Hscan) as (Horig & Hl & Ha & _).
    unfold scan_row in Hscan.
    destruct (truthy (value (ws_cell sheet row 2)) && truthy (value (ws_cell sheet row 1))
              && negb (truthy (value (ws_cell sheet (row + 1) 9)))); [|discriminate].
    injection Hscan as <-. cbn [original_row label api_name] in *.
    split_and!; try reflexivity; try assumption; try lia.
    intros n Hn. rewrite Hn in Hrow. lia.
  - intros n Hn. rewrite Hn.
    etransitivity; [apply omap_length_le|]. rewrite py_range_length. lia.
Qed.

Lemma prescan_work_list_witness :
  (length (prescan limit_args sheet_one_field 2) <= 1)%nat.
Proof.
  destruct (prescan_work_list limit_args sheet_one_field 2) as (_ & _ & H).
  exact (H 1 eq_refl).
Defined.

Section StartLabel.

Context {pystr : PyStr} (args : Args).

Lemma find_start_label_Some (sheet : worksheet) (target : string) (rows : list Z) (r : Z) :
  find_start_label sheet target rows = Ok (Some r) ->
  exists pre post, rows = pre ++ r :: post /\
    (exists s, value (ws_cell sheet r 1) = VStr s /\ s <> EmptyString /\
               py_strip s = py_strip target) /\
    forall r', In r' pre -> not_start_label sheet target r'.
Proof.
  induction rows as [|r0 rows IH]; cbn [find_start_label]; [discriminate|].
  assert (Hcons : forall pre post s0,
            rows = pre ++ r :: post ->
            not_start_label sheet target r0 ->
            (forall r', In r' pre -> not_start_label sheet target r') ->
            s0 ->
            exists pre' post', r0 :: rows = pre' ++ r :: post' /\ s0 /\
              forall r', In r' pre' -> not_start_label sheet target r').
  { intros pre post s0 -> H0 Hpre Hs0. exists (r0 :: pre), post.
    split; [reflexivity|]. split; [assumption|]. intros r' [<-|Hr']; auto. }
  destruct (truthy (value (ws_cell sheet r0 1))) eqn:Et.
  - destruct (value (ws_cell sheet r0 1)) as [|s|z|b] eqn:Ev; try discriminate.
    destruct (String.eqb_spec (py_strip s) (py_strip target)) as [Heq|Hne].
    + intros [= <-]. exists [], rows. split; [reflexivity|]. split; [|intros r' []].
      exists s. split_and!; auto. now apply str_truthy_ne.
    + intros H. destruct (IH H) as (pre & post & Hrows & Hm & Hpre).
      apply (Hcons pre post _ Hrows); auto.
      right. exists s. unfold not_start_label. rewrite Ev. auto.
  - intros H. destruct (IH H) as (pre & post & Hrows & Hm & Hpre).
    apply (Hcons pre post _ Hrows); auto. now left.
Qed.

Lemma find_start_label_None (sheet : worksheet) (target : string) (rows : list Z) :
  find_start_label sheet target rows = Ok None ->
  forall r, In r rows -> not_start_label sheet target r.
Proof.
  induction rows as [|r0 rows IH]; cbn [find_start_label]; [intros _ r []|].
  destruct (truthy (value (ws_cell sheet r0 1))) eqn:Et.
  - destruct (value (ws_cell sheet r0 1)) as [|s|z|b] eqn:Ev; try discriminate.
    destruct (String.eqb_spec (py_strip s) (py_strip target)) as [Heq|Hne];
      [discriminate|].
    intros H r [<-|Hr]; [|now apply IH].
    right. exists s. unfold not_start_label. rewrite Ev. auto.
  - intros H r [<-|Hr]; [now left | now apply IH].
Qed.

Lemma sorted_split_before (pre post : list Z) (r r' : Z) :
  StronglySorted Z.lt (pre ++ r :: post) -> In r' (pre ++ r :: post) -> r' < r ->
  In r' pre.
Proof.
  induction pre as [|x pre IH]; cbn [app]; intros Hs Hin Hlt.
  - inversion Hs as [|? ? _ Hall]; subst. destruct Hin as [<-|Hin]; [lia|].
    rewrite List.Forall_forall in Hall. apply Hall in Hin. lia.
  - inversion Hs as [|? ? Hs' _]; subst. destruct Hin as [<-|Hin]; [now left|].
    right. now apply IH.
Qed.

(** X14: with a start label, the start row is the first row from row 2 on
    whose label, stripped, equals the stripped start label; no such row up to
    the last row means that the search fails; without a start label the
    start row is 2. *)
Theorem find_start_row_first_match (sheet : worksheet) :
  (forall target r,
     start_at_label args = Some target -> target <> EmptyString ->
     find_start_row args sheet = Ok (Some r) ->
     2 <= r <= max_row sheet /\
     (exists s, value (ws_cell sheet r 1) = VStr s /\ py_strip s = py_strip target) /\
     forall r', 2 <= r' < r -> not_start_label sheet target r') /\
  (forall target,
     start_at_label args = Some target -> target <> EmptyString ->
     find_start_row args sheet = Ok None ->
     forall r, 2 <= r <= max_row sheet -> not_start_label sheet target r) /\
  (start_at_label args = None \/ start_at_label args = Some EmptyString ->
     find_start_row args sheet = Ok (Some 2)).
Proof.
  unfold find_start_row. split_and!.
  - intros target r -> Hne. apply str_truthy_ne in Hne. rewrite Hne. intros H.
    apply find_start_label_Some in H as (pre & post & Hrows & (s & Hv & _ & Hs) & Hpre).
    assert (Hin : In r (py_range 2 (max_row sheet + 1))).
    { rewrite Hrows. apply in_or_app. right. now left. }
    apply py_range_In in Hin. split_and!; try lia; [eauto|].
    intros r' Hr'. apply Hpre.
    apply (sorted_split_before pre post r r').
    + rewrite <- Hrows. apply py_range_sorted.
    + rewrite <- Hrows. apply py_range_In. lia.
    + lia.
  - intros target -> Hne. apply str_truthy_ne in Hne. rewrite Hne. intros H r Hr.
    apply (find_start_label_None _ _ _ H). apply py_range_In. lia.
  - intros [-> | ->]; reflexivity.
Qed.

End StartLabel.

Lemma find_start_row_first_match_witness :
  2 <= 2 <= max_row sheet_one_field.
Proof.
  destruct (find_start_row_first_match (pystr := ascii_pystr) limit_args sheet_one_field)
    as (Hfound & _).
  destruct (Hfound "My Field"%string 2) as (Hrange & _).
  - reflexivity.
  - discriminate.
  - vm_compute. reflexivity.
  - exact Hrange.
Defined.

(** ** Row addressing along the loop *)

Lemma merge_writer_below (R : Z) (url : string) (refs : list Ref) (st : RunState)
    (r c : Z) :
  R < r ->
  ws_cell (ws (merge_writer R url refs st)) (r + rows_for refs) c = ws_cell (ws st) r c.
Proof.
  intros Hr. destruct refs as [|r0 refs].
  - destruct (merge_writer_marker R url st) as (_ & _ & _ & _ & H & _). now apply H.
  - destruct (merge_writer_references R url (r0 :: refs) st ltac:(discriminate))
      as (_ & _ & _ & _ & H & _). now apply H.
Qed.

Lemma skip_or_below (R : Z) (url : string) (refs : list Ref) (st : RunState) (r c : Z) :
  r <= R -> (r, c) <> (R, 1) ->
  ws_cell (ws (merge_writer R url refs st)) r c = ws_cell (ws st) r c.
Proof.
  intros Hr Hc. destruct refs as [|r0 refs].
  - destruct (merge_writer_marker R url st) as (_ & _ & H & _). now apply H.
  - destruct (merge_writer_references R url (r0 :: refs) st ltac:(discriminate))
      as (_ & _ & H & _). now apply H.
Qed.

Section Addressing.

Context {pystr : PyStr} (args : Args).

(** The rows below the item just processed are found where the counter
    says. *)
Lemma process_field_shifts (script : FieldScript) (oid : string) (field : WorkItem)
    (st : RunState) (sheet : worksheet) (lo : Z) :
  lo <= original_row field ->
  (forall r c, lo <= r -> ws_cell (ws st) (r + rows_inserted st) c = ws_cell sheet r c) ->
  let st' := snd (process_field args script oid field st) in
  forall r c, original_row field < r ->
    ws_cell (ws st') (r + rows_inserted st') c = ws_cell sheet r c.
Proof.
  intros Hlo Hinv st' r c Hr. subst st'.
  destruct (process_field_run args script oid field st)
    as (evs & _ & [(b & Hrun) | (url & refs & _ & Hrun)]); rewrite Hrun; cbn [snd].
  - cbn [add_events ws rows_inserted]. apply Hinv. lia.
  - destruct (merge_writer_add_events (original_row field + rows_inserted st) url refs
                st evs) as (Hws & Hrows & _).
    rewrite Hws, Hrows. fold (rows_for refs).
    replace (r + (rows_inserted st + rows_for refs))
      with ((r + rows_inserted st) + rows_for refs) by lia.
    rewrite merge_writer_below by lia. apply Hinv. lia.
Qed.

Lemma addressing_invariant (w : World) (oid : string) (sheet : worksheet)
    (fields : list WorkItem) (i : nat) (st : RunState) (lo : Z) :
  (forall f, In f fields -> lo <= original_row f) ->
  increasing_rows fields ->
  (forall r c, lo <= r -> ws_cell (ws st) (r + rows_inserted st) c = ws_cell sheet r c) ->
  forall f s, In (f, s) (combine fields (st :: states_after args w oid i fields st)) ->
  forall c, ws_cell (ws s) (original_row f + rows_inserted s) c
            = ws_cell sheet (original_row f) c.
Proof.
  revert i st lo; induction fields as [|f0 rest IH]; intros i st lo Hlo Hsorted Hinv f s Hin c.
  - destruct Hin.
  - cbn [combine] in Hin. destruct Hin as [[= <- <-]|Hin].
    + apply Hinv. apply Hlo. now left.
    + unfold increasing_rows in Hsorted. cbn [map] in Hsorted.
      inversion Hsorted as [|? ? Hsorted' Hall]; subst.
      assert (Hrest : forall f', In f' rest -> original_row f0 + 1 <= original_row f').
      { intros f' Hf'. rewrite List.Forall_forall in Hall.
        specialize (Hall (original_row f') (in_map _ _ _ Hf')). lia. }
      pose proof (process_field_shifts (field_script w i) oid f0 st sheet lo
                    (Hlo f0 ltac:(now left)) Hinv) as Hshift.
      cbn [states_after] in Hin.
      destruct (process_field args (field_script w i) oid f0 st) as [res st'].
      cbn [snd] in Hshift.
      assert (Hinv' : forall r c, original_row f0 + 1 <= r ->
                ws_cell (ws st') (r + rows_inserted st') c = ws_cell sheet r c).
      { intros r c' Hr. apply Hshift. lia. }
      assert (Hbreak : In (f, s) (combine rest [st']) ->
                ws_cell (ws s) (original_row f + rows_inserted s) c
                = ws_cell sheet (original_row f) c).
      { destruct rest as [|f1 rest']; [intros []|]. cbn [combine].
        rewrite List.combine_nil. intros [[= <- <-]|[]]. apply Hinv'. apply Hrest. now left. }
      destruct res as [[|]|e]; try (now apply Hbreak).
      apply (IH (S i) st' (original_row f0 + 1)); auto.
Qed.

(** X15: when the turn of a work item comes, the row computed for it, its
    original row plus the rows inserted so far, holds the cells of its
    original row: on a work list in increasing row order the insertions made
    for the earlier items are made up for exactly. *)
Theorem current_row_is_field_row (w : World) (oid : string) (sheet : worksheet)
    (fields : list WorkItem) :
  increasing_rows fields ->
  forall field st,
    In (field, st)
       (combine fields
          (state0 sheet :: states_after args w oid 1 fields (state0 sheet))) ->
    forall c, ws_cell (ws st) (original_row field + rows_inserted st) c
              = ws_cell sheet (original_row field) c.
Proof.
  intros Hsorted.
  destruct fields as [|f0 rest] eqn:E; [intros f s []|]. rewrite <- E in *.
  assert (Hlo : forall f, In f fields -> original_row f0 <= original_row f).
  { subst fields. intros f [<-|Hf]; [lia|].
    unfold increasing_rows in Hsorted. cbn [map] in Hsorted.
    inversion Hsorted as [|? ? _ Hall]; subst. rewrite List.Forall_forall in Hall.
    specialize (Hall (original_row f) (in_map _ _ _ Hf)). lia. }
  apply (addressing_invariant w oid sheet fields 1 (state0 sheet) (original_row f0));
    auto.
  intros r c _. cbn [state0 ws rows_inserted]. now rewrite Z.add_0_r.
Qed.

(** ** The loop goes on *)

Lemma process_field_continues (script : FieldScript) (oid : string) (field : WorkItem)
    (st : RunState) :
  exists b, fst (process_field args script oid field st) = Ok b /\
            (b = false -> exists e, recover_goto script = Exc e).
Proof.
  assert (Hrec : forall st1 : RunState,
    exists b, fst (try_except (lift (recover_goto script);; ret true)
                     (fun _ => ret false) st1) = Ok b /\
              (b = false -> exists e, recover_goto script = Exc e)).
  { intros st1. unfold try_except, bind, lift, ret.
    destruct (recover_goto script) as [u|e]; cbn [fst].
    - exists true. split; [reflexivity | discriminate].
    - exists false. split; [reflexivity | eauto]. }
  unfold process_field, bind, try_except, get_state, lift, modify, ret in *.
  assert (Htrue : exists b, Ok true = Ok b /\
                    (b = false -> exists e, recover_goto script = Exc e)).
  { exists true. split; [reflexivity | discriminate]. }
  destruct (find_field_and_get_dependencies args script (label field) (api_name field)
              oid st) as [[[|]|e] st1].
  - destruct (parse_field_dependencies_page args (dependencies_page script) st1)
      as [[[url refs]|e] st2].
    + destruct (back_goto script); [exact Htrue | apply Hrec].
    + apply Hrec.
  - destruct (back_goto script); [exact Htrue | apply Hrec].
  - apply Hrec.
Qed.

(** X16: an exception while a field is processed never leaves the loop body:
    the body answers whether to go on, and it says stop only when the
    recovery navigation has failed; so if no recovery navigation fails every
    work item gets its turn. *)
Theorem loop_stops_only_on_failed_recovery (w : World) (oid : string) :
  (forall script field st,
     exists b, fst (process_field args script oid field st) = Ok b /\
               (b = false -> exists e, recover_goto script = Exc e)) /\
  ((forall i, exists u, recover_goto (field_script w i) = Ok u) ->
   forall fields i st,
     length (states_after args w oid i fields st) = length fields).
Proof.
  split; [intros; apply process_field_continues|].
  intros Hrec fields. induction fields as [|f rest IH]; intros i st; [reflexivity|].
  cbn [states_after].
  destruct (process_field_continues (field_script w i) oid f st) as (b & Hb & Hstop).
  destruct (process_field args (field_script w i) oid f st) as [res st'].
  cbn [fst] in Hb. subst res.
  destruct b.
  - cbn [length]. now rewrite IH.
  - destruct (Hstop eq_refl) as [e He]. destruct (Hrec i) as [u Hu]. congruence.
Qed.

End Addressing.

Lemma current_row_is_field_row_witness :
  let w := world_of sheet_two_fields retry_script in
  let fields := prescan no_args sheet_two_fields 2 in
  let sts := states_after (pystr := ascii_pystr) no_args w "01I5e000000abcd" 1 fields
               (state0 sheet_two_fields) in
  let st := hd (state0 sheet_two_fields) sts in
  rows_inserted st = 1 /\
  ws_cell (ws st) (3 + rows_inserted st) 1 = ws_cell sheet_two_fields 3 1.
Proof.
  cbv zeta. split; [vm_compute; reflexivity|].
  apply (current_row_is_field_row (pystr := ascii_pystr) no_args
           (world_of sheet_two_fields retry_script) "01I5e000000abcd" sheet_two_fields
           (prescan no_args sheet_two_fields 2))
    with (field := {| api_name := VStr "Other__c"; label := VStr "Other Field";
                      original_row := 3 |}).
  - unfold increasing_rows. vm_compute. repeat constructor.
  - vm_compute. right. left. reflexivity.
Defined.

Lemma loop_stops_only_on_failed_recovery_witness :
  length (states_after (pystr := ascii_pystr) no_args
            (world_of sheet_two_fields retry_script) "01I5e000000abcd" 1
            (prescan no_args sheet_two_fields 2) (state0 sheet_two_fields))
  = length (prescan no_args sheet_two_fields 2).
Proof.
  destruct (loop_stops_only_on_failed_recovery (pystr := ascii_pystr) no_args
              (world_of sheet_two_fields retry_script) "01I5e000000abcd") as [_ Hall].
  apply Hall. intros i. now exists tt.
Defined.

(** ** What a run does, in order *)

Section RunEvents.

Context {pystr : PyStr} (args : Args).

Lemma is_nav_work (e : Event) : is_nav e -> is_work e.
Proof. now destruct e. Qed.

Lemma process_field_work (script : FieldScript) (oid : string) (field : WorkItem)
    (st : RunState) :
  exists evs, events (snd (process_field args script oid field st)) = events st ++ evs /\
              Forall is_work evs.
Proof.
  destruct (process_field_run args script oid field st)
    as (evs & Hnav & [(b & Hrun) | (url & refs & _ & Hrun)]); rewrite Hrun; cbn [snd].
  - exists evs. split; [reflexivity|]. revert Hnav. apply List.Forall_impl, is_nav_work.
  - destruct (merge_writer_add_events (original_row field + rows_inserted st) url refs
                st evs) as (_ & _ & Hev).
    rewrite Hev. eexists. split; [reflexivity|].
    apply Forall_app. split; [revert Hnav; apply List.Forall_impl, is_nav_work|].
    now repeat constructor.
Qed.

Lemma field_loop_work (w : World) (oid : string) (fields : list WorkItem)
    (i : nat) (st : RunState) :
  exists evs, events (snd (field_loop args w oid i fields st)) = events st ++ evs /\
              Forall is_work evs.
Proof.
  revert i st; induction fields as [|field rest IH]; intros i st; cbn [field_loop].
  - exists []. split; [now rewrite app_nil_r | constructor].
  - unfold bind.
    destruct (process_field_work (field_script w i) oid field st) as (e1 & H1 & HP1).
    destruct (process_field args (field_script w i) oid field st) as [[[|]|e] st'];
      cbn [snd] in H1; cbn [ret snd]; try (exists e1; now split).
    destruct (IH (S i) st') as (e2 & H2 & HP2).
    exists (e1 ++ e2). rewrite H2, H1, app_assoc. split; [reflexivity|].
    now apply Forall_app.
Qed.

(** X17: the order of a run.  A run that ends early touches nothing: no
    event at all, or only the closing of the browser when the object
    identifier is missing.  A run that comes to its end closes the browser
    exactly once if it was launched, after all the work on fields and just
    before the one save attempt; if the launch failed it only saves. *)
Theorem main_order_of_events (w : World) :
  let evs := events (snd (main args w)) in
  match fst (main args w) with
  | ExitEnd =>
      ((exists e, launch w = Exc e) /\ evs = [EvSave]) \/
      (launch w = Ok tt /\
       exists work, Forall is_work work /\ evs = work ++ [EvClose; EvSave])
  | ExitNoObjectId => launch w = Ok tt /\ evs = [EvClose]
  | _ => evs = []
  end.
Proof.
  cbv zeta. unfold main.
  destruct (file_exists w); cbn [negb]; [|reflexivity].
  destruct (workbook w) as [sheet|]; [|reflexivity].
  destruct (find_start_row args sheet) as [[start_row|]|]; try reflexivity.
  destruct (prescan args sheet start_row) as [|f fs]; [reflexivity|].
  destruct (launch w) as [[]|e]; cbn [save_workbook fst snd]; [|left; eauto].
  destruct (login w) as [canonical_url|e]; cbn [save_workbook fst snd].
  - destruct (match object_id args with
              | Some given => if str_truthy given then Some given
                              else extract_object_id_from_url canonical_url
              | None => extract_object_id_from_url canonical_url
              end) as [oid|]; [|now split].
    destruct (str_truthy oid); [|now split].
    destruct (field_loop_work w oid (f :: fs) 1
                {| ws := sheet; rows_inserted := 0; events := [] |}) as (work & He & HP).
    destruct (field_loop args w oid 1 (f :: fs) _) as [r st']. cbn [snd] in He.
    cbn [save_workbook fst snd log events]. right. split; [reflexivity|].
    exists work. split; [assumption|]. rewrite He. cbn [app events].
    now rewrite <- app_assoc.
  - right. split; [reflexivity|]. exists []. split; [constructor | reflexivity].
Qed.

(** X18: the sheet is changed by the work on fields only: a run that stops
    before it, or whose browser cannot be launched or does not come to the
    list page, leaves the loaded sheet as it is and inserts no row. *)
Theorem sheet_untouched_without_field_work (w : World) (sheet : worksheet) :
  file_exists w = true ->
  workbook w = Ok sheet ->
  fst (main args w) <> ExitEnd \/ (exists e, launch w = Exc e)
    \/ (exists e, login w = Exc e) ->
  ws (snd (main args w)) = sheet /\ rows_inserted (snd (main args w)) = 0.
Proof.
  intros Hfile Hwb Hcase. unfold main in *. rewrite Hfile, Hwb in *. cbn [negb] in *.
  destruct (find_start_row args sheet) as [[start_row|]|]; try (now split).
  destruct (prescan args sheet start_row) as [|f fs]; [now split|].
  destruct (launch w) as [[]|e]; [|now split].
  destruct (login w) as [canonical_url|e]; [|now split].
  destruct (match object_id args with
            | Some given => if str_truthy given then Some given
                            else extract_object_id_from_url canonical_url
            | None => extract_object_id_from_url canonical_url
            end) as [oid|]; [|now split].
  destruct (str_truthy oid); [|now split].
  exfalso. destruct (field_loop args w oid 1 (f :: fs) _) as [r st'].
  cbn [save_workbook fst] in Hcase.
  destruct Hcase as [H|[[e H]|[e H]]]; [now apply H | discriminate | discriminate].
Qed.

End RunEvents.

Lemma sheet_untouched_without_field_work_witness :
  ws (snd (main (pystr := ascii_pystr) no_args (world_without_browser sheet_one_field)))
  = sheet_one_field /\
  events (snd (main (pystr := ascii_pystr) no_args (world_without_browser sheet_one_field)))
  = [EvSave].
Proof.
  split.
  - apply (sheet_untouched_without_field_work (pystr := ascii_pystr) no_args
             (world_without_browser sheet_one_field) sheet_one_field);
      [reflexivity | reflexivity |].
    right. left. now exists Error.
  - vm_compute. reflexivity.
Defined.

(** ** A processed field is not scanned again *)

(** X19: after the merge writer has worked on a field row, a new pre-scan of
    the sheet takes as work item neither that row, which now has its marker
    below it, nor any of the rows the writer inserted, which have no label
    and no API name. *)
Theorem merged_rows_are_not_work_items (R : Z) (url : string) (refs : list Ref)
    (st : RunState) :
  well_formed_refs refs ->
  forall r, R <= r <= R + rows_for refs ->
    scan_row (ws (merge_writer R url refs st)) r = None.
Proof.
  intros Hwf r Hr.
  destruct (Z.eq_dec r R) as [->|Hne].
  - pose proof (merge_writer_marks R url refs st Hwf) as Hm. unfold marker in Hm.
    unfold scan_row. rewrite Hm. now rewrite andb_false_r.
  - assert (Hempty : ws_cell (ws (merge_writer R url refs st)) r 2 = empty_cell).
    { destruct refs as [|r0 refs].
      - cbn [rows_for] in Hr. replace r with (R + 1) by lia.
        destruct (merge_writer_marker R url st) as (_ & _ & _ & _ & _ & _ & H).
        apply H. lia.
      - cbn [rows_for] in Hr.
        destruct (merge_writer_references R url (r0 :: refs) st ltac:(discriminate))
          as (_ & _ & _ & _ & _ & Hrow).
        destruct (nth_error (r0 :: refs) (Z.to_nat (r - R - 1))) as [[[t n] l]|] eqn:En.
        + destruct (Hrow _ t n l En) as (_ & _ & H).
          replace (R + 1 + Z.of_nat (Z.to_nat (r - R - 1))) with r in H by lia.
          apply H; lia.
        + apply nth_error_None in En. lia. }
    unfold scan_row. rewrite Hempty. reflexivity.
Qed.

Lemma merged_rows_are_not_work_items_witness :
  scan_row (ws (merge_writer 2 "https://x/field" (filter_dedup scenario_A)
                  (state0 sheet_one_field))) 3 = None.
Proof.
  apply (merged_rows_are_not_work_items 2 "https://x/field" (filter_dedup scenario_A)
           (state0 sheet_one_field)).
  - repeat constructor; discriminate.
  - simpl. lia.
Defined.
